(** * Local service orchestration and streaming progress

    A shallow embedding of the Electron main-process services of the
    companion application:

    - [OllamaService]: the newline-delimited JSON streaming client
      ([generateStream], [pullModel]), the model catalog
      ([getRecommendedModels], [getAvailableModels]) and the parsing of
      [suggestHashtags];
    - [WhisperService] ([electron/whisper.ts]): the model download engine
      ([downloadModel], [downloadFromUrl], [deleteModel]), the model
      listing ([getDownloadedModels], [getAvailableModels]) and the
      transcription facade ([transcribe], [cancelTranscription]);
    - [TTSService] ([electron/tts.ts]) and [VideoAnalyzerService]
      ([electron/video-analyzer.ts]): the server facades ([startServer],
      [stopServer]), and the scores of [analyzeVideo] with
      [formatDuration];
    - [HardwareDetector]: [getModelRecommendation] and [generateWarnings].

    JavaScript runs every handler to completion on one thread, so each
    handler is a function on an explicit state, and a run is the sequence of
    handlers that the environment (HTTP replies, child-process events) fires.
    Calls that leave the program (callbacks, promise settlement, file system,
    network, spawn) are recorded in a trace. *)

From Stdlib Require Import ZArith QArith Qround Qpower Qabs Ascii String List Sorted
  Lia Lqa.
From stdpp Require Import gmap strings list pretty.

Open Scope string_scope.
Open Scope list_scope.

(** ** JavaScript string primitives *)
Module Js.

(** Code units that [String.prototype.trim] removes, among those below
    256 (a character of a string below is one such code unit): TAB, LF, VT,
    FF, CR, SPACE and the no-break space U+00A0. *)
Definition isWhiteSpace (c : ascii) : bool :=
  let n := nat_of_ascii c in
  (Nat.eqb n 9 || Nat.eqb n 10 || Nat.eqb n 11 || Nat.eqb n 12
   || Nat.eqb n 13 || Nat.eqb n 32 || Nat.eqb n 160)%bool.

(** Truthiness of [s.trim()]: some character of [s] is not white space. *)
Fixpoint trim_truthy (s : string) : bool :=
  match s with
  | EmptyString => false
  | String c s' => (negb (isWhiteSpace c) || trim_truthy s')%bool
  end.

(** [s.includes(needle)] *)
Fixpoint includes (s needle : string) : bool :=
  (String.prefix needle s
   || match s with
      | EmptyString => false
      | String _ s' => includes s' needle
      end)%bool.

Definition LF : ascii := "010"%char.

(** [s.split('\n')]: never empty, the last piece is what follows the last
    line feed. *)
Fixpoint split_LF (s : string) : list string :=
  match s with
  | EmptyString => [EmptyString]
  | String c s' =>
      if Ascii.eqb c LF then EmptyString :: split_LF s'
      else match split_LF s' with
           | p :: ps => String c p :: ps
           | [] => [String c EmptyString]
           end
  end.

(** [const lines = buffer.split('\n'); buffer = lines.pop() || '';]
    leaves the complete lines in [lines] and the unterminated rest in
    [buffer]. *)
Definition complete_lines (s : string) : list string := removelast (split_LF s).
Definition partial_line (s : string) : string := List.last (split_LF s) EmptyString.

(** [strs.join('')] *)
Definition join (l : list string) : string := fold_right String.append EmptyString l.

Definition isDigit (c : ascii) : bool :=
  let n := nat_of_ascii c in (Nat.leb 48 n && Nat.leb n 57)%bool.

Definition digitVal (c : ascii) : Z := Z.of_nat (nat_of_ascii c) - 48.

(** Longest prefix of decimal digits, as a number, with the rest. *)
Fixpoint digits (s : string) (acc : Z) : Z * string :=
  match s with
  | String c s' => if isDigit c then digits s' (10 * acc + digitVal c) else (acc, s)
  | EmptyString => (acc, s)
  end.

Fixpoint skipWhiteSpace (s : string) : string :=
  match s with
  | String c s' => if isWhiteSpace c then skipWhiteSpace s' else s
  | EmptyString => s
  end.

Definition startsWithDigit (s : string) : bool :=
  match s with String c _ => isDigit c | EmptyString => false end.

(** [parseInt(s, 10)]: leading white space, an optional sign, then the
    longest run of digits; [None] stands for [NaN]. *)
Definition parseInt (s : string) : option Z :=
  let s1 := skipWhiteSpace s in
  let '(neg, s2) :=
    match s1 with
    | String "-" r => (true, r)
    | String "+" r => (false, r)
    | _ => (false, s1)
    end in
  if startsWithDigit s2
  then let n := fst (digits s2 0) in Some (if neg then - n else n)%Z
  else None.

(** [s.toLowerCase()] on the ASCII letters. *)
Definition lowerChar (c : ascii) : ascii :=
  let n := nat_of_ascii c in
  if (Nat.leb 65 n && Nat.leb n 90)%bool then ascii_of_nat (n + 32) else c.

Fixpoint toLowerCase (s : string) : string :=
  match s with
  | EmptyString => EmptyString
  | String c s' => String (lowerChar c) (toLowerCase s')
  end.

Fixpoint rev (s : string) : string :=
  match s with
  | EmptyString => EmptyString
  | String c s' => rev s' +:+ String c EmptyString
  end.

(** [s.trim()] *)
Definition trim (s : string) : string :=
  rev (skipWhiteSpace (rev (skipWhiteSpace s))).

Definition isSlash (c : ascii) : bool := Ascii.eqb c "/"%char.
Definition isDot (c : ascii) : bool := Ascii.eqb c "."%char.

(** The longest prefix of [s] free of [p], and what follows it. *)
Fixpoint span_until (p : ascii -> bool) (s : string) : string * string :=
  match s with
  | EmptyString => (EmptyString, EmptyString)
  | String c s' =>
      if p c then (EmptyString, s)
      else let '(a, b) := span_until p s' in (String c a, b)
  end.

Fixpoint dropWhile (p : ascii -> bool) (s : string) : string :=
  match s with
  | String c s' => if p c then dropWhile p s' else s
  | EmptyString => s
  end.

(** The last path segment, trailing slashes ignored (POSIX flavour). *)
Definition basename (path : string) : string :=
  rev (fst (span_until isSlash (dropWhile isSlash (rev path)))).

(** [path.extname(p)] of Node (POSIX flavour): from the last dot of the last
    path segment to its end; empty when the segment has no dot, when its
    only dot is its first character, or when the segment is [..]. *)
Definition extname (path : string) : string :=
  let b := basename path in
  let '(ext_rev, rest) := span_until isDot (rev b) in
  match rest with
  | EmptyString => EmptyString
  | String _ before_rev =>
      if String.eqb before_rev EmptyString then EmptyString
      else if String.eqb b ".." then EmptyString
      else String "."%char (rev ext_rev)
  end.

(** *** Numbers

    A JavaScript number other than [NaN] and the infinities is a rational;
    an arithmetic operation gives the double nearest to its exact result.

    [ilog2 q], for [0 < q]: the exponent [k] with [2^k <= q < 2^(k+1)]. *)
Definition ilog2 (q : Q) : Z :=
  let k := (Z.log2 (Qnum q) - Z.log2 (Z.pos (Qden q)))%Z in
  if Qle_bool (2 ^ k) q then k else (k - 1)%Z.

(** The nearest integer, a half going to the even neighbour. *)
Definition round_half_even (x : Q) : Z :=
  let f := Qfloor x in
  match (x - inject_Z f ?= 1 # 2)%Q with
  | Lt => f
  | Gt => (f + 1)%Z
  | Eq => if Z.even f then f else (f + 1)%Z
  end.

(** The IEEE 754 binary64 value nearest to [q], ties to even: [q] is
    scaled so that its integer part has 53 bits and rounded there. The
    exponent is not bounded: the magnitudes met below (byte counts,
    percentages, durations) are far from overflow and from the subnormal
    range. *)
Definition double (q : Q) : Q :=
  if Qeq_bool q 0 then 0%Q
  else
    let e := (ilog2 (Qabs q) - 52)%Z in
    (inject_Z (round_half_even (q / 2 ^ e)) * 2 ^ e)%Q.

(** [Math.round]: the nearest integer, halves going up; it is exact on its
    argument. Where the argument comes from byte counts or durations, the
    roundings of the operations that compute it are written with [double];
    the score averages of the video analyzer are taken in exact
    rationals. *)
Definition Math_round (q : Q) : Z := Qfloor (q + (1 # 2)).

(** [a < b], [a <= b], [Math.max] and [Math.min] on numbers other than
    [NaN]; none of them rounds. *)
Definition le (a b : Q) : bool := Qle_bool a b.
Definition lt (a b : Q) : bool := negb (Qle_bool b a).
Definition Math_max (a b : Q) : Q := if Qle_bool a b then b else a.
Definition Math_min (a b : Q) : Q := if Qle_bool a b then a else b.

(** [Math.trunc], and [a % b]: the remainder takes the sign of the
    dividend. *)
Definition Math_trunc (q : Q) : Z := if Qle_bool 0 q then Qfloor q else Qceiling q.
Definition remainder (a b : Q) : Q := a - b * inject_Z (Math_trunc (a / b)).

(** [s.padStart(2, '0')] *)
Definition padStart2 (s : string) : string :=
  match s with
  | EmptyString => "00"
  | String c EmptyString => String "0"%char s
  | _ => s
  end.

(** [s.split(sep)[0]] for a one-character separator: [s] up to the first
    occurrence of [sep]. *)
Definition split_first (sep : ascii) (s : string) : string :=
  fst (span_until (Ascii.eqb sep) s).

Definition startsWith (s searchString : string) : bool := String.prefix searchString s.

Definition endsWith (s searchString : string) : bool :=
  String.prefix (rev searchString) (rev s).

Fixpoint drop (n : nat) (s : string) : string :=
  match n, s with
  | Datatypes.S n', String _ s' => drop n' s'
  | _, _ => s
  end.

(** [s.replace(pattern, '')] with a string pattern: the first occurrence
    of [pattern] goes. *)
Fixpoint remove_first (pattern s : string) : string :=
  if String.prefix pattern s then drop (String.length pattern) s
  else match s with
       | EmptyString => EmptyString
       | String c s' => String c (remove_first pattern s')
       end.

(** Whether [c] occurs in [s]. *)
Fixpoint occurs (c : ascii) (s : string) : bool :=
  match s with
  | EmptyString => false
  | String c' s' => (Ascii.eqb c c' || occurs c s')%bool
  end.

End Js.

(** ** Promises and traces *)

(** How a promise was settled. Only the first settlement counts. *)
Inductive Settled (R : Type) : Type :=
  | Resolved (r : R)
  | Rejected (msg : string).
Arguments Resolved {R} r.
Arguments Rejected {R} msg.

(** What a handler does to the outside: it calls the caller's callback, or
    it calls [resolve] / [reject] of the promise it belongs to. *)
Inductive Event (C R : Type) : Type :=
  | Call (c : C)
  | Settle (o : Settled R).
Arguments Call {C R} c.
Arguments Settle {C R} o.

(** The value of the promise after a trace: its first settlement. *)
Fixpoint promise {C R : Type} (tr : list (Event C R)) : option (Settled R) :=
  match tr with
  | [] => None
  | Call _ :: tr' => promise tr'
  | Settle o :: _ => Some o
  end.

(** The callback arguments of a trace, in order. *)
Fixpoint calls {C R : Type} (tr : list (Event C R)) : list C :=
  match tr with
  | [] => []
  | Call c :: tr' => c :: calls tr'
  | Settle _ :: tr' => calls tr'
  end.

(** ** The line loop shared by the two streaming handlers

    [for (const line of lines) { ... return; ... }]: the body reports
    whether it executed [return], which leaves the whole data handler. *)
Section LineLoop.
Context {S : Type}.
Variable body : string -> S -> S * bool.

Fixpoint for_lines (lines : list string) (st : S) : S * bool :=
  match lines with
  | [] => (st, false)
  | line :: rest =>
      let '(st', returned) := body line st in
      if returned then (st', true) else for_lines rest st'
  end.

(** [res.on('data', chunk => { buffer += chunk.toString(); ... })] on the
    pair of the [buffer] variable and the rest of the state. *)
Definition on_data (chunk : string) (bs : string * S) : string * S :=
  let buffer := fst bs +:+ chunk in
  let lines := Js.complete_lines buffer in
  (Js.partial_line buffer, fst (for_lines lines (snd bs))).

Definition feed (chunks : list string) (bs : string * S) : string * S :=
  fold_left (fun acc chunk => on_data chunk acc) chunks bs.
End LineLoop.

(** ** [OllamaService]: the streaming client *)
Module Ollama.

(** The fields of [OllamaGenerateResponse] that [generateStream] reads,
    with the types of the TypeScript declaration. [response] is the empty
    string when the field is absent or empty (both falsy), [done] is the
    truthiness of the field, [error] is [Some e] when the object has an
    [error] property that is a string. *)
Record OllamaGenerateResponse : Type := {
  response : string;
  done : bool;
  error : option string
}.

(** The fields of a pull status line that [pullModel] reads, as strings
    and numbers. [status] and [pull_error] (the field [error]) are the
    empty string when absent or empty (falsy). *)
Record PullData : Type := {
  status : string;
  completed : option Z;
  total : option Z;
  pull_error : string
}.

(** The argument [pullModel] hands to [onProgress]. *)
Record PullProgress : Type := {
  progress_status : string;
  progress_completed : option Z;
  progress_total : option Z
}.

Definition truthy (s : string) : bool := negb (String.eqb s EmptyString).

(** The state of [pullModel] between handlers is what went out so far. *)
Abbreviation PullState := (list (Event PullProgress bool)).

Section WithParser.
(** [JSON.parse(line) as OllamaGenerateResponse]; [None] when [JSON.parse]
    throws or when reading a field of the parsed value throws (both land
    in the same [catch]). *)
Variable JSON_parse_generate : string -> option OllamaGenerateResponse.
Variable JSON_parse_pull : string -> option PullData.

(** *** generateStream *)

(** The variables of [generateStream] that outlive a handler:
    [fullResponse] and what went out so far. [buffer] is kept by
    [on_data]. *)
Record GenState : Type := {
  fullResponse : string;
  gen_trace : list (Event string string)
}.

Definition gen_emit (e : Event string string) (st : GenState) : GenState :=
  {| fullResponse := fullResponse st; gen_trace := gen_trace st ++ [e] |}.

(** Body of the [for] loop of the data handler. *)
Definition gen_body (line : string) (st : GenState) : GenState * bool :=
  if Js.trim_truthy line then
    match JSON_parse_generate line with
    | Some data =>
        let st1 :=
          if truthy (response data) then
            gen_emit (Call (response data))
              {| fullResponse := fullResponse st +:+ response data;
                 gen_trace := gen_trace st |}
          else st in
        if done data then
          (gen_emit (Settle (Resolved (fullResponse st1))) st1, true)
        else
          match error data with
          | Some e => (gen_emit (Settle (Rejected e)) st1, true)
          | None => (st1, false)
          end
    | None => (st, false)
    end
  else (st, false).

(** [res.on('end', () => resolve(fullResponse))] *)
Definition gen_on_end (bs : string * GenState) : string * GenState :=
  (fst bs, gen_emit (Settle (Resolved (fullResponse (snd bs)))) (snd bs)).

Definition gen_init : string * GenState :=
  (EmptyString, {| fullResponse := EmptyString; gen_trace := [] |}).

(** The response arrives as [chunks] and then the connection closes. *)
Definition generateStream (chunks : list string) : string * GenState :=
  gen_on_end (feed gen_body chunks gen_init).

(** *** pullModel *)

(** Body of the [for] loop of the data handler. [onProgress] is taken as
    supplied (the IPC handler always passes one). *)
Definition pull_body (line : string) (tr : PullState) : PullState * bool :=
  if Js.trim_truthy line then
    match JSON_parse_pull line with
    | Some data =>
        let tr1 := tr ++ [Call {|
            progress_status :=
              if truthy (status data) then status data else "downloading";
            progress_completed := completed data;
            progress_total := total data |}] in
        if String.eqb (status data) "success" then
          (tr1 ++ [Settle (Resolved true)], true)
        else if truthy (pull_error data) then
          (tr1 ++ [Settle (Rejected (pull_error data))], true)
        else (tr1, false)
    | None => (tr, false)
    end
  else (tr, false).

(** [res.on('end', ...)]: one more attempt on what is left in [buffer]. *)
Definition pull_on_end (bs : string * PullState) : string * PullState :=
  let '(buffer, tr) := bs in
  if Js.trim_truthy buffer then
    match JSON_parse_pull buffer with
    | Some data =>
        if String.eqb (status data) "success" then
          (buffer, tr ++ [Settle (Resolved true)])
        else if truthy (pull_error data) then
          (buffer, tr ++ [Settle (Rejected (pull_error data))])
        else (buffer, tr ++ [Settle (Resolved true)])
    | None => (buffer, tr ++ [Settle (Resolved true)])
    end
  else (buffer, tr ++ [Settle (Resolved true)]).

Definition pullModel (chunks : list string) : string * PullState :=
  pull_on_end (feed pull_body chunks (EmptyString, [])).

(** *** What the lines of a stream say *)

(** The parsed form of a line the loop body acts on. *)
Definition gen_view (line : string) : option OllamaGenerateResponse :=
  if Js.trim_truthy line then JSON_parse_generate line else None.

Definition pull_view (line : string) : option PullData :=
  if Js.trim_truthy line then JSON_parse_pull line else None.

(** A line that makes the data handler settle the promise and return. *)
Definition gen_terminal (line : string) : bool :=
  match gen_view line with
  | Some data => (done data || bool_decide (is_Some (error data)))%bool
  | None => false
  end.

Definition pull_terminal (line : string) : bool :=
  match pull_view line with
  | Some data =>
      (String.eqb (status data) "success" || truthy (pull_error data))%bool
  | None => false
  end.

(** The lines up to and including the first one that satisfies [p]. *)
Fixpoint upto (p : string -> bool) (lines : list string) : list string :=
  match lines with
  | [] => []
  | l :: rest => if p l then [l] else l :: upto p rest
  end.

(** The non-empty [response] texts of the well-formed lines. *)
Fixpoint responses (lines : list string) : list string :=
  match lines with
  | [] => []
  | l :: rest =>
      match gen_view l with
      | Some data =>
          if truthy (response data) then response data :: responses rest
          else responses rest
      | None => responses rest
      end
  end.

(** The progress reports of the well-formed lines. *)
Fixpoint reports (lines : list string) : list PullProgress :=
  match lines with
  | [] => []
  | l :: rest =>
      match pull_view l with
      | Some data =>
          {| progress_status :=
               if truthy (status data) then status data else "downloading";
             progress_completed := completed data;
             progress_total := total data |} :: reports rest
      | None => reports rest
      end
  end.

(** How the first terminal line of [lines] settles [generateStream];
    the accumulated text when there is none. *)
Fixpoint gen_result (lines : list string) (acc : string) : Settled string :=
  match lines with
  | [] => Resolved acc
  | l :: rest =>
      match gen_view l with
      | Some data =>
          let acc' := if truthy (response data) then acc +:+ response data else acc in
          if done data then Resolved acc'
          else match error data with
               | Some e => Rejected e
               | None => gen_result rest acc'
               end
      | None => gen_result rest acc
      end
  end.

(** How the first terminal line of [lines] settles [pullModel]. *)
Fixpoint pull_first (lines : list string) : option (Settled bool) :=
  match lines with
  | [] => None
  | l :: rest =>
      match pull_view l with
      | Some data =>
          if String.eqb (status data) "success" then Some (Resolved true)
          else if truthy (pull_error data) then Some (Rejected (pull_error data))
          else pull_first rest
      | None => pull_first rest
      end
  end.

(** How the end of the stream settles [pullModel] with [rest] left in
    the buffer. *)
Definition pull_last (rest : string) : Settled bool :=
  match pull_view rest with
  | Some data =>
      if String.eqb (status data) "success" then Resolved true
      else if truthy (pull_error data) then Rejected (pull_error data)
      else Resolved true
  | None => Resolved true
  end.

Definition pull_result (lines : list string) (rest : string) : Settled bool :=
  match pull_first lines with
  | Some o => o
  | None => pull_last rest
  end.

(** The reading of the stream contract without its terminal lines:
    [onChunk] has received the response of every well-formed complete
    line, and the call resolves to their concatenation. *)
Definition delivers_every_line (chunks : list string) : Prop :=
  let lines := Js.complete_lines (Js.join chunks) in
  calls (gen_trace (snd (generateStream chunks))) = responses lines
  /\ promise (gen_trace (snd (generateStream chunks)))
     = Some (Resolved (Js.join (responses lines))).
End WithParser.

(** *** The catalog and the text helpers *)

(** [RECOMMENDED_MODELS], without the descriptions. *)
Record CatalogModel : Type := {
  id : string;
  name : string;
  size : string;
  sizeBytes : Q;
  ramRequired : Q;
  recommended : bool;
  bestFor : string
}.

Definition RECOMMENDED_MODELS : list CatalogModel :=
  [ {| id := "llama3.2:1b"; name := "Llama 3.2 1B"; size := "1.3 GB";
       sizeBytes := (13 # 10) * 1024 * 1024 * 1024; ramRequired := 4;
       recommended := true; bestFor := "Hashtags, quick captions" |};
    {| id := "llama3.2:3b"; name := "Llama 3.2 3B"; size := "2.0 GB";
       sizeBytes := 2 * 1024 * 1024 * 1024; ramRequired := 6;
       recommended := true; bestFor := "Content analysis, scripting" |};
    {| id := "qwen2.5:7b"; name := "Qwen 2.5 7B"; size := "4.7 GB";
       sizeBytes := (47 # 10) * 1024 * 1024 * 1024; ramRequired := 10;
       recommended := false; bestFor := "Multilingual content, detailed analysis" |};
    {| id := "llava:7b"; name := "LLaVA 7B"; size := "4.7 GB";
       sizeBytes := (47 # 10) * 1024 * 1024 * 1024; ramRequired := 10;
       recommended := false; bestFor := "Video frame analysis, thumbnail ideas" |};
    {| id := "qwen2.5-vl:7b"; name := "Qwen 2.5-VL 7B"; size := "5.0 GB";
       sizeBytes := 5 * 1024 * 1024 * 1024; ramRequired := 12;
       recommended := false; bestFor := "Video analysis, multilingual vision tasks" |} ].

(** [OllamaModelInfo] as the two listing methods build it: the catalog
    entry spread into the object, then [downloaded] and [recommended]
    set, the latter over the one of the entry. *)
Record OllamaModelInfo : Type := {
  entry : CatalogModel;
  info_downloaded : bool;
  info_recommended : bool
}.

(** What [makeRequest] comes back with: a rejection, or the parsed body.
    For [/api/tags] the body is the value of its [models] property, the
    names only, [None] when the property is missing or falsy. *)
Inductive Transport (A : Type) : Type :=
  | RequestFailed (msg : string)
  | Answered (a : A).
Arguments RequestFailed {A} msg.
Arguments Answered {A} a.

(** [listModels], by name: a failed request gives the empty list. *)
Definition listModels (tags : Transport (option (list string))) : list string :=
  match tags with
  | Answered (Some models) => models
  | Answered None => []
  | RequestFailed _ => []
  end.

Definition getRecommendedModels (availableRam : Q) : list OllamaModelInfo :=
  map (fun m => {| entry := m;
                   info_downloaded := false;
                   info_recommended := Js.le (ramRequired m) (availableRam * (1 # 2)) |})
    RECOMMENDED_MODELS.

Definition getAvailableModels (availableRam : Q) (tags : Transport (option (list string)))
  : list OllamaModelInfo :=
  let installedNames := listModels tags in
  map (fun m => {| entry := m;
                   info_downloaded := bool_decide (id m ∈ installedNames);
                   info_recommended := Js.le (ramRequired m) (availableRam * (1 # 2)) |})
    RECOMMENDED_MODELS.

(** The parsing step of [suggestHashtags]. *)
Definition parse_hashtags (response : string) : list string :=
  take 15
    (map (Js.split_first " "%char)
       (List.filter (fun line => Js.startsWith line "#")
          (map Js.trim (Js.split_LF response)))).

(** What V8 throws on [undefined.split]. *)
Definition split_of_undefined : string :=
  "Cannot read properties of undefined (reading 'split')".

(** [suggestHashtags], by what [generate] comes back with: a rejection,
    or the [response] property of the body ([None] when the body has
    none). *)
Definition suggestHashtags (generated : Transport (option string))
  : Settled (list string) :=
  match generated with
  | RequestFailed msg => Rejected msg
  | Answered None => Rejected split_of_undefined
  | Answered (Some response) => Resolved (parse_hashtags response)
  end.

End Ollama.

(** ** The outside world of [WhisperService] *)

(** The value of a property read [obj[key]] on an object literal whose
    own properties are strings: an own property, a member inherited from
    [Object.prototype], or [undefined]. *)
Inductive PropValue : Type :=
  | JsUndefined
  | JsString (s : string)
  | JsInherited (name : string).

(** The property names every object literal inherits from
    [Object.prototype]; each is bound to a function or an object. *)
Definition Object_prototype : list string :=
  [ "constructor"; "__defineGetter__"; "__defineSetter__"; "hasOwnProperty";
    "__lookupGetter__"; "__lookupSetter__"; "isPrototypeOf";
    "propertyIsEnumerable"; "toString"; "valueOf"; "__proto__";
    "toLocaleString" ].

(** [obj[key]]: the own property when there is one, else what the
    prototype chain answers. *)
Definition get_property (obj : gmap string string) (key : string) : PropValue :=
  match obj !! key with
  | Some s => JsString s
  | None => if bool_decide (key ∈ Object_prototype) then JsInherited key else JsUndefined
  end.

(** Truthiness: [undefined] and the empty string are falsy, functions and
    objects are truthy. *)
Definition prop_truthy (v : PropValue) : bool :=
  match v with
  | JsUndefined => false
  | JsString s => negb (String.eqb s EmptyString)
  | JsInherited _ => true
  end.

(** What the program does to the file system, the network, its child
    processes and its caller's progress callback. *)
Inductive IO : Type :=
  | CreateWriteStream (path : string)
  | HttpsGet (url : PropValue)
  | Unlink (path : string)
  | Rename (src dst : string)
  | OnProgress (percent : Z)
  | Spawn (pid : nat) (command : string) (args : list string)
  | Kill (pid : nat).

(** The file system (path to content), the trace, the next free process
    handle and the clock read by [Date.now()]. *)
Record World : Type := {
  files : gmap string string;
  io : list IO;
  next_pid : nat;
  now : Z
}.

Definition emit (e : IO) (w : World) : World :=
  {| files := files w; io := io w ++ [e]; next_pid := next_pid w; now := now w |}.

Definition set_files (f : gmap string string) (w : World) : World :=
  {| files := f; io := io w; next_pid := next_pid w; now := now w |}.

Definition existsSync (path : string) (w : World) : bool :=
  bool_decide (is_Some (files w !! path)).

(** [fs.createWriteStream(path)]: the file is created, or truncated. *)
Definition createWriteStream (path : string) (w : World) : World :=
  emit (CreateWriteStream path) (set_files (<[path := EmptyString]> (files w)) w).

(** [fs.unlinkSync(path)]. It throws when the file is missing; at every
    call below the file was created or tested just before. *)
Definition unlinkSync (path : string) (w : World) : World :=
  emit (Unlink path) (set_files (delete path (files w)) w).

(** [fs.renameSync(src, dst)] of an existing file. *)
Definition renameSync (src dst : string) (w : World) : World :=
  emit (Rename src dst)
    (set_files
       (match files w !! src with
        | Some content => <[dst := content]> (delete src (files w))
        | None => files w
        end) w).

Definition spawn (command : string) (args : list string) (w : World) : nat * World :=
  (next_pid w,
   {| files := files w; io := io w ++ [Spawn (next_pid w) command args];
      next_pid := Datatypes.S (next_pid w); now := now w |}).

(** The name under which [path] shows in a listing of [dir]: the first
    component of what follows [dir/]. *)
Definition entry_below (dir path : string) : option string :=
  if String.prefix (dir +:+ "/") path then
    let name := Js.split_first "/"%char (Js.drop (String.length dir + 1) path) in
    if String.eqb name EmptyString then None else Some name
  else None.

(** [fs.readdirSync(dir)]: the names of the entries of [dir], each once, in
    the order the platform gives. *)
Definition readdirSync (dir : string) (w : World) : list string :=
  remove_dups (omap (entry_below dir) (map fst (map_to_list (files w)))).

(** [fs.existsSync(dir)] for a directory. The world keeps files only: a
    directory is there when a file lies below it. An empty directory
    counts as missing; the one caller answers [] for both. *)
Definition existsSync_dir (dir : string) (w : World) : bool :=
  negb (bool_decide (readdirSync dir w = [])).

(** The answer of the network to one [https.get]. *)
Inductive HttpReply : Type :=
  | NetworkError (msg : string)
  | Response (statusCode : Z) (location : option string)
             (content_length : option string) (body : list string)
  | NoReply.

(** The progress percents of a trace. *)
Fixpoint progress_calls (tr : list IO) : list Z :=
  match tr with
  | [] => []
  | OnProgress n :: tr' => n :: progress_calls tr'
  | _ :: tr' => progress_calls tr'
  end.

(** ** [WhisperService]: model downloads and transcription *)
Module Whisper.

Definition SUPPORTED_FORMATS : list string := [".flac"; ".mp3"; ".ogg"; ".wav"].

Definition MODEL_DOWNLOAD_URLS : gmap string string :=
  list_to_map
    [ ("tiny", "https://huggingface.co/ggerganov/whisper.cpp/resolve/main/ggml-tiny.bin");
      ("tiny.en", "https://huggingface.co/ggerganov/whisper.cpp/resolve/main/ggml-tiny.en.bin");
      ("base", "https://huggingface.co/ggerganov/whisper.cpp/resolve/main/ggml-base.bin");
      ("base.en", "https://huggingface.co/ggerganov/whisper.cpp/resolve/main/ggml-base.en.bin");
      ("small", "https://huggingface.co/ggerganov/whisper.cpp/resolve/main/ggml-small.bin");
      ("small.en", "https://huggingface.co/ggerganov/whisper.cpp/resolve/main/ggml-small.en.bin");
      ("medium", "https://huggingface.co/ggerganov/whisper.cpp/resolve/main/ggml-medium.bin");
      ("medium.en", "https://huggingface.co/ggerganov/whisper.cpp/resolve/main/ggml-medium.en.bin");
      ("large-v3", "https://huggingface.co/ggerganov/whisper.cpp/resolve/main/ggml-large-v3.bin") ].

(** The fields of the service object. [tempDir] is [app.getPath('temp')],
    [cpuCores] is [hardwareInfo.cpuCores]; [activeTranscriptions] maps a
    file path to the handle of its recognition process. *)
Record WhisperService : Type := {
  modelsDir : string;
  binaryPath : string;
  tempDir : string;
  cpuCores : Z;
  activeTranscriptions : gmap string nat
}.

Definition set_active (m : gmap string nat) (svc : WhisperService) : WhisperService :=
  {| modelsDir := modelsDir svc; binaryPath := binaryPath svc;
     tempDir := tempDir svc; cpuCores := cpuCores svc;
     activeTranscriptions := m |}.

(** [a || b] on an optional string: the empty string is falsy too. *)
Definition or_else (a : option string) (b : string) : string :=
  match a with
  | Some s => if String.eqb s EmptyString then b else s
  | None => b
  end.

(** [path.join(dir, name)] where nothing is left to normalize: [dir] is a
    normalized path with no trailing slash (the directories of the service
    are results of [path.join] and [app.getPath]) and [name] is a plain
    file name, with no slash in it. *)
Definition path_join (dir name : string) : string := dir +:+ "/" +:+ name.

Definition getModelPath (svc : WhisperService) (modelName : string) : string :=
  path_join (modelsDir svc) ("ggml-" +:+ modelName +:+ ".bin").

(** *** The download engine *)

(** [Math.round((downloadedSize / totalSize) * 100)]: the quotient is
    rounded to a double, and so is its product with 100. Byte counts are
    integers below 2^53, which a number holds exactly. *)
Definition percent (downloadedSize totalSize : Z) : Z :=
  Js.Math_round
    (Js.double (Js.double (inject_Z downloadedSize / inject_Z totalSize) * 100)).

(** [response.on('data', chunk => ...)]: the state is the closure variable
    [downloadedSize] and the world. [totalSize] is [None] when [parseInt]
    gave [NaN]. The caller's [onProgress] is taken as supplied (the IPC
    handlers always pass one). *)
Definition on_chunk (totalSize : option Z) (chunk : string) (st : Z * World)
  : Z * World :=
  let downloadedSize := (fst st + Z.of_nat (String.length chunk))%Z in
  (downloadedSize,
   match totalSize with
   | Some t =>
       if (0 <? t)%Z then emit (OnProgress (percent downloadedSize t)) (snd st)
       else snd st
   | None => snd st
   end).

(** A 200 response: [totalSize] is read from the header, the data handler
    runs on every chunk, and [response.pipe(file)] leaves the body in the
    file when the stream finishes. *)
Definition receive (content_length : option string) (body : list string)
    (dest : string) (w : World) : World :=
  let totalSize := Js.parseInt (or_else content_length "0") in
  let w1 := snd (fold_left (fun st chunk => on_chunk totalSize chunk st) body (0%Z, w)) in
  set_files (<[dest := Js.join body]> (files w1)) w1.

Definition http_failure (statusCode : Z) : string :=
  "Failed to download: HTTP " +:+ pretty statusCode.

Section WithNetwork.
(** The network, by the value handed to [https.get]: a URL, or, past the
    guard of [downloadModel], a member inherited by the catalog object.
    What Node makes of a value that is no URL is left to [net] as well. *)
Variable net : PropValue -> HttpReply.

Definition downloadFromUrl (url destPath : string) (w : World)
  : World * option (Settled unit) :=
  let w1 := emit (HttpsGet (JsString url)) (createWriteStream destPath w) in
  match net (JsString url) with
  | Response statusCode _ content_length body =>
      if negb (statusCode =? 200)%Z then
        (w1, Some (Rejected (http_failure statusCode)))
      else (receive content_length body destPath w1, Some (Resolved tt))
  | NetworkError msg => (w1, Some (Rejected msg))
  | NoReply => (w1, None)
  end.

(** [response.headers.location] of a 301 or 302, when it is truthy. *)
Definition redirect_target (statusCode : Z) (location : option string)
  : option string :=
  if ((statusCode =? 301) || (statusCode =? 302))%Z then
    match location with
    | Some l => if String.eqb l EmptyString then None else Some l
    | None => None
    end
  else None.

Definition downloadModel (svc : WhisperService) (modelName : string) (w : World)
  : World * option (Settled bool) :=
  let url := get_property MODEL_DOWNLOAD_URLS modelName in
  if negb (prop_truthy url) then
    (w, Some (Rejected ("Unknown model: " +:+ modelName)))
  else
    let modelPath := getModelPath svc modelName in
    let tempPath := modelPath +:+ ".tmp" in
    let w1 := emit (HttpsGet url) (createWriteStream tempPath w) in
    match net url with
    | Response statusCode location content_length body =>
        match redirect_target statusCode location with
        | Some redirectUrl =>
            let w2 := unlinkSync tempPath w1 in
            match downloadFromUrl redirectUrl tempPath w2 with
            | (w3, Some (Resolved _)) =>
                (renameSync tempPath modelPath w3, Some (Resolved true))
            | (w3, Some (Rejected msg)) => (w3, Some (Rejected msg))
            | (w3, None) => (w3, None)
            end
        | None =>
            if negb (statusCode =? 200)%Z then
              (unlinkSync tempPath w1, Some (Rejected (http_failure statusCode)))
            else
              (renameSync tempPath modelPath
                 (receive content_length body tempPath w1),
               Some (Resolved true))
        end
    | NetworkError msg =>
        ((if existsSync tempPath w1 then unlinkSync tempPath w1 else w1),
         Some (Rejected msg))
    | NoReply => (w1, None)
    end.

(** The response the download ends up reading: that of the redirect
    target after a followed redirect, the first one otherwise. *)
Definition final_reply (url : string) : HttpReply :=
  match net (JsString url) with
  | Response statusCode location _ _ =>
      match redirect_target statusCode location with
      | Some redirectUrl => net (JsString redirectUrl)
      | None => net (JsString url)
      end
  | reply => reply
  end.
End WithNetwork.

(** The percents the data handler reports from [downloadedSize = d0] on,
    one per chunk. *)
Fixpoint chunk_progress (totalSize d0 : Z) (body : list string) : list Z :=
  match body with
  | [] => []
  | chunk :: rest =>
      let d := (d0 + Z.of_nat (String.length chunk))%Z in
      percent d totalSize :: chunk_progress totalSize d rest
  end.

(** The percents reported while a 200 response with this [Content-Length]
    header and this body comes in. *)
Definition reported (content_length : option string) (body : list string) : list Z :=
  match Js.parseInt (or_else content_length "0") with
  | Some totalSize =>
      if (0 <? totalSize)%Z then chunk_progress totalSize 0 body else []
  | None => []
  end.

(** The bytes received once the first [i] chunks of [body] are in. *)
Definition downloaded_after (body : list string) (i : nat) : Z :=
  Z.of_nat (String.length (Js.join (take i body))).

(** The reading under which every report is the rounding of the exact
    percentage [downloaded / total * 100]. *)
Definition reports_exact_percentages (net : PropValue -> HttpReply)
    (svc : WhisperService) (modelName : string) (w : World) : Prop :=
  forall (url : string) (location content_length : option string)
         (body : list string) (totalSize : Z),
    MODEL_DOWNLOAD_URLS !! modelName = Some url ->
    final_reply net url = Response 200 location content_length body ->
    Js.parseInt (or_else content_length "0") = Some totalSize ->
    (0 < totalSize)%Z ->
    progress_calls (io (fst (downloadModel net svc modelName w)))
    = progress_calls (io w)
      ++ map (fun i => Js.Math_round
                         (inject_Z (downloaded_after body i) / inject_Z totalSize * 100))
           (seq 1 (length body)).

(** *** Transcription *)

Record Segment : Type := {
  seg_start : Q;
  seg_end : Q;
  seg_text : string
}.

Record TranscriptionResult : Type := {
  text : string;
  segments : list Segment;
  language : string;
  duration : Q
}.

(** [TranscriptionOptions]; [onProgress] is taken as supplied. *)
Record TranscriptionOptions : Type := {
  opt_model : option string;
  opt_language : option string
}.

Definition needsConversion (filePath : string) : bool :=
  let ext := Js.toLowerCase (Js.extname filePath) in
  negb (bool_decide (ext ∈ SUPPORTED_FORMATS)).

(** What [ffmpeg] did: it exited with [code] ([None] when a signal ended
    it) after writing [output] at the output path (or nothing) and
    [stderr]; or it could not be spawned. *)
Inductive ConvReply : Type :=
  | ConvClose (code : option Z) (output : option string) (stderr : string)
  | ConvError (msg : string).

(** What the recognition process does, in order of arrival. [Writes] is the
    process writing an output file; it fires no handler. *)
Inductive ProcEvent : Type :=
  | Stdout (data : string)
  | Stderr (data : string)
  | Writes (path content : string)
  | Close (code : option Z)
  | Error (msg : string).

(** [output.match(/progress\s*=\s*(\d+)%/)] tried at the start of [s],
    the captured digits already through [parseInt(_, 10)]. *)
Definition match_progress_here (s : string) : option Z :=
  if String.prefix "progress" s then
    match Js.skipWhiteSpace (String.substring 8 (String.length s - 8) s) with
    | String "="%char s2 =>
        let s3 := Js.skipWhiteSpace s2 in
        if Js.startsWithDigit s3 then
          match Js.digits s3 0 with
          | (n, String "%"%char _) => Some n
          | _ => None
          end
        else None
    | _ => None
    end
  else None.

(** The leftmost match in [s]. *)
Fixpoint progressMatch (s : string) : option Z :=
  match match_progress_here s with
  | Some n => Some n
  | None =>
      match s with
      | String _ s' => progressMatch s'
      | EmptyString => None
      end
  end.

(** The closure of one [transcribe] call once the recognition process is
    spawned. *)
Record Job : Type := {
  job_filePath : string;
  job_convertedFile : option string;
  job_outputBase : string;
  job_language : option string;
  job_pid : nat
}.

Definition no_output_text : string :=
  "Transcription completed but no output file found. Check if the audio format is supported.".

Section WithEnvironment.
(** [parseWhisperOutput]; it catches its own parse errors. *)
Variable parseWhisperOutput : string -> TranscriptionResult.
(** Whether [execSync(p + ' -version')] returns normally. *)
Variable runs : string -> bool.

Fixpoint first_usable (candidates : list string) (w : World) : string :=
  match candidates with
  | [] => "ffmpeg"
  | p :: rest =>
      if (existsSync p w || runs p)%bool then p else first_usable rest w
  end.

Definition findFfmpegBinary (w : World) : string :=
  first_usable
    ["/opt/homebrew/bin/ffmpeg"; "/usr/local/bin/ffmpeg"; "/usr/bin/ffmpeg"; "ffmpeg"] w.

Definition convertToWav (svc : WhisperService) (inputPath : string)
    (conv : ConvReply) (w : World) : World * Settled string :=
  let ffmpegPath := findFfmpegBinary w in
  let outputPath :=
    path_join (tempDir svc) ("whisper-converted-" +:+ pretty (now w) +:+ ".wav") in
  let args := ["-i"; inputPath; "-ar"; "16000"; "-ac"; "1";
               "-c:a"; "pcm_s16le"; "-y"; outputPath] in
  let w1 := snd (spawn ffmpegPath args w) in
  match conv with
  | ConvClose code output stderr =>
      let w2 :=
        match output with
        | Some content => set_files (<[outputPath := content]> (files w1)) w1
        | None => w1
        end in
      if (bool_decide (code = Some 0%Z) && existsSync outputPath w2)%bool
      then (w2, Resolved outputPath)
      else (w2, Rejected ("Failed to convert audio: " +:+ stderr))
  | ConvError msg => (w1, Rejected ("FFmpeg error: " +:+ msg))
  end.

(** [Math.max(1, Math.floor(cpuCores * 0.75))] *)
Definition threads (svc : WhisperService) : Z := Z.max 1 (3 * cpuCores svc / 4).

(** The block [if (this.needsConversion(filePath)) { ... }]: the world
    after it and either the message of the error it throws or the value
    of [convertedFile]. *)
Definition convert_if_needed (svc : WhisperService) (filePath : string)
    (conv : ConvReply) (w : World) : World * (string + option string) :=
  if needsConversion filePath then
    match convertToWav svc filePath conv w with
    | (w1, Resolved out) => (w1, inr (Some out))
    | (w1, Rejected msg) => (w1, inl ("Failed to convert audio file: " +:+ msg))
    end
  else (w, inr None).

Definition recognition_args (svc : WhisperService) (modelPath audioPath outputBase : string)
    (options : TranscriptionOptions) : list string :=
  ["-m"; modelPath; "-f"; audioPath; "-oj"; "-of"; outputBase]
  ++ (match opt_language options with
      | Some l => if String.eqb l EmptyString then [] else ["-l"; l]
      | None => []
      end)
  ++ ["-t"; pretty (threads svc)].

(** The synchronous part of the promise executor: the recognition
    process is spawned and registered under [filePath]. *)
Definition spawn_recognition (svc : WhisperService) (filePath modelPath : string)
    (options : TranscriptionOptions) (convertedFile : option string) (w : World)
  : WhisperService * World * Job :=
  let audioPath := default filePath convertedFile in
  let outputBase := path_join (tempDir svc) ("whisper-" +:+ pretty (now w)) in
  let '(pid, w1) :=
    spawn (binaryPath svc) (recognition_args svc modelPath audioPath outputBase options) w in
  (set_active (<[filePath := pid]> (activeTranscriptions svc)) svc, w1,
   {| job_filePath := filePath; job_convertedFile := convertedFile;
      job_outputBase := outputBase;
      job_language := opt_language options; job_pid := pid |}).

(** [transcribe] up to the point where it waits for the recognition
    process: it throws ([inl]), or it has spawned the process ([inr]). *)
Definition transcribe_begin (svc : WhisperService) (filePath : string)
    (options : TranscriptionOptions) (conv : ConvReply) (w : World)
  : WhisperService * World * (string + Job) :=
  let modelName := or_else (opt_model options) "tiny" in
  let modelPath := getModelPath svc modelName in
  if negb (existsSync modelPath w) then
    (svc, w, inl ("Model " +:+ modelName +:+ " is not downloaded. Please download it first."))
  else if negb (existsSync filePath w) then
    (svc, w, inl ("File not found: " +:+ filePath))
  else
    match convert_if_needed svc filePath conv w with
    | (w1, inl msg) => (svc, w1, inl msg)
    | (w1, inr convertedFile) =>
        let '(svc1, w2, job) :=
          spawn_recognition svc filePath modelPath options convertedFile w1 in
        (svc1, w2, inr job)
    end.

(** The [cleanup] closure. *)
Definition cleanup (job : Job) (w : World) : World :=
  match job_convertedFile job with
  | Some convertedFile =>
      if existsSync convertedFile w then unlinkSync convertedFile w else w
  | None => w
  end.

(** The state of a running call: the service, the world, the closure
    variable [stderr], and the promise. *)
Record Running : Type := {
  r_svc : WhisperService;
  r_world : World;
  r_stderr : string;
  r_promise : option (Settled TranscriptionResult)
}.

(** [resolve] and [reject] act on a pending promise only. *)
Definition settle (o : Settled TranscriptionResult) (p : option (Settled TranscriptionResult))
  : option (Settled TranscriptionResult) :=
  match p with Some o' => Some o' | None => Some o end.

(** [whisperProcess.on('close', code => ...)] *)
Definition on_close (job : Job) (code : option Z) (r : Running) : Running :=
  let svc := set_active (delete (job_filePath job) (activeTranscriptions (r_svc r))) (r_svc r) in
  let w := cleanup job (r_world r) in
  if negb (bool_decide (code = Some 0%Z)) then
    {| r_svc := svc; r_world := w; r_stderr := r_stderr r;
       r_promise := settle (Rejected ("Transcription failed: " +:+
                      or_else (Some (r_stderr r)) "Unknown error")) (r_promise r) |}
  else
    let jsonPath := job_outputBase job +:+ ".json" in
    let txtPath := job_outputBase job +:+ ".txt" in
    match files w !! jsonPath with
    | Some jsonContent =>
        {| r_svc := svc; r_world := unlinkSync jsonPath w; r_stderr := r_stderr r;
           r_promise := settle (Resolved (parseWhisperOutput jsonContent)) (r_promise r) |}
    | None =>
        match files w !! txtPath with
        | Some content =>
            {| r_svc := svc; r_world := unlinkSync txtPath w; r_stderr := r_stderr r;
               r_promise := settle (Resolved {|
                   text := Js.trim content; segments := [];
                   language := or_else (job_language job) "auto";
                   duration := 0 |}) (r_promise r) |}
        | None =>
            {| r_svc := svc; r_world := w; r_stderr := r_stderr r;
               r_promise := settle (Resolved {|
                   text := no_output_text; segments := [];
                   language := or_else (job_language job) "unknown";
                   duration := 0 |}) (r_promise r) |}
        end
    end.

(** [whisperProcess.on('error', err => ...)] *)
Definition on_error (job : Job) (msg : string) (r : Running) : Running :=
  {| r_svc := set_active (delete (job_filePath job) (activeTranscriptions (r_svc r))) (r_svc r);
     r_world := cleanup job (r_world r);
     r_stderr := r_stderr r;
     r_promise := settle (Rejected ("Failed to start transcription: " +:+ msg)) (r_promise r) |}.

Definition with_world (w : World) (r : Running) : Running :=
  {| r_svc := r_svc r; r_world := w; r_stderr := r_stderr r; r_promise := r_promise r |}.

(** One event of the recognition process and the handler it fires. *)
Definition on_event (job : Job) (e : ProcEvent) (r : Running) : Running :=
  match e with
  | Stdout data =>
      match progressMatch data with
      | Some n => with_world (emit (OnProgress n) (r_world r)) r
      | None => r
      end
  | Stderr data =>
      {| r_svc := r_svc r; r_world := r_world r;
         r_stderr := r_stderr r +:+ data; r_promise := r_promise r |}
  | Writes path content =>
      with_world (set_files (<[path := content]> (files (r_world r))) (r_world r)) r
  | Close code => on_close job code r
  | Error msg => on_error job msg r
  end.

(** A whole call: the synchronous part, then the events of the process.
    A call that threw is rejected at once. *)
Definition transcribe (svc : WhisperService) (filePath : string)
    (options : TranscriptionOptions) (conv : ConvReply)
    (events : list ProcEvent) (w : World) : Running :=
  match transcribe_begin svc filePath options conv w with
  | (svc1, w1, inl msg) =>
      {| r_svc := svc1; r_world := w1; r_stderr := EmptyString;
         r_promise := Some (Rejected msg) |}
  | (svc1, w1, inr job) =>
      fold_left (fun r e => on_event job e r) events
        {| r_svc := svc1; r_world := w1; r_stderr := EmptyString; r_promise := None |}
  end.

Definition cancelTranscription (svc : WhisperService) (filePath : string) (w : World)
  : WhisperService * World * bool :=
  match activeTranscriptions svc !! filePath with
  | Some pid =>
      (set_active (delete filePath (activeTranscriptions svc)) svc,
       emit (Kill pid) w, true)
  | None => (svc, w, false)
  end.

(** The percent a process event makes [onProgress] receive, if any. *)
Definition forwarded (e : ProcEvent) : option Z :=
  match e with
  | Stdout data => progressMatch data
  | _ => None
  end.

(** The reading under which a second job for a busy file path is turned
    down: the call throws and leaves the registry as it was. *)
Definition refuses_second_job (svc : WhisperService) (filePath : string)
    (options : TranscriptionOptions) (conv : ConvReply) (w : World) : Prop :=
  is_Some (activeTranscriptions svc !! filePath) ->
  exists msg,
    transcribe_begin svc filePath options conv w = (svc, w, inl msg).

(** Events that settle the call. *)
Definition settles (e : ProcEvent) : bool :=
  match e with
  | Close _ | Error _ => true
  | _ => false
  end.

(** Events that are output of the process. *)
Definition is_output (e : ProcEvent) : bool :=
  match e with
  | Stdout _ | Stderr _ => true
  | _ => false
  end.
End WithEnvironment.

(** What the process wrote on stderr, in order. *)
Fixpoint stderr_of (events : list ProcEvent) : string :=
  match events with
  | [] => EmptyString
  | Stderr data :: rest => data +:+ stderr_of rest
  | _ :: rest => stderr_of rest
  end.

(** [WHISPER_MODELS], without the descriptions. *)
Record WhisperModel : Type := {
  name : string;
  size : string;
  sizeBytes : Q;
  ramRequired : Q
}.

Definition WHISPER_MODELS : list WhisperModel :=
  [ {| name := "tiny"; size := "75 MB"; sizeBytes := 75 * 1024 * 1024; ramRequired := 1 |};
    {| name := "tiny.en"; size := "75 MB"; sizeBytes := 75 * 1024 * 1024; ramRequired := 1 |};
    {| name := "base"; size := "142 MB"; sizeBytes := 142 * 1024 * 1024;
       ramRequired := 15 # 10 |};
    {| name := "base.en"; size := "142 MB"; sizeBytes := 142 * 1024 * 1024;
       ramRequired := 15 # 10 |};
    {| name := "small"; size := "466 MB"; sizeBytes := 466 * 1024 * 1024; ramRequired := 3 |};
    {| name := "small.en"; size := "466 MB"; sizeBytes := 466 * 1024 * 1024;
       ramRequired := 3 |};
    {| name := "medium"; size := "1.5 GB"; sizeBytes := (15 # 10) * 1024 * 1024 * 1024;
       ramRequired := 5 |};
    {| name := "medium.en"; size := "1.5 GB"; sizeBytes := (15 # 10) * 1024 * 1024 * 1024;
       ramRequired := 5 |};
    {| name := "large-v3"; size := "3.1 GB"; sizeBytes := (31 # 10) * 1024 * 1024 * 1024;
       ramRequired := 10 |} ].

(** A model of the catalog with the two flags [getAvailableModels] adds. *)
Record WhisperModelInfo : Type := {
  model : WhisperModel;
  downloaded : bool;
  recommended : bool
}.

Definition isModelRecommended (modelName : string) (availableRam : Q) : bool :=
  match List.find (fun m => String.eqb (name m) modelName) WHISPER_MODELS with
  | None => false
  | Some m => Js.le (ramRequired m) (availableRam * (4 # 10))
  end.

Definition getDownloadedModels (svc : WhisperService) (w : World) : list string :=
  if negb (existsSync_dir (modelsDir svc) w) then []
  else
    map (fun file => Js.remove_first ".bin" (Js.remove_first "ggml-" file))
      (List.filter (fun file => (Js.startsWith file "ggml-" && Js.endsWith file ".bin")%bool)
         (readdirSync (modelsDir svc) w)).

(** [getAvailableModels]; [totalMemoryGB] is [hardwareInfo.totalMemoryGB]. *)
Definition getAvailableModels (svc : WhisperService) (totalMemoryGB : Q) (w : World)
  : list WhisperModelInfo :=
  let downloadedModels := getDownloadedModels svc w in
  map (fun m => {| model := m;
                   downloaded := bool_decide (name m ∈ downloadedModels);
                   recommended := isModelRecommended (name m) totalMemoryGB |})
    WHISPER_MODELS.

(** [deleteModel] *)
Definition deleteModel (svc : WhisperService) (modelName : string) (w : World)
  : World * bool :=
  let modelPath := getModelPath svc modelName in
  if existsSync modelPath w then (unlinkSync modelPath w, true) else (w, false).

End Whisper.

(** ** [TTSService] and [VideoAnalyzerService]: the server facades

    The two classes carry the same fields and the same [startServer] /
    [stopServer]; they differ in the interpreter candidates, the script and
    the wording of messages. *)
Module Facade.

Inductive Service : Type := TTS | VideoAnalyzer.

(** The fields [serverProcess] and [isServerReady] of the service object. *)
Record Server : Type := {
  serverProcess : option nat;
  isServerReady : bool
}.

(** What a facade does to the outside: it spawns or kills a process, or
    settles the promise of the [startServer] call that spawned [call]. *)
Inductive ServerIO : Type :=
  | SpawnServer (pid : nat) (python script : string)
  | KillServer (pid : nat)
  | StartSettled (call : nat) (o : Settled bool).

Record Host : Type := {
  server : Server;
  log : list ServerIO;
  next : nat
}.

(** Where the application is installed. *)
Record Install : Type := {
  appDir : string;
  resourcesPath : string;
  pythonScriptPath : string
}.

Definition pythonPaths (svc : Service) (i : Install) : list string :=
  match svc with
  | TTS =>
      [ appDir i +:+ "/.venv-tts/bin/python3"; appDir i +:+ "/.venv-tts/bin/python";
        appDir i +:+ "/.venv/bin/python3"; appDir i +:+ "/.venv/bin/python";
        resourcesPath i +:+ "/python/venv/bin/python3";
        "/opt/homebrew/bin/python3.11"; "/usr/local/bin/python3.11";
        "/opt/homebrew/bin/python3"; "/usr/local/bin/python3"; "/usr/bin/python3";
        "python3"; "python" ]
  | VideoAnalyzer =>
      [ appDir i +:+ "/.venv/bin/python3"; appDir i +:+ "/.venv/bin/python";
        resourcesPath i +:+ "/python/venv/bin/python3";
        "/opt/homebrew/bin/python3"; "/usr/local/bin/python3"; "/usr/bin/python3";
        "python3"; "python" ]
  end.

Section WithProbe.
(** [probe p] is the output of [p --version] when [p] exists and runs,
    [None] when it does not exist or [execSync] throws. *)
Variable probe : string -> option string.

Fixpoint locatePython (candidates : list string) : string :=
  match candidates with
  | [] => "python3"
  | p :: rest =>
      match probe p with
      | Some result => if Js.includes result "Python 3" then p else locatePython rest
      | None => locatePython rest
      end
  end.

(** What a [startServer] call hands back at once: [true] from the guard,
    or a pending promise tied to the process it spawned. *)
Inductive Started : Type :=
  | AlreadyRunning
  | Pending (pid : nat).

Definition startServer (svc : Service) (i : Install) (h : Host) : Host * Started :=
  if (bool_decide (is_Some (serverProcess (server h))) && isServerReady (server h))%bool
  then (h, AlreadyRunning)
  else
    let pythonPath := locatePython (pythonPaths svc i) in
    let pid := next h in
    ({| server := {| serverProcess := Some pid;
                     isServerReady := isServerReady (server h) |};
        log := log h ++ [SpawnServer pid pythonPath (pythonScriptPath i)];
        next := Datatypes.S pid |},
     Pending pid).

Definition stopServer (h : Host) : Host :=
  match serverProcess (server h) with
  | Some pid =>
      {| server := {| serverProcess := None; isServerReady := false |};
         log := log h ++ [KillServer pid];
         next := next h |}
  | None => h
  end.

(** The closure of one pending [startServer] call. *)
Record StartCall : Type := {
  call_pid : nat;
  call_stdout : string;
  call_stderr : string
}.

Definition set_server (s : Server) (e : list ServerIO) (h : Host) : Host :=
  {| server := s; log := log h ++ e; next := next h |}.

Definition mark_ready (c : StartCall) (h : Host) : Host :=
  set_server {| serverProcess := serverProcess (server h); isServerReady := true |}
    [StartSettled (call_pid c) (Resolved true)] h.

(** [serverProcess.stdout.on('data', ...)]; only [TTSService] keeps the
    text. *)
Definition on_stdout (svc : Service) (output : string) (ch : StartCall * Host)
  : StartCall * Host :=
  let c := fst ch in
  let c1 :=
    match svc with
    | TTS => {| call_pid := call_pid c; call_stdout := call_stdout c +:+ output;
                call_stderr := call_stderr c |}
    | VideoAnalyzer => c
    end in
  (c1, if Js.includes output "Running on" then mark_ready c1 (snd ch) else snd ch).

(** [serverProcess.stderr.on('data', ...)] *)
Definition on_stderr (output : string) (ch : StartCall * Host) : StartCall * Host :=
  let c := fst ch in
  let c1 := {| call_pid := call_pid c; call_stdout := call_stdout c;
               call_stderr := call_stderr c +:+ output |} in
  (c1, if Js.includes output "Running on" then mark_ready c1 (snd ch) else snd ch).

Definition show_code (code : option Z) : string :=
  match code with Some n => pretty n | None => "null" end.

Definition close_message (svc : Service) (code : option Z) (c : StartCall) : string :=
  match svc with
  | TTS =>
      "TTS server failed to start (exit code " +:+ show_code code +:+ "): " +:+
      (if negb (String.eqb (call_stderr c) EmptyString) then call_stderr c
       else if negb (String.eqb (call_stdout c) EmptyString) then call_stdout c
       else "No output")
  | VideoAnalyzer => "Video Analyzer server failed to start: " +:+ call_stderr c
  end.

(** [serverProcess.on('close', code => ...)]: the flag was cleared just
    before it is tested, so the rejection always runs. *)
Definition on_close (svc : Service) (code : option Z) (ch : StartCall * Host)
  : StartCall * Host :=
  (fst ch,
   set_server {| serverProcess := None; isServerReady := false |}
     [StartSettled (call_pid (fst ch)) (Rejected (close_message svc code (fst ch)))]
     (snd ch)).

(** [serverProcess.on('error', err => ...)] *)
Definition on_error (msg : string) (ch : StartCall * Host) : StartCall * Host :=
  (fst ch,
   set_server {| serverProcess := serverProcess (server (snd ch)); isServerReady := false |}
     [StartSettled (call_pid (fst ch)) (Rejected msg)] (snd ch)).

Definition timeout_message (svc : Service) : string :=
  match svc with
  | TTS => "TTS server startup timeout"
  | VideoAnalyzer => "Video Analyzer server startup timeout"
  end.

(** The 30000 ms timer of a call. *)
Definition on_timeout (svc : Service) (ch : StartCall * Host) : StartCall * Host :=
  if isServerReady (server (snd ch)) then ch
  else
    (fst ch,
     set_server (server (stopServer (snd ch)))
       [StartSettled (call_pid (fst ch)) (Rejected (timeout_message svc))]
       (stopServer (snd ch))).

(** The processes spawned so far. *)
Fixpoint spawned (tr : list ServerIO) : list nat :=
  match tr with
  | [] => []
  | SpawnServer pid _ _ :: tr' => pid :: spawned tr'
  | _ :: tr' => spawned tr'
  end.
End WithProbe.

(** What the process of a pending call and the timer of the call do, in
    order of arrival. *)
Inductive ServerEvent : Type :=
  | ServerStdout (output : string)
  | ServerStderr (output : string)
  | ServerClose (code : option Z)
  | ServerError (msg : string)
  | TimerFires.

Definition on_server_event (svc : Service) (e : ServerEvent) (ch : StartCall * Host)
  : StartCall * Host :=
  match e with
  | ServerStdout output => on_stdout svc output ch
  | ServerStderr output => on_stderr output ch
  | ServerClose code => on_close svc code ch
  | ServerError msg => on_error msg ch
  | TimerFires => on_timeout svc ch
  end.

(** The closure of a call at the moment it spawned its process. *)
Definition new_call (pid : nat) : StartCall :=
  {| call_pid := pid; call_stdout := EmptyString; call_stderr := EmptyString |}.

Definition run_call (svc : Service) (events : list ServerEvent) (ch : StartCall * Host)
  : StartCall * Host :=
  fold_left (fun ch e => on_server_event svc e ch) events ch.

(** Output chunks, and those that carry the ready message. *)
Definition is_chunk (e : ServerEvent) : bool :=
  match e with
  | ServerStdout _ | ServerStderr _ => true
  | _ => false
  end.

Definition announces (e : ServerEvent) : bool :=
  match e with
  | ServerStdout output | ServerStderr output => Js.includes output "Running on"
  | _ => false
  end.

(** The state of the promise of the call that spawned [call]: the first
    [resolve] or [reject] counts. *)
Fixpoint call_outcome (call : nat) (tr : list ServerIO) : option (Settled bool) :=
  match tr with
  | [] => None
  | StartSettled c o :: tr' => if Nat.eqb c call then Some o else call_outcome call tr'
  | _ :: tr' => call_outcome call tr'
  end.

(** A candidate that exists and answers [--version] with a Python 3. *)
Definition usable (probe : string -> option string) (p : string) : bool :=
  match probe p with
  | Some result => Js.includes result "Python 3"
  | None => false
  end.

(** A fresh service object. *)
Definition fresh : Host :=
  {| server := {| serverProcess := None; isServerReady := false |}; log := []; next := 0 |}.

(** A start is in flight: the handle is set and the ready flag is not. *)
Definition in_flight (h : Host) : Prop :=
  is_Some (serverProcess (server h)) /\ isServerReady (server h) = false.

(** The reading under which a start in flight is reused: a second call
    right after the first, before any event of the process, leaves a single
    spawned process. *)
Definition second_call_reuses (probe : string -> option string) (svc : Service)
    (i : Install) : Prop :=
  let h1 := fst (startServer probe svc i fresh) in
  let h2 := fst (startServer probe svc i h1) in
  in_flight h1 -> length (spawned (log h2)) = 1%nat.

End Facade.

(** ** [HardwareDetector]: the model recommendation *)
Module Hardware.

Record Recommendation : Type := {
  recommendedModel : string;
  canRunLargeModels : bool
}.

Definition getModelRecommendation (totalMemoryGB : Q)
    (hasMetalSupport hasCudaSupport : bool) : Recommendation :=
  let hasAcceleration := (hasMetalSupport || hasCudaSupport)%bool in
  let effectiveMemory :=
    (if hasAcceleration then totalMemoryGB * (12 # 10) else totalMemoryGB)%Q in
  if Js.lt effectiveMemory 4 then
    {| recommendedModel := "tiny"; canRunLargeModels := false |}
  else if Js.lt effectiveMemory 8 then
    {| recommendedModel := "base"; canRunLargeModels := false |}
  else if Js.lt effectiveMemory 16 then
    {| recommendedModel := "small"; canRunLargeModels := false |}
  else if Js.lt effectiveMemory 32 then
    {| recommendedModel := "medium"; canRunLargeModels := true |}
  else
    {| recommendedModel := "large-v3"; canRunLargeModels := true |}.

Definition low_memory_warning : string :=
  "Your system has less than 8GB RAM. You can only use the tiny and base Whisper models. For better accuracy, consider upgrading to 8GB+ RAM.".

Definition low_available_warning : string :=
  "Low available memory detected. Close some applications before running transcription to avoid performance issues.".

Definition architecture_warning : string :=
  "Non-x64 Windows architecture detected. Some features may not work correctly.".

Definition generateWarnings (totalMemoryGB availableMemoryGB : Q) (platform arch : string)
  : list string :=
  (if Js.lt totalMemoryGB 8 then [low_memory_warning] else [])
  ++ (if Js.lt availableMemoryGB 2 then [low_available_warning] else [])
  ++ (if (String.eqb platform "win32" && negb (String.eqb arch "x64"))%bool
      then [architecture_warning] else []).

Definition isAppleSilicon (cpuModel : string) : bool :=
  (Js.includes (Js.toLowerCase cpuModel) "apple"
   || Js.includes (Js.toLowerCase cpuModel) "m1"
   || Js.includes (Js.toLowerCase cpuModel) "m2"
   || Js.includes (Js.toLowerCase cpuModel) "m3"
   || Js.includes (Js.toLowerCase cpuModel) "m4")%bool.

(** [hasMetalSupport] as [detect] computes it. *)
Definition hasMetalSupport (platform arch cpuModel : string) : bool :=
  (String.eqb platform "darwin"
   && (String.eqb arch "arm64" || isAppleSilicon cpuModel))%bool.

(** The models [getModelRecommendation] chooses from, smallest first. *)
Definition ladder : list string := ["tiny"; "base"; "small"; "medium"; "large-v3"].

(** The place of a model on the ladder. *)
Definition rank (modelName : string) : nat :=
  match list_find (String.eqb modelName) ladder with
  | Some (i, _) => i
  | None => length ladder
  end.

End Hardware.

(** ** [VideoAnalyzerService]: the scores of [analyzeVideo] *)
Module Analyzer.

Record TechnicalScore : Type := {
  resolution : Q;
  aspect_ratio : Q;
  lighting : Q;
  blur : Q;
  fps : Q;
  technical_overall : Q
}.

Record HookScore : Type := {
  first_3_seconds : Q;
  movement : Q;
  face_detected : bool;
  scene_changes : Q;
  hook_overall : Q
}.

Record AudioScore : Type := {
  levels : Q;
  clarity : Q;
  has_audio : bool;
  is_silent : bool;
  audio_overall : Q
}.

Record ContentScore : Type := {
  has_captions : bool;
  has_faces : bool;
  pacing : Q;
  no_watermarks : bool;
  scene_count : Q;
  duration_optimal : bool;
  content_overall : Q
}.

(** [TikTokScoreResult]; the optional [details] objects and [videoInfo]
    pass through untouched and are left out. *)
Record TikTokScoreResult : Type := {
  overallScore : Q;
  technical : TechnicalScore;
  hook : HookScore;
  audio : AudioScore;
  content : ContentScore;
  recommendations : list string
}.

(** What [makeRequest] comes back with: a rejection (network error,
    timeout, body that is no JSON), or the parsed body, taken to have the
    declared shape: [success], and [result] and [error] when present. *)
Inductive Reply : Type :=
  | RequestFailed (msg : string)
  | Answered (success : bool) (result : option TikTokScoreResult) (error : option string).

Inductive AnalyzerIO : Type :=
  | Post (endpoint videoPath : string) (timeout : Z)
  | Progress (percent : Z).

(** The assignments to the four [overall] fields. *)
Definition rescore (result : TikTokScoreResult) : TikTokScoreResult :=
  let t := technical result in
  let h := hook result in
  let a := audio result in
  let c := content result in
  let contentOverall :=
    (pacing c
     + (if has_captions c then 15 else 0)
     + (if has_faces c then 10 else 0)
     - (if negb (no_watermarks c) then 30 else 0)
     + (if duration_optimal c then 5 else 0))%Q in
  {| overallScore := overallScore result;
     technical :=
       {| resolution := resolution t; aspect_ratio := aspect_ratio t;
          lighting := lighting t; blur := blur t; fps := fps t;
          technical_overall :=
            inject_Z (Js.Math_round
              ((resolution t + aspect_ratio t + lighting t + blur t + fps t) / 5)) |};
     hook :=
       {| first_3_seconds := first_3_seconds h; movement := movement h;
          face_detected := face_detected h; scene_changes := scene_changes h;
          hook_overall :=
            inject_Z (Js.Math_round
              ((first_3_seconds h + movement h) / 2
               + (if face_detected h then 10 else 0))) |};
     audio :=
       {| levels := levels a; clarity := clarity a;
          has_audio := has_audio a; is_silent := is_silent a;
          audio_overall :=
            if (negb (has_audio a) || is_silent a)%bool then 30
            else inject_Z (Js.Math_round ((levels a + clarity a) / 2)) |};
     content :=
       {| has_captions := has_captions c; has_faces := has_faces c;
          pacing := pacing c; no_watermarks := no_watermarks c;
          scene_count := scene_count c; duration_optimal := duration_optimal c;
          content_overall := Js.Math_max 0 (Js.Math_min 100 contentOverall) |};
     recommendations := recommendations result |}.

(** A result with other category scores. *)
Definition with_overalls (t h a c : Q) (result : TikTokScoreResult) : TikTokScoreResult :=
  {| overallScore := overallScore result;
     technical :=
       {| resolution := resolution (technical result);
          aspect_ratio := aspect_ratio (technical result);
          lighting := lighting (technical result); blur := blur (technical result);
          fps := fps (technical result); technical_overall := t |};
     hook :=
       {| first_3_seconds := first_3_seconds (hook result);
          movement := movement (hook result);
          face_detected := face_detected (hook result);
          scene_changes := scene_changes (hook result); hook_overall := h |};
     audio :=
       {| levels := levels (audio result); clarity := clarity (audio result);
          has_audio := has_audio (audio result); is_silent := is_silent (audio result);
          audio_overall := a |};
     content :=
       {| has_captions := has_captions (content result);
          has_faces := has_faces (content result); pacing := pacing (content result);
          no_watermarks := no_watermarks (content result);
          scene_count := scene_count (content result);
          duration_optimal := duration_optimal (content result); content_overall := c |};
     recommendations := recommendations result |}.

(** [analyzeVideo]: what it sends and reports, and how its promise
    settles. [onProgress] is taken as supplied. *)
Definition analyzeVideo (s : Facade.Server) (videoPath : string) (reply : Reply)
    (w : World) : list AnalyzerIO * Settled TikTokScoreResult :=
  if negb (Facade.isServerReady s) then
    ([], Rejected "Video Analyzer server not running. Start the server first.")
  else if negb (existsSync videoPath w) then
    ([], Rejected ("Video file not found: " +:+ videoPath))
  else
    let sent := [Post "/analyze" videoPath 120000] in
    match reply with
    | RequestFailed msg => (sent, Rejected msg)
    | Answered success result error =>
        match success, result with
        | true, Some r => (sent ++ [Progress 100], Resolved (rescore r))
        | _, _ => (sent, Rejected (Whisper.or_else error "Analysis failed"))
        end
    end.

(** [formatDuration]: [seconds] is a double. The quotient is rounded to
    a double before [Math.floor]; [%] is exact. An integer prints in
    decimal digits as long as it is below 10^21. *)
Definition formatDuration (seconds : Q) : string :=
  let mins := Qfloor (Js.double (seconds / 60)) in
  let secs := Js.Math_round (Js.remainder seconds 60) in
  pretty mins +:+ ":" +:+ Js.padStart2 (pretty secs).

End Analyzer.

(** ** A reader for flat JSON objects

    [JSON.parse] is a parameter of the streaming client above. The worked
    examples below need an actual reader; this one covers the objects that
    occur in them: one level, with string keys and values that are strings
    without escapes, integers, booleans or [null]. On such text it returns
    the members [JSON.parse] finds. It rejects all other text, also JSON
    outside this fragment; the examples stay inside it or use text that is
    no JSON at all. *)
Module Json.

Inductive Value : Type :=
  | Null
  | Bool (b : bool)
  | Number (n : Z)
  | Str (s : string).

Definition quote : ascii := "034"%char.
Definition backslash : ascii := "092"%char.

Definition isSpace (c : ascii) : bool :=
  let n := nat_of_ascii c in
  (Nat.eqb n 32 || Nat.eqb n 9 || Nat.eqb n 10 || Nat.eqb n 13)%bool.

Fixpoint skip (s : string) : string :=
  match s with
  | String c s' => if isSpace c then skip s' else s
  | EmptyString => s
  end.

(** The characters of a string up to its closing quote. *)
Fixpoint read_string (s : string) : option (string * string) :=
  match s with
  | EmptyString => None
  | String c s' =>
      if Ascii.eqb c quote then Some (EmptyString, s')
      else if (Ascii.eqb c backslash || Nat.ltb (nat_of_ascii c) 32)%bool then None
      else match read_string s' with
           | Some (a, r) => Some (String c a, r)
           | None => None
           end
  end.

Definition after (n : nat) (s : string) : string :=
  String.substring n (String.length s - n) s.

Definition read_number (s : string) : option (Value * string) :=
  let '(neg, s1) :=
    match s with
    | String "-"%char r => (true, r)
    | _ => (false, s)
    end in
  match s1 with
  | String c r =>
      if Js.isDigit c then
        if (Ascii.eqb c "0"%char && Js.startsWithDigit r)%bool then None
        else
          let '(n, rest) := Js.digits s1 0 in
          match rest with
          | String "."%char _ | String "e"%char _ | String "E"%char _ => None
          | _ => Some (Number (if neg then - n else n)%Z, rest)
          end
      else None
  | EmptyString => None
  end.

Definition read_value (s : string) : option (Value * string) :=
  match s with
  | String c s' =>
      if Ascii.eqb c quote then
        match read_string s' with
        | Some (a, r) => Some (Str a, r)
        | None => None
        end
      else if String.prefix "true" s then Some (Bool true, after 4 s)
      else if String.prefix "false" s then Some (Bool false, after 5 s)
      else if String.prefix "null" s then Some (Null, after 4 s)
      else read_number s
  | EmptyString => None
  end.

(** [key : value], white space around both. *)
Definition read_member (s : string) : option ((string * Value) * string) :=
  match skip s with
  | String c s1 =>
      if Ascii.eqb c quote then
        match read_string s1 with
        | Some (key, s2) =>
            match skip s2 with
            | String ":"%char s3 =>
                match read_value (skip s3) with
                | Some (v, s4) => Some ((key, v), skip s4)
                | None => None
                end
            | _ => None
            end
        | None => None
        end
      else None
  | EmptyString => None
  end.

(** What follows a member: a comma and more members, or the brace. *)
Fixpoint read_more (fuel : nat) (s : string) : option (list (string * Value) * string) :=
  match fuel with
  | O => None
  | Datatypes.S fuel' =>
      match s with
      | String "}"%char rest => Some ([], rest)
      | String ","%char rest =>
          match read_member rest with
          | Some (m, s1) =>
              match read_more fuel' s1 with
              | Some (ms, s2) => Some (m :: ms, s2)
              | None => None
              end
          | None => None
          end
      | _ => None
      end
  end.

Definition parse (s : string) : option (list (string * Value)) :=
  match skip s with
  | String "{"%char s1 =>
      match
        match skip s1 with
        | String "}"%char rest => Some ([], rest)
        | _ =>
            match read_member s1 with
            | Some (m, s2) =>
                match read_more (String.length s2) s2 with
                | Some (ms, rest) => Some (m :: ms, rest)
                | None => None
                end
            | None => None
            end
        end
      with
      | Some (members, rest) =>
          if String.eqb (skip rest) EmptyString then Some members else None
      | None => None
      end
  | _ => None
  end.

(** [obj[key]]: the last member of that name wins. *)
Fixpoint get (key : string) (members : list (string * Value)) : option Value :=
  match members with
  | [] => None
  | (k, v) :: rest =>
      match get key rest with
      | Some v' => Some v'
      | None => if String.eqb k key then Some v else None
      end
  end.

Definition text_of (v : option Value) : string :=
  match v with Some (Str s) => s | _ => EmptyString end.

Definition truthy (v : option Value) : bool :=
  match v with
  | Some (Bool b) => b
  | Some (Number n) => negb (n =? 0)%Z
  | Some (Str s) => negb (String.eqb s EmptyString)
  | Some Null | None => false
  end.

Definition number_of (v : option Value) : option Z :=
  match v with Some (Number n) => Some n | _ => None end.

Definition parse_generate (line : string) : option Ollama.OllamaGenerateResponse :=
  match parse line with
  | Some o =>
      Some {| Ollama.response := text_of (get "response" o);
              Ollama.done := truthy (get "done" o);
              Ollama.error := match get "error" o with
                              | Some (Str e) => Some e
                              | _ => None
                              end |}
  | None => None
  end.

Definition parse_pull (line : string) : option Ollama.PullData :=
  match parse line with
  | Some o =>
      Some {| Ollama.status := text_of (get "status" o);
              Ollama.completed := number_of (get "completed" o);
              Ollama.total := number_of (get "total" o);
              Ollama.pull_error := text_of (get "error" o) |}
  | None => None
  end.

(** Writing objects, for the examples. *)
Definition q (s : string) : string :=
  String quote EmptyString +:+ s +:+ String quote EmptyString.

Definition show (v : Value) : string :=
  match v with
  | Null => "null"
  | Bool true => "true"
  | Bool false => "false"
  | Number n => pretty n
  | Str s => q s
  end.

Fixpoint show_members (ms : list (string * Value)) : string :=
  match ms with
  | [] => EmptyString
  | [(k, v)] => q k +:+ ":" +:+ show v
  | (k, v) :: rest => q k +:+ ":" +:+ show v +:+ "," +:+ show_members rest
  end.

(** One line of a stream: the object and a line feed. *)
Definition line (ms : list (string * Value)) : string :=
  "{" +:+ show_members ms +:+ "}" +:+ String Js.LF EmptyString.

End Json.

(** ** Worked inputs *)
Module Samples.

(** One data event carrying a line that says [done] and one more line. *)
Definition done_then_more : list string :=
  [ Json.line [("response", Json.Str "a"); ("done", Json.Bool true)]
    +:+ Json.line [("response", Json.Str "b")] ].

(** Two well-formed lines around a corrupt one; the first line arrives in
    two pieces and the stream ends on an unterminated rest. *)
Definition corrupt_line_between : list string :=
  [ "{" +:+ Json.q "response" +:+ ":";
    Json.q "Hello" +:+ "}" +:+ String Js.LF EmptyString
      +:+ "{not json" +:+ String Js.LF EmptyString
      +:+ Json.line [("response", Json.Str " world")]
      +:+ "{" +:+ Json.q "resp" ].

(** A pull stream that reports progress and ends on a broken line. *)
Definition quiet_pull : list string :=
  [ Json.line [("status", Json.Str "pulling manifest")];
    Json.line [("status", Json.Str "downloading"); ("completed", Json.Number 5);
               ("total", Json.Number 10)];
    "{" +:+ Json.q "status" ].

Definition svc : Whisper.WhisperService :=
  {| Whisper.modelsDir := "/models"; Whisper.binaryPath := "whisper-cli";
     Whisper.tempDir := "/tmp"; Whisper.cpuCores := 8;
     Whisper.activeTranscriptions := ∅ |}.

Definition empty_world : World :=
  {| files := ∅; io := []; next_pid := 0; now := 1700000000000 |}.

Definition tiny_url : string :=
  "https://huggingface.co/ggerganov/whisper.cpp/resolve/main/ggml-tiny.bin".

(** The catalog URL of [tiny] redirects to a mirror that answers 404. *)
Definition net_redirect_404 (url : PropValue) : HttpReply :=
  match url with
  | JsString u =>
      if String.eqb u tiny_url
      then Response 302 (Some "https://cdn.example/ggml-tiny.bin") None []
      else Response 404 None None []
  | _ => NoReply
  end.

(** A file name without a supported extension, next to a model. *)
Definition studio : World :=
  {| files := <["/models/ggml-tiny.bin" := "ggml"]>
                (<["/media/talk.m4a" := "aac"]> (<["/media/talk.mp3" := "mp3"]> ∅));
     io := []; next_pid := 0; now := 1700000000000 |}.

Definition no_options : Whisper.TranscriptionOptions :=
  {| Whisper.opt_model := None; Whisper.opt_language := None |}.

(** [ffmpeg] exits with 0 and has written the output file. *)
Definition converted : Whisper.ConvReply :=
  Whisper.ConvClose (Some 0%Z) (Some "wav") EmptyString.

(** The catch branch of [parseWhisperOutput]: the raw text. None of the
    runs below reads a JSON output file. *)
Definition raw_output (output : string) : Whisper.TranscriptionResult :=
  {| Whisper.text := Js.trim output; Whisper.segments := [];
     Whisper.language := "unknown"; Whisper.duration := 0 |}.

(** No candidate path of [ffmpeg] runs. *)
Definition nothing_runs (p : string) : bool := false.

(** A first transcription of [/media/talk.mp3] has been started: it runs
    as process 0 and is registered under the file path. *)
Definition first_call : Whisper.WhisperService * World * (string + Whisper.Job) :=
  Whisper.transcribe_begin nothing_runs svc "/media/talk.mp3" no_options converted studio.

Definition busy_svc : Whisper.WhisperService := fst (fst first_call).

(** The world half a second later. *)
Definition busy_studio : World :=
  {| files := files (snd (fst first_call)); io := io (snd (fst first_call));
     next_pid := next_pid (snd (fst first_call)); now := 1700000000500 |}.

(** The recognition process prints a lower percent after a higher one. *)
Definition falling_progress : list Whisper.ProcEvent :=
  [ Whisper.Stdout "whisper_print_progress_callback: progress = 50%";
    Whisper.Stdout "whisper_print_progress_callback: progress = 10%";
    Whisper.Close (Some 0%Z) ].

(** A development checkout with a system Python 3. *)
Definition install : Facade.Install :=
  {| Facade.appDir := "/app"; Facade.resourcesPath := "/app/resources";
     Facade.pythonScriptPath := "/app/electron/python/server.py" |}.

Definition system_python (p : string) : option string :=
  if String.eqb p "/usr/bin/python3" then Some "Python 3.11.4" else None.

(** [n] bytes. *)
Fixpoint bytes (n : nat) : string :=
  match n with
  | O => EmptyString
  | Datatypes.S n' => String "x"%char (bytes n')
  end.

(** The catalog URL of [tiny] answers 200 with [Content-Length: 1000] and
    two chunks of 500 bytes. *)
Definition net_two_chunks (url : PropValue) : HttpReply :=
  Response 200 None (Some "1000") [bytes 500; bytes 500].

(** The catalog URL of [tiny] answers 200 with [Content-Length: 200], a
    chunk of 29 bytes and one of 171. *)
Definition net_29_of_200 (url : PropValue) : HttpReply :=
  Response 200 None (Some "200") [bytes 29; bytes 171].

(** The closure of [first_call]. *)
Definition mp3_job : Whisper.Job :=
  {| Whisper.job_filePath := "/media/talk.mp3";
     Whisper.job_convertedFile := None;
     Whisper.job_outputBase := "/tmp/whisper-1700000000000";
     Whisper.job_language := None;
     Whisper.job_pid := 0 |}.

(** A second transcription of the same file, started while the first one
    runs, and its state once its process is spawned. *)
Definition second_call : Whisper.WhisperService * World * (string + Whisper.Job) :=
  Whisper.transcribe_begin nothing_runs busy_svc "/media/talk.mp3" no_options converted
    busy_studio.

Definition second_job : Whisper.Job :=
  {| Whisper.job_filePath := "/media/talk.mp3";
     Whisper.job_convertedFile := None;
     Whisper.job_outputBase := "/tmp/whisper-1700000000500";
     Whisper.job_language := None;
     Whisper.job_pid := 1 |}.

Definition second_running : Whisper.Running :=
  {| Whisper.r_svc := fst (fst second_call); Whisper.r_world := snd (fst second_call);
     Whisper.r_stderr := EmptyString; Whisper.r_promise := None |}.

(** The TTS service after one [startServer], and after a second one made
    before the first server said anything. *)
Definition started : Facade.Host :=
  fst (Facade.startServer system_python Facade.TTS install Facade.fresh).

Definition started_twice : Facade.Host :=
  fst (Facade.startServer system_python Facade.TTS install started).

(** Flask announces itself on stderr; here in one chunk, and cut in two. *)
Definition flask_ready : list Facade.ServerEvent :=
  [ Facade.ServerStderr " * Serving Flask app";
    Facade.ServerStderr " * Running on http://127.0.0.1:5123" ].

Definition flask_ready_cut : list Facade.ServerEvent :=
  [ Facade.ServerStderr " * Runn"; Facade.ServerStderr "ing on http://127.0.0.1:5123" ].

(** Every request is answered with a 404. *)
Definition net_404 (url : PropValue) : HttpReply := Response 404 None None [].

(** A video next to the model, a ready analyzer and an answer of its
    server; the category scores of the server are all 0. *)
Definition desk : World :=
  {| files := <["/media/clip.mp4" := "mp4"]> (files studio);
     io := []; next_pid := 0; now := 1700000000000 |}.

Definition ready_server : Facade.Server :=
  {| Facade.serverProcess := Some 0%nat; Facade.isServerReady := true |}.

Definition clip_scores : Analyzer.TikTokScoreResult :=
  {| Analyzer.overallScore := 72;
     Analyzer.technical :=
       {| Analyzer.resolution := 100; Analyzer.aspect_ratio := 100;
          Analyzer.lighting := 70; Analyzer.blur := 85; Analyzer.fps := 100;
          Analyzer.technical_overall := 0 |};
     Analyzer.hook :=
       {| Analyzer.first_3_seconds := 100; Analyzer.movement := 100;
          Analyzer.face_detected := true; Analyzer.scene_changes := 2;
          Analyzer.hook_overall := 0 |};
     Analyzer.audio :=
       {| Analyzer.levels := 60; Analyzer.clarity := 75;
          Analyzer.has_audio := true; Analyzer.is_silent := false;
          Analyzer.audio_overall := 0 |};
     Analyzer.content :=
       {| Analyzer.has_captions := true; Analyzer.has_faces := true;
          Analyzer.pacing := 90; Analyzer.no_watermarks := true;
          Analyzer.scene_count := 4; Analyzer.duration_optimal := true;
          Analyzer.content_overall := 0 |};
     Analyzer.recommendations := [] |}.

Definition clip_reply : Analyzer.Reply :=
  Analyzer.Answered true (Some clip_scores) None.

(** An answer of the language model: a tag with a stray word, an indented
    tag, a line without a tag and a last tag. *)
Definition hashtag_text : string :=
  "#fit ness" +:+ String Js.LF ("  #gym" +:+ String Js.LF
    ("no tag here" +:+ String Js.LF "#run")).

End Samples.

(** * Properties *)

(** ** Splitting a stream into lines *)

Lemma split_LF_not_nil (s : string) : Js.split_LF s <> [].
Proof.
  destruct s as [|c s]; simpl; [discriminate|].
  destruct (Ascii.eqb c Js.LF); [discriminate|].
  destruct (Js.split_LF s); discriminate.
Qed.

(** Splitting a concatenation: the complete lines of the first part stay,
    its unterminated rest is glued to the second part. *)
Lemma split_LF_app (a b : string) :
  Js.split_LF (a +:+ b)
  = removelast (Js.split_LF a) ++ Js.split_LF (List.last (Js.split_LF a) EmptyString +:+ b).
Proof.
  induction a as [|c a IH]; [reflexivity|].
  change (String c a +:+ b) with (String c (a +:+ b)).
  cbn [Js.split_LF].
  destruct (Ascii.eqb c Js.LF) eqn:Hc.
  - rewrite IH.
    pose proof (split_LF_not_nil a) as Hne.
    destruct (Js.split_LF a) as [|p ps]; [congruence|]. reflexivity.
  - rewrite IH.
    pose proof (split_LF_not_nil a) as Hne.
    destruct (Js.split_LF a) as [|p ps]; [congruence|].
    destruct ps as [|x xs].
    + cbn [removelast List.last app].
      change (String c p +:+ b) with (String c (p +:+ b)).
      cbn [Js.split_LF]. rewrite Hc. reflexivity.
    + cbn [removelast List.last app].
      reflexivity.
Qed.

Lemma last_app_not_nil {A : Type} (l1 l2 : list A) (d : A) :
  l2 <> [] -> List.last (l1 ++ l2) d = List.last l2 d.
Proof.
  intros Hne. rewrite (app_removelast_last d Hne), app_assoc.
  now rewrite !last_last.
Qed.

Lemma complete_lines_app (a b : string) :
  Js.complete_lines (a +:+ b)
  = Js.complete_lines a ++ Js.complete_lines (Js.partial_line a +:+ b).
Proof.
  unfold Js.complete_lines, Js.partial_line. rewrite split_LF_app.
  apply removelast_app, split_LF_not_nil.
Qed.

Lemma partial_line_app (a b : string) :
  Js.partial_line (a +:+ b) = Js.partial_line (Js.partial_line a +:+ b).
Proof.
  unfold Js.partial_line. rewrite split_LF_app.
  apply last_app_not_nil, split_LF_not_nil.
Qed.

Lemma string_app_nil_r (s : string) : s +:+ EmptyString = s.
Proof.
  induction s as [|c s IH]; [reflexivity|].
  change (String c (s +:+ EmptyString) = String c s). now rewrite IH.
Qed.

Lemma string_app_assoc (a b c : string) : (a +:+ b) +:+ c = a +:+ (b +:+ c).
Proof.
  induction a as [|x a IH]; [reflexivity|].
  change (String x ((a +:+ b) +:+ c) = String x (a +:+ (b +:+ c))). now rewrite IH.
Qed.

Lemma complete_lines_partial (s : string) :
  Js.complete_lines (Js.partial_line s) = [].
Proof.
  pose proof (complete_lines_app s EmptyString) as H.
  rewrite !string_app_nil_r in H.
  assert (Js.complete_lines s ++ []
          = Js.complete_lines s ++ Js.complete_lines (Js.partial_line s)) as H'
    by (rewrite app_nil_r; exact H).
  apply app_inv_head in H'. now symmetry.
Qed.

Lemma partial_line_idem (s : string) :
  Js.partial_line (Js.partial_line s) = Js.partial_line s.
Proof.
  pose proof (partial_line_app s EmptyString) as H.
  rewrite !string_app_nil_r in H. congruence.
Qed.

(** ** The line loop over a chunked stream *)
Section LineLoopFacts.
Context {S : Type}.
Variable body : string -> S -> S * bool.

Lemma for_lines_app (l1 l2 : list string) (st : S) :
  for_lines body (l1 ++ l2) st
  = if snd (for_lines body l1 st) then (fst (for_lines body l1 st), true)
    else for_lines body l2 (fst (for_lines body l1 st)).
Proof.
  revert st. induction l1 as [|l l1 IH]; intros st; [reflexivity|].
  cbn [app for_lines]. destruct (body l st) as [st' r].
  destruct r; [reflexivity|]. apply IH.
Qed.

Lemma feed_cons (c : string) (cs : list string) (bs : string * S) :
  feed body (c :: cs) bs = feed body cs (on_data body c bs).
Proof. reflexivity. Qed.

Lemma join_cons (c : string) (cs : list string) :
  Js.join (c :: cs) = c +:+ Js.join cs.
Proof. reflexivity. Qed.

(** The unterminated rest never depends on what the loop did. *)
Lemma feed_buffer (chunks : list string) (s0 : string) (st : S) :
  fst (feed body chunks (Js.partial_line s0, st))
  = Js.partial_line (s0 +:+ Js.join chunks).
Proof.
  revert s0 st. induction chunks as [|c cs IH]; intros s0 st.
  - cbn. now rewrite string_app_nil_r.
  - rewrite feed_cons, join_cons. unfold on_data. cbn [fst snd].
    rewrite <- partial_line_app, IH. now rewrite string_app_assoc.
Qed.

(** As long as the body never returns, the chunks are handled as the
    lines of their concatenation. *)
Lemma feed_no_return (chunks : list string) (s0 : string) (st : S) :
  snd (for_lines body (Js.complete_lines (Js.partial_line s0 +:+ Js.join chunks)) st) = false ->
  snd (feed body chunks (Js.partial_line s0, st))
  = fst (for_lines body (Js.complete_lines (Js.partial_line s0 +:+ Js.join chunks)) st).
Proof.
  revert s0 st. induction chunks as [|c cs IH]; intros s0 st.
  - cbn [Js.join fold_right]. rewrite string_app_nil_r, complete_lines_partial. reflexivity.
  - rewrite feed_cons, join_cons. unfold on_data. cbn [fst snd].
    rewrite <- string_app_assoc, complete_lines_app, for_lines_app.
    destruct (snd (for_lines body (Js.complete_lines (Js.partial_line s0 +:+ c)) st)) eqn:Hr;
      [discriminate|].
    intros Hno. now apply IH.
Qed.

(** When the body returns on some line, the handlers still ran the loop
    up to that point; what they saw afterwards is some further feeding. *)
Lemma feed_return (chunks : list string) (s0 : string) (st : S) :
  snd (for_lines body (Js.complete_lines (Js.partial_line s0 +:+ Js.join chunks)) st) = true ->
  exists chunks' b',
    snd (feed body chunks (Js.partial_line s0, st))
    = snd (feed body chunks' (b',
             fst (for_lines body (Js.complete_lines (Js.partial_line s0 +:+ Js.join chunks)) st))).
Proof.
  revert s0 st. induction chunks as [|c cs IH]; intros s0 st.
  - cbn [Js.join fold_right]. rewrite string_app_nil_r, complete_lines_partial. discriminate.
  - rewrite feed_cons, join_cons. unfold on_data. cbn [fst snd].
    rewrite <- string_app_assoc, complete_lines_app, for_lines_app.
    destruct (snd (for_lines body (Js.complete_lines (Js.partial_line s0 +:+ c)) st)) eqn:Hr.
    + intros _. cbn [fst]. eauto.
    + intros Hret. now apply IH.
Qed.

(** From an empty buffer. *)
Lemma feed_buffer0 (chunks : list string) (st : S) :
  fst (feed body chunks (EmptyString, st)) = Js.partial_line (Js.join chunks).
Proof. exact (feed_buffer chunks EmptyString st). Qed.

Lemma feed_no_return0 (chunks : list string) (st : S) :
  snd (for_lines body (Js.complete_lines (Js.join chunks)) st) = false ->
  snd (feed body chunks (EmptyString, st))
  = fst (for_lines body (Js.complete_lines (Js.join chunks)) st).
Proof. exact (feed_no_return chunks EmptyString st). Qed.

Lemma feed_return0 (chunks : list string) (st : S) :
  snd (for_lines body (Js.complete_lines (Js.join chunks)) st) = true ->
  exists chunks' b',
    snd (feed body chunks (EmptyString, st))
    = snd (feed body chunks' (b',
             fst (for_lines body (Js.complete_lines (Js.join chunks)) st))).
Proof. exact (feed_return chunks EmptyString st). Qed.
End LineLoopFacts.

(** ** The streaming client on the lines of a stream *)
Section StreamFacts.
Import Ollama.
Variable JSON_parse_generate : string -> option OllamaGenerateResponse.
Variable JSON_parse_pull : string -> option PullData.

Local Abbreviation gen_body := (Ollama.gen_body JSON_parse_generate).
Local Abbreviation gen_view := (Ollama.gen_view JSON_parse_generate).
Local Abbreviation gen_terminal := (Ollama.gen_terminal JSON_parse_generate).
Local Abbreviation responses := (Ollama.responses JSON_parse_generate).
Local Abbreviation gen_result := (Ollama.gen_result JSON_parse_generate).
Local Abbreviation pull_body := (Ollama.pull_body JSON_parse_pull).
Local Abbreviation pull_view := (Ollama.pull_view JSON_parse_pull).
Local Abbreviation pull_terminal := (Ollama.pull_terminal JSON_parse_pull).
Local Abbreviation reports := (Ollama.reports JSON_parse_pull).

Lemma upto_none (p : string -> bool) (lines : list string) :
  existsb p lines = false -> upto p lines = lines.
Proof.
  induction lines as [|l ls IH]; [reflexivity|].
  cbn [existsb upto]. destruct (p l); [discriminate|].
  intros H. now rewrite IH.
Qed.

(** The loop body, by what the line says. *)
Lemma gen_body_view (line : string) (st : GenState) :
  gen_body line st
  = match gen_view line with
    | Some data =>
        let st1 :=
          if truthy (response data) then
            gen_emit (Call (response data))
              {| fullResponse := fullResponse st +:+ response data;
                 gen_trace := gen_trace st |}
          else st in
        if done data then
          (gen_emit (Settle (Resolved (fullResponse st1))) st1, true)
        else
          match error data with
          | Some e => (gen_emit (Settle (Rejected e)) st1, true)
          | None => (st1, false)
          end
    | None => (st, false)
    end.
Proof.
  unfold Ollama.gen_body, Ollama.gen_view.
  destruct (Js.trim_truthy line); reflexivity.
Qed.

Lemma responses_app (l1 l2 : list string) :
  responses (l1 ++ l2) = responses l1 ++ responses l2.
Proof.
  induction l1 as [|l l1 IH]; [reflexivity|].
  cbn [app Ollama.responses]. destruct (gen_view l) as [data|]; [|exact IH].
  destruct (truthy (response data)); [|exact IH]. cbn [app]. now rewrite IH.
Qed.

Lemma responses_skip (l : string) (ls : list string) :
  gen_view l = None -> responses (l :: ls) = responses ls.
Proof. intros H. cbn [Ollama.responses]. now rewrite H. Qed.

Lemma join_app (l1 l2 : list string) :
  Js.join (l1 ++ l2) = Js.join l1 +:+ Js.join l2.
Proof.
  induction l1 as [|l l1 IH]; [reflexivity|].
  cbn [app Js.join fold_right]. fold (Js.join (l1 ++ l2)). fold (Js.join l1).
  now rewrite IH, string_app_assoc.
Qed.

(** One run of the loop over [lines]: it returns exactly when some line
    is terminal; up to there it has called [onChunk] with the responses of
    the well-formed lines, in order, and settled the promise last. *)
Lemma gen_for_lines (lines : list string) (st : GenState) :
  let r := for_lines gen_body lines st in
  snd r = existsb gen_terminal lines
  /\ gen_trace (fst r)
     = gen_trace st ++ map Call (responses (upto gen_terminal lines))
       ++ (if snd r then [Settle (gen_result lines (fullResponse st))] else [])
  /\ (snd r = false ->
      fullResponse (fst r) = fullResponse st +:+ Js.join (responses lines)
      /\ gen_result lines (fullResponse st) = Resolved (fullResponse (fst r))).
Proof.
  revert st. induction lines as [|l ls IH]; intros st.
  - cbn. rewrite app_nil_r, string_app_nil_r. auto.
  - cbn [for_lines existsb upto Ollama.gen_result].
    rewrite gen_body_view. unfold Ollama.gen_terminal at 1 3.
    destruct (gen_view l) as [data|] eqn:Hv; [|cbn [orb]; rewrite !responses_skip by exact Hv; apply IH].
    set (st1 := if truthy (response data)
                then gen_emit (Call (response data))
                       {| fullResponse := fullResponse st +:+ response data;
                          gen_trace := gen_trace st |}
                else st).
    assert (Hst1 : gen_trace st1 ++ [] = gen_trace st ++ map Call (responses [l])
                   /\ fullResponse st1 = fullResponse st +:+ Js.join (responses [l])
                   /\ fullResponse st1 = (if truthy (response data)
                                         then fullResponse st +:+ response data
                                         else fullResponse st)).
    { subst st1. cbn [Ollama.responses]. rewrite Hv.
      destruct (truthy (response data)); cbn.
      - now rewrite app_nil_r, string_app_nil_r.
      - now rewrite !app_nil_r, string_app_nil_r. }
    destruct Hst1 as (Htr & Hfull & Hacc). rewrite app_nil_r in Htr.
    cbv zeta. fold st1. rewrite <- Hacc.
    destruct (done data) eqn:Hd; cbn [orb fst snd].
    + cbn [gen_emit gen_trace]. rewrite Htr, <- app_assoc.
      split; [reflexivity|split; [reflexivity|discriminate]].
    + destruct (error data) as [e|] eqn:He; cbn [fst snd].
      * rewrite bool_decide_true by eauto.
        cbn [gen_emit gen_trace]. rewrite Htr, <- app_assoc.
      split; [reflexivity|split; [reflexivity|discriminate]].
      * rewrite bool_decide_false by (intros [? ?]; discriminate).
        destruct (IH st1) as (IH1 & IH2 & IH3).
        split; [exact IH1|]. split.
        -- rewrite IH2, Htr, <- !app_assoc.
           replace (l :: upto gen_terminal ls) with ([l] ++ upto gen_terminal ls)
             by reflexivity.
           now rewrite responses_app, map_app, <- !app_assoc.
        -- intros Hr. destruct (IH3 Hr) as [IH4 IH5]. split; [|exact IH5].
           replace (l :: ls) with ([l] ++ ls) by reflexivity.
           now rewrite IH4, Hfull, string_app_assoc, responses_app, join_app.
Qed.

Lemma gen_feed_extends (chunks : list string) (b : string) (st : GenState) :
  exists evs, gen_trace (snd (feed gen_body chunks (b, st))) = gen_trace st ++ evs.
Proof.
  revert b st. induction chunks as [|c cs IH]; intros b st.
  - exists []. cbn. now rewrite app_nil_r.
  - rewrite feed_cons. unfold on_data. cbn [fst snd].
    destruct (IH (Js.partial_line (b +:+ c))
                (fst (for_lines gen_body (Js.complete_lines (b +:+ c)) st))) as [evs Hevs].
    rewrite Hevs.
    destruct (gen_for_lines (Js.complete_lines (b +:+ c)) st) as (_ & Htr & _).
    rewrite Htr, <- !app_assoc. eauto.
Qed.

Lemma reports_app (l1 l2 : list string) :
  reports (l1 ++ l2) = reports l1 ++ reports l2.
Proof.
  induction l1 as [|l l1 IH]; [reflexivity|].
  cbn [app Ollama.reports]. destruct (pull_view l) as [data|]; [|exact IH].
  cbn [app]. now rewrite IH.
Qed.

Lemma pull_body_view (line : string) (tr : PullState) :
  pull_body line tr
  = match pull_view line with
    | Some data =>
        let tr1 := tr ++ map Call (reports [line]) in
        if String.eqb (status data) "success" then
          (tr1 ++ [Settle (Resolved true)], true)
        else if truthy (pull_error data) then
          (tr1 ++ [Settle (Rejected (pull_error data))], true)
        else (tr1, false)
    | None => (tr, false)
    end.
Proof.
  unfold Ollama.pull_body. cbn [Ollama.reports]. unfold Ollama.pull_view.
  destruct (Js.trim_truthy line); [|reflexivity].
  destruct (JSON_parse_pull line); reflexivity.
Qed.

(** The same for the loop of [pullModel]. *)
Lemma pull_for_lines (lines : list string) (tr : PullState) :
  let r := for_lines pull_body lines tr in
  snd r = existsb pull_terminal lines
  /\ fst r
     = tr ++ map Call (reports (upto pull_terminal lines))
       ++ match Ollama.pull_first JSON_parse_pull lines with
          | Some o => [Settle o]
          | None => []
          end
  /\ (snd r = false -> Ollama.pull_first JSON_parse_pull lines = None).
Proof.
  revert tr. induction lines as [|l ls IH]; intros tr.
  - cbn. now rewrite app_nil_r.
  - cbn [for_lines existsb upto Ollama.pull_first].
    rewrite pull_body_view. unfold Ollama.pull_terminal at 1 3.
    destruct (pull_view l) as [data|] eqn:Hv.
    + cbv zeta.
      destruct (String.eqb (status data) "success") eqn:Hs; cbn [orb fst snd].
      { rewrite <- app_assoc. split; [reflexivity|split; [reflexivity|discriminate]]. }
      destruct (truthy (pull_error data)) eqn:He; cbn [fst snd].
      { rewrite <- app_assoc. split; [reflexivity|split; [reflexivity|discriminate]]. }
      destruct (IH (tr ++ map Call (reports [l]))) as (IH1 & IH2 & IH3).
      split; [exact IH1|]. split; [|exact IH3].
      rewrite IH2, <- !app_assoc.
      replace (l :: upto pull_terminal ls) with ([l] ++ upto pull_terminal ls)
        by reflexivity.
      now rewrite reports_app, map_app, <- !app_assoc.
    + cbn [orb]. destruct (IH tr) as (IH1 & IH2 & IH3).
      split; [exact IH1|]. split; [|exact IH3].
      rewrite IH2. cbn [Ollama.reports]. now rewrite Hv.
Qed.

Lemma pull_feed_extends (chunks : list string) (b : string) (tr : PullState) :
  exists evs, snd (feed pull_body chunks (b, tr)) = tr ++ evs.
Proof.
  revert b tr. induction chunks as [|c cs IH]; intros b tr.
  - exists []. cbn. now rewrite app_nil_r.
  - rewrite feed_cons. unfold on_data. cbn [fst snd].
    destruct (IH (Js.partial_line (b +:+ c))
                (fst (for_lines pull_body (Js.complete_lines (b +:+ c)) tr))) as [evs Hevs].
    rewrite Hevs.
    destruct (pull_for_lines (Js.complete_lines (b +:+ c)) tr) as (_ & Htr & _).
    rewrite Htr, <- !app_assoc. eauto.
Qed.

Lemma pull_on_end_last (buffer : string) (tr : PullState) :
  Ollama.pull_on_end JSON_parse_pull (buffer, tr)
  = (buffer, tr ++ [Settle (Ollama.pull_last JSON_parse_pull buffer)]).
Proof.
  unfold Ollama.pull_on_end, Ollama.pull_last, Ollama.pull_view.
  destruct (Js.trim_truthy buffer); [|reflexivity].
  destruct (JSON_parse_pull buffer) as [data|]; [|reflexivity].
  destruct (String.eqb (status data) "success"); [reflexivity|].
  destruct (truthy (pull_error data)); reflexivity.
Qed.

Lemma promise_calls_settle {C R : Type} (cs : list C) (o : Settled R)
    (later : list (Event C R)) :
  promise (map Call cs ++ Settle o :: later) = Some o.
Proof. induction cs as [|c cs IH]; [reflexivity|exact IH]. Qed.

Lemma partial_line_empty : Js.partial_line EmptyString = EmptyString.
Proof. reflexivity. Qed.

Lemma pull_first_terminal (lines : list string) :
  existsb pull_terminal lines = true ->
  Ollama.pull_first JSON_parse_pull lines <> None.
Proof.
  induction lines as [|l ls IH]; [discriminate|].
  cbn [existsb Ollama.pull_first]. unfold Ollama.pull_terminal at 1.
  destruct (pull_view l) as [data|]; [|exact IH].
  destruct (String.eqb (status data) "success"); [discriminate|].
  destruct (truthy (pull_error data)); [discriminate|exact IH].
Qed.

(** What [generateStream] lets out on a chunked stream. *)
Lemma gen_stream_trace (chunks : list string) :
  exists later,
    gen_trace (snd (generateStream JSON_parse_generate chunks))
    = map Call (responses (upto gen_terminal (Js.complete_lines (Js.join chunks))))
      ++ Settle (gen_result (Js.complete_lines (Js.join chunks)) EmptyString) :: later
    /\ (existsb gen_terminal (Js.complete_lines (Js.join chunks)) = false ->
        later = []
        /\ gen_result (Js.complete_lines (Js.join chunks)) EmptyString
           = Resolved (Js.join (responses (Js.complete_lines (Js.join chunks))))).
Proof.
  unfold generateStream, gen_on_end, gen_init. cbn [fst snd gen_emit gen_trace].
  set (st0 := {| fullResponse := EmptyString; gen_trace := [] |}).
  set (lines := Js.complete_lines (Js.join chunks)).
  destruct (gen_for_lines lines st0) as (Hret & Htr & Hfull).
  change (gen_trace st0) with (@nil (Event string string)) in Htr.
  change (fullResponse st0) with EmptyString in Htr, Hfull.
  cbn [app] in Htr.
  destruct (existsb gen_terminal lines) eqn:Hterm.
  - destruct (feed_return0 gen_body chunks st0 Hret) as (cs' & b' & Hfin).
    fold lines in Hfin. rewrite Hfin.
    destruct (gen_feed_extends cs' b' (fst (for_lines gen_body lines st0)))
      as [evs Hevs].
    rewrite Hevs, Htr, Hret.
    eexists. split; [|discriminate].
    rewrite <- !app_assoc. cbn [app]. reflexivity.
  - pose proof (feed_no_return0 gen_body chunks st0 Hret) as Hfin.
    fold lines in Hfin. rewrite Hfin.
    destruct (Hfull Hret) as [Hf Hres].
    rewrite Htr, Hret, Hres, app_nil_r.
    exists []. split; [reflexivity|]. intros _. split; [reflexivity|].
    rewrite Hf. reflexivity.
Qed.

(** What [pullModel] lets out on a chunked stream. *)
Lemma pull_stream_trace (chunks : list string) :
  exists later,
    snd (pullModel JSON_parse_pull chunks)
    = map Call (reports (upto pull_terminal (Js.complete_lines (Js.join chunks))))
      ++ Settle (pull_result JSON_parse_pull (Js.complete_lines (Js.join chunks))
                   (Js.partial_line (Js.join chunks))) :: later
    /\ (existsb pull_terminal (Js.complete_lines (Js.join chunks)) = false ->
        later = []).
Proof.
  unfold pullModel.
  rewrite (surjective_pairing (feed pull_body chunks (EmptyString, []))).
  rewrite pull_on_end_last, feed_buffer0. cbn [fst snd].
  set (lines := Js.complete_lines (Js.join chunks)).
  destruct (pull_for_lines lines []) as (Hret & Htr & Hnone).
  unfold Ollama.pull_result.
  destruct (existsb pull_terminal lines) eqn:Hterm.
  - destruct (feed_return0 pull_body chunks [] Hret) as (cs' & b' & Hfin).
    fold lines in Hfin. rewrite Hfin.
    destruct (pull_feed_extends cs' b' (fst (for_lines pull_body lines [])))
      as [evs Hevs].
    rewrite Hevs, Htr. cbn [app].
    destruct (Ollama.pull_first JSON_parse_pull lines) as [o|] eqn:Hfirst.
    + eexists. split; [|discriminate].
      rewrite <- !app_assoc. cbn [app]. reflexivity.
    + exfalso. now apply (pull_first_terminal lines Hterm).
  - pose proof (feed_no_return0 pull_body chunks [] Hret) as Hfin.
    fold lines in Hfin.
    rewrite Hfin, Htr, (Hnone Hret). cbn [app]. rewrite app_nil_r.
    exists []. split; reflexivity.
Qed.


(** C10. When no line of the stream, complete or left over at the end,
    reports [success] or an error, [pullModel] resolves to [true]. *)
Theorem pullModel_quiet_stream_resolves_true (chunks : list string) :
  existsb pull_terminal
    (Js.complete_lines (Js.join chunks) ++ [Js.partial_line (Js.join chunks)]) = false ->
  promise (snd (pullModel JSON_parse_pull chunks)) = Some (Resolved true).
Proof.
  intros Hquiet. rewrite existsb_app in Hquiet.
  apply orb_false_elim in Hquiet as [Hlines Hrest].
  cbn [existsb] in Hrest. rewrite orb_false_r in Hrest.
  destruct (pull_stream_trace chunks) as (later & Htr & Hlater).
  rewrite Htr, promise_calls_settle. f_equal.
  destruct (pull_for_lines (Js.complete_lines (Js.join chunks)) []) as (Hret & _ & Hnone).
  unfold Ollama.pull_result. rewrite (Hnone (eq_trans Hret Hlines)).
  unfold Ollama.pull_terminal in Hrest. unfold Ollama.pull_last.
  destruct (pull_view (Js.partial_line (Js.join chunks))) as [data|]; [|reflexivity].
  apply orb_false_elim in Hrest as [-> ->]. reflexivity.
Qed.
End StreamFacts.



(** C10 on a stream of progress lines that ends on a broken line. *)
Lemma pullModel_quiet_stream_witness :
  existsb (Ollama.pull_terminal Json.parse_pull)
    (Js.complete_lines (Js.join Samples.quiet_pull)
     ++ [Js.partial_line (Js.join Samples.quiet_pull)]) = false
  /\ promise (snd (Ollama.pullModel Json.parse_pull Samples.quiet_pull))
     = Some (Resolved true).
Proof.
  split; [reflexivity|].
  apply (pullModel_quiet_stream_resolves_true Json.parse_pull Samples.quiet_pull).
  reflexivity.
Defined.

(** ** The download engine *)

Lemma progress_calls_app (a b : list IO) :
  progress_calls (a ++ b) = progress_calls a ++ progress_calls b.
Proof.
  induction a as [|e a IH]; [reflexivity|].
  destruct e; cbn [app progress_calls]; now rewrite ?IH.
Qed.

(** Unfolds the file and trace operations and drops from [progress_calls]
    the events that are no progress report. *)
Ltac quiet_io :=
  cbn [fst snd io files emit createWriteStream unlinkSync renameSync set_files];
  rewrite ?progress_calls_app;
  cbn [progress_calls];
  rewrite ?app_nil_r.

(** ** Double rounding

    What [Js.double] does to a positive rational, and what is left of the
    exact percentage after the two roundings of [percent]. *)
Section DoubleFacts.
Import Whisper.
Local Open Scope Q_scope.

Lemma two_neq_0 : ~ 2 == 0.
Proof. discriminate. Qed.

Lemma two_pow_pos (e : Z) : 0 < 2 ^ e.
Proof. apply Qpower_0_lt. reflexivity. Qed.

Lemma two_pow_le (a b : Z) : (a <= b)%Z -> 2 ^ a <= 2 ^ b.
Proof. intros H. apply Qpower_le_compat_l; [exact H|discriminate]. Qed.

Lemma two_pow_lt (a b : Z) : (a < b)%Z -> 2 ^ a < 2 ^ b.
Proof. intros H. apply Qpower_lt_compat_l; [exact H|reflexivity]. Qed.

Lemma two_pow_Z (a : Z) : (0 <= a)%Z -> 2 ^ a == inject_Z (2 ^ a).
Proof. intros H. now rewrite Zpower_Qpower. Qed.

Lemma ilog2_spec (q : Q) :
  0 < q -> 2 ^ Js.ilog2 q <= q /\ q < 2 ^ (Js.ilog2 q + 1).
Proof.
  destruct q as [n d]. intros Hq.
  assert (Hn : (0 < n)%Z) by (unfold Qlt in Hq; cbn in Hq; lia).
  unfold Js.ilog2. cbn [Qnum Qden].
  set (a := Z.log2 n). set (b := Z.log2 (Z.pos d)).
  destruct (Z.log2_spec n Hn) as [Ha Ha'].
  destruct (Z.log2_spec (Z.pos d) eq_refl) as [Hb Hb']. fold a in Ha, Ha'. fold b in Hb, Hb'.
  assert (Ha0 : (0 <= a)%Z) by apply Z.log2_nonneg.
  assert (Hb0 : (0 <= b)%Z) by apply Z.log2_nonneg.
  assert (Hd : 0 < inject_Z (Z.pos d)) by reflexivity.
  assert (Hupper : n # d < 2 ^ (a - b + 1)).
  { rewrite (Qmake_Qdiv n d). apply Qlt_shift_div_r; [exact Hd|].
    apply Qlt_le_trans with (inject_Z (2 ^ Z.succ a)); [now rewrite <- Zlt_Qlt|].
    rewrite <- two_pow_Z by lia.
    replace (Z.succ a) with ((a - b + 1) + b)%Z by lia.
    rewrite Qpower_plus by apply two_neq_0.
    apply Qmult_le_l; [apply two_pow_pos|].
    rewrite two_pow_Z by lia. now rewrite <- Zle_Qle. }
  assert (Hlower : 2 ^ (a - b - 1) < n # d).
  { rewrite (Qmake_Qdiv n d). apply Qlt_shift_div_l; [exact Hd|].
    apply Qlt_le_trans with (inject_Z (2 ^ a)); [|now rewrite <- Zle_Qle].
    rewrite <- two_pow_Z by lia.
    replace a with ((a - b - 1) + Z.succ b)%Z at 2 by lia.
    rewrite Qpower_plus by apply two_neq_0.
    apply Qmult_lt_l; [apply two_pow_pos|].
    rewrite two_pow_Z by lia. now rewrite <- Zlt_Qlt. }
  destruct (Qle_bool (2 ^ (a - b)) (n # d)) eqn:Hle.
  - apply Qle_bool_iff in Hle. auto.
  - assert (Hlt : n # d < 2 ^ (a - b)).
    { apply Qnot_le_lt. intros H. apply Qle_bool_iff in H. congruence. }
    split; [now apply Qlt_le_weak|].
    now replace (a - b - 1 + 1)%Z with (a - b)%Z by lia.
Qed.

Lemma ilog2_unique (q : Q) (e : Z) :
  0 < q -> 2 ^ e <= q -> q < 2 ^ (e + 1) -> Js.ilog2 q = e.
Proof.
  intros Hq Hl Hu. destruct (ilog2_spec q Hq) as [Hl' Hu'].
  destruct (Z.lt_trichotomy (Js.ilog2 q) e) as [H|[H|H]]; [|exact H|].
  - pose proof (two_pow_le (Js.ilog2 q + 1) e ltac:(lia)). lra.
  - pose proof (two_pow_le (e + 1) (Js.ilog2 q) ltac:(lia)). lra.
Qed.

Lemma ilog2_mono (q1 q2 : Q) :
  0 < q1 -> q1 <= q2 -> (Js.ilog2 q1 <= Js.ilog2 q2)%Z.
Proof.
  intros Hq Hle.
  destruct (ilog2_spec q1 Hq) as [Hl1 Hu1].
  destruct (ilog2_spec q2 ltac:(lra)) as [Hl2 Hu2].
  destruct (Z_le_gt_dec (Js.ilog2 q1) (Js.ilog2 q2)) as [H|H]; [exact H|].
  pose proof (two_pow_le (Js.ilog2 q2 + 1) (Js.ilog2 q1) ltac:(lia)). lra.
Qed.

Lemma round_half_even_cases (x : Q) :
  Js.round_half_even x = Qfloor x \/ Js.round_half_even x = (Qfloor x + 1)%Z.
Proof.
  unfold Js.round_half_even.
  destruct (x - inject_Z (Qfloor x) ?= 1 # 2); auto.
  destruct (Z.even (Qfloor x)); auto.
Qed.

Lemma round_half_even_mono (x y : Q) :
  x <= y -> (Js.round_half_even x <= Js.round_half_even y)%Z.
Proof.
  intros Hxy. pose proof (Qfloor_resp_le x y Hxy) as Hf.
  destruct (Z.eq_dec (Qfloor x) (Qfloor y)) as [Heq|Hne].
  - unfold Js.round_half_even. rewrite Heq.
    destruct (Qcompare_spec (x - inject_Z (Qfloor y)) (1 # 2)) as [Hx|Hx|Hx];
      destruct (Qcompare_spec (y - inject_Z (Qfloor y)) (1 # 2)) as [Hy|Hy|Hy];
      try lia; try lra; destruct (Z.even (Qfloor y)); try lia; lra.
  - destruct (round_half_even_cases x) as [-> | ->];
      destruct (round_half_even_cases y) as [-> | ->]; lia.
Qed.

Lemma round_half_even_Z (k : Z) : Js.round_half_even (inject_Z k) = k.
Proof.
  unfold Js.round_half_even. rewrite Qfloor_Z.
  destruct (Qcompare_spec (inject_Z k - inject_Z k) (1 # 2)) as [H|H|H];
    [lra|reflexivity|lra].
Qed.

Lemma round_half_even_le (x : Q) (b : Z) :
  x <= inject_Z b -> (Js.round_half_even x <= b)%Z.
Proof.
  intros H. rewrite <- (round_half_even_Z b). now apply round_half_even_mono.
Qed.

Lemma round_half_even_ge (x : Q) (a : Z) :
  inject_Z a <= x -> (a <= Js.round_half_even x)%Z.
Proof.
  intros H. rewrite <- (round_half_even_Z a) at 1. now apply round_half_even_mono.
Qed.

Lemma Qabs_of_pos (q : Q) : 0 < q -> Qabs q = q.
Proof.
  destruct q as [n d]. intros Hq. unfold Qabs. f_equal. apply Z.abs_eq.
  unfold Qlt in Hq. cbn in Hq. lia.
Qed.

Lemma double_of_pos (q : Q) :
  0 < q ->
  Js.double q
  = inject_Z (Js.round_half_even (q / 2 ^ (Js.ilog2 q - 52))) * 2 ^ (Js.ilog2 q - 52).
Proof.
  intros Hq. unfold Js.double.
  destruct (Qeq_bool q 0) eqn:H0.
  - apply Qeq_bool_iff in H0. lra.
  - now rewrite Qabs_of_pos.
Qed.

Lemma double_of_0 (q : Q) : q == 0 -> Js.double q = 0.
Proof.
  intros H. unfold Js.double. apply Qeq_bool_iff in H. now rewrite H.
Qed.

Lemma double_pos_bounds (q : Q) :
  0 < q -> 2 ^ Js.ilog2 q <= Js.double q /\ Js.double q <= 2 ^ (Js.ilog2 q + 1).
Proof.
  intros Hq. rewrite (double_of_pos q Hq).
  destruct (ilog2_spec q Hq) as [Hl Hu].
  set (i := Js.ilog2 q) in *. set (e := (i - 52)%Z).
  pose proof (two_pow_pos e) as He.
  assert (H52 : inject_Z (2 ^ 52) <= q / 2 ^ e).
  { apply Qle_shift_div_l; [exact He|].
    rewrite <- two_pow_Z by lia. rewrite <- Qpower_plus by apply two_neq_0.
    now replace (52 + e)%Z with i by (unfold e; lia). }
  assert (H53 : q / 2 ^ e <= inject_Z (2 ^ 53)).
  { apply Qle_shift_div_r; [exact He|].
    rewrite <- two_pow_Z by lia. rewrite <- Qpower_plus by apply two_neq_0.
    replace (53 + e)%Z with (i + 1)%Z by (unfold e; lia). now apply Qlt_le_weak. }
  apply round_half_even_ge in H52. apply round_half_even_le in H53.
  rewrite Zle_Qle in H52, H53.
  split.
  - replace i with (52 + e)%Z at 1 by (unfold e; lia).
    rewrite Qpower_plus by apply two_neq_0. rewrite (two_pow_Z 52) by lia.
    apply Qmult_le_compat_r; [exact H52|now apply Qlt_le_weak].
  - replace (i + 1)%Z with (53 + e)%Z by (unfold e; lia).
    rewrite Qpower_plus by apply two_neq_0. rewrite (two_pow_Z 53) by lia.
    apply Qmult_le_compat_r; [exact H53|now apply Qlt_le_weak].
Qed.

Lemma double_nonneg (q : Q) : 0 <= q -> 0 <= Js.double q.
Proof.
  intros Hq. destruct (Qlt_le_dec 0 q) as [Hpos|Hle].
  - destruct (double_pos_bounds q Hpos) as [Hl _].
    pose proof (two_pow_pos (Js.ilog2 q)). lra.
  - rewrite double_of_0 by lra. lra.
Qed.

Lemma double_mono (q1 q2 : Q) :
  0 <= q1 -> q1 <= q2 -> Js.double q1 <= Js.double q2.
Proof.
  intros H1 Hle. destruct (Qlt_le_dec 0 q1) as [Hpos|Hzero].
  2:{ rewrite (double_of_0 q1) by lra. apply double_nonneg. lra. }
  assert (Hpos2 : 0 < q2) by lra.
  pose proof (ilog2_mono q1 q2 Hpos Hle) as Hi.
  destruct (Z.eq_dec (Js.ilog2 q1) (Js.ilog2 q2)) as [Heq|Hne].
  - rewrite (double_of_pos q1 Hpos), (double_of_pos q2 Hpos2), Heq.
    pose proof (two_pow_pos (Js.ilog2 q2 - 52)) as He.
    apply Qmult_le_compat_r; [|now apply Qlt_le_weak].
    rewrite <- Zle_Qle. apply round_half_even_mono.
    apply Qmult_le_compat_r; [exact Hle|].
    apply Qlt_le_weak, Qinv_lt_0_compat, He.
  - destruct (double_pos_bounds q1 Hpos) as [_ Hu].
    destruct (double_pos_bounds q2 Hpos2) as [Hl _].
    pose proof (two_pow_le (Js.ilog2 q1 + 1) (Js.ilog2 q2) ltac:(lia)). lra.
Qed.

Lemma double_comp (q1 q2 : Q) :
  0 <= q1 -> q1 == q2 -> Js.double q1 == Js.double q2.
Proof.
  intros H1 Heq. apply Qle_antisym; apply double_mono; lra.
Qed.

Lemma Math_round_mono (x y : Q) : x <= y -> (Js.Math_round x <= Js.Math_round y)%Z.
Proof. intros H. unfold Js.Math_round. apply Qfloor_resp_le. lra. Qed.

Lemma percent_mono (totalSize d1 d2 : Z) :
  (0 < totalSize)%Z -> (0 <= d1)%Z -> (d1 <= d2)%Z ->
  (percent d1 totalSize <= percent d2 totalSize)%Z.
Proof.
  intros Ht H1 Hd. unfold percent.
  assert (Htq : 0 < inject_Z totalSize) by (rewrite <- (Zlt_Qlt 0); lia).
  assert (H1q : 0 <= inject_Z d1 / inject_Z totalSize).
  { apply Qle_shift_div_l; [exact Htq|]. rewrite Qmult_0_l, <- (Zle_Qle 0). lia. }
  assert (Hdq : inject_Z d1 / inject_Z totalSize <= inject_Z d2 / inject_Z totalSize).
  { apply Qmult_le_compat_r; [now rewrite <- Zle_Qle|].
    apply Qlt_le_weak, Qinv_lt_0_compat, Htq. }
  pose proof (double_nonneg _ H1q) as Hn.
  pose proof (double_mono _ _ H1q Hdq) as Hm.
  apply Math_round_mono, double_mono; lra.
Qed.

Lemma double_1 : Js.double 1 == 1.
Proof. vm_compute. reflexivity. Qed.

Lemma double_100 : Js.double 100 == 100.
Proof. vm_compute. reflexivity. Qed.

Lemma percent_full (t : Z) : (0 < t)%Z -> percent t t = 100%Z.
Proof.
  intros Ht. unfold percent.
  assert (Htq : 0 < inject_Z t) by (rewrite <- (Zlt_Qlt 0); lia).
  assert (H1 : inject_Z t / inject_Z t == 1) by (field; lra).
  assert (Hd : Js.double (inject_Z t / inject_Z t) == 1).
  { rewrite (double_comp _ 1); [exact double_1|lra|exact H1]. }
  assert (Hp : Js.double (Js.double (inject_Z t / inject_Z t) * 100) == 100).
  { rewrite (double_comp _ 100); [exact double_100|lra|lra]. }
  unfold Js.Math_round. rewrite (Qfloor_comp _ (201 # 2)); [reflexivity|lra].
Qed.

Lemma percent_zero (t : Z) : percent 0 t = 0%Z.
Proof.
  unfold percent.
  rewrite (double_of_0 (inject_Z 0 / inject_Z t)) by (unfold Qdiv; apply Qmult_0_l).
  reflexivity.
Qed.

Lemma percent_bounds (d t : Z) :
  (0 < t)%Z -> (0 <= d <= t)%Z -> (0 <= percent d t <= 100)%Z.
Proof.
  intros Ht Hd.
  pose proof (percent_mono t 0 d Ht ltac:(lia) (proj1 Hd)).
  pose proof (percent_mono t d t Ht (proj1 Hd) (proj2 Hd)).
  rewrite percent_zero in *. rewrite (percent_full t Ht) in *. lia.
Qed.

Lemma round_half_even_error (x : Q) :
  x - (1 # 2) <= inject_Z (Js.round_half_even x)
  /\ inject_Z (Js.round_half_even x) <= x + (1 # 2).
Proof.
  unfold Js.round_half_even.
  pose proof (Qfloor_le x) as Hl. pose proof (Qlt_floor x) as Hu.
  rewrite inject_Z_plus in Hu. change (inject_Z 1) with 1 in Hu.
  destruct (Qcompare_spec (x - inject_Z (Qfloor x)) (1 # 2)) as [H|H|H];
    [destruct (Z.even (Qfloor x))| |];
    rewrite ?inject_Z_plus; change (inject_Z 1) with 1; lra.
Qed.

(** The rounding error is at most half a unit in the last place. *)
Lemma double_error (q : Q) :
  0 < q ->
  q - 2 ^ (Js.ilog2 q - 53) <= Js.double q
  /\ Js.double q <= q + 2 ^ (Js.ilog2 q - 53).
Proof.
  intros Hq. rewrite (double_of_pos q Hq).
  set (e := (Js.ilog2 q - 52)%Z).
  replace (Js.ilog2 q - 53)%Z with (e - 1)%Z by (unfold e; lia).
  pose proof (two_pow_pos e) as He.
  assert (Hhalf : 2 ^ (e - 1) == 2 ^ e * (1 # 2)).
  { rewrite Qpower_minus by apply two_neq_0. reflexivity. }
  assert (Hx : q == q / 2 ^ e * 2 ^ e) by (field; lra).
  destruct (round_half_even_error (q / 2 ^ e)) as [Hl Hu].
  apply (Qmult_le_compat_r _ _ (2 ^ e)) in Hl; [|lra].
  apply (Qmult_le_compat_r _ _ (2 ^ e)) in Hu; [|lra].
  rewrite Hhalf.
  revert Hl Hu Hx.
  generalize (inject_Z (Js.round_half_even (q / 2 ^ e)) * 2 ^ e) as r.
  generalize (q / 2 ^ e) as x. generalize (2 ^ e) as E.
  intros E x r Hl Hu Hx.
  assert (Hl' : (x - (1 # 2)) * E == x * E - E * (1 # 2)) by ring.
  assert (Hu' : (x + (1 # 2)) * E == x * E + E * (1 # 2)) by ring.
  rewrite Hl' in Hl. rewrite Hu' in Hu. rewrite <- Hx in Hl, Hu. split; lra.
Qed.

Lemma ilog2_lt (q : Q) (k : Z) : 0 < q -> q < 2 ^ k -> (Js.ilog2 q < k)%Z.
Proof.
  intros Hq Hk. destruct (ilog2_spec q Hq) as [Hl _].
  apply (Qpower_lt_compat_l_inv 2); [|reflexivity]. lra.
Qed.

Lemma Math_round_spec (x : Q) :
  inject_Z (Js.Math_round x) <= x + (1 # 2)
  /\ x + (1 # 2) < inject_Z (Js.Math_round x) + 1.
Proof.
  unfold Js.Math_round. pose proof (Qfloor_le (x + (1 # 2))) as Hl.
  pose proof (Qlt_floor (x + (1 # 2))) as Hu.
  rewrite inject_Z_plus in Hu. change (inject_Z 1) with 1 in Hu. split; lra.
Qed.


(** Integers of at most 53 bits are doubles. *)
Lemma double_Z (k : Z) : (0 <= k < 2 ^ 53)%Z -> Js.double (inject_Z k) == inject_Z k.
Proof.
  intros Hk. destruct (Z.eq_dec k 0%Z) as [->|Hk0]; [reflexivity|].
  assert (Hpos : 0 < inject_Z k) by (rewrite <- (Zlt_Qlt 0); lia).
  rewrite (double_of_pos _ Hpos).
  assert (Hi : (Js.ilog2 (inject_Z k) < 53)%Z).
  { apply ilog2_lt; [exact Hpos|]. rewrite two_pow_Z by lia. rewrite <- Zlt_Qlt. lia. }
  set (e := (Js.ilog2 (inject_Z k) - 52)%Z) in *.
  assert (He : (e <= 0)%Z) by (unfold e; lia).
  assert (Hscale : inject_Z k / 2 ^ e == inject_Z (k * 2 ^ (- e))).
  { rewrite inject_Z_mult, <- two_pow_Z by lia. rewrite Qpower_opp.
    unfold Qdiv. reflexivity. }
  assert (Hr : Js.round_half_even (inject_Z k / 2 ^ e) = (k * 2 ^ (- e))%Z).
  { rewrite <- (round_half_even_Z (k * 2 ^ (- e))).
    apply Z.le_antisymm; apply round_half_even_mono; rewrite Hscale; apply Qle_refl. }
  rewrite Hr, inject_Z_mult, <- two_pow_Z by lia.
  rewrite <- Qmult_assoc, <- Qpower_plus by apply two_neq_0.
  replace (- e + e)%Z with 0%Z by lia. change (2 ^ 0) with 1. ring.
Qed.

(** [Math.floor] of a rounded quotient that stays away from the next
    integer by more than the rounding error. *)
Lemma floor_double (k j : Z) (x : Q) :
  (0 <= k < 2 ^ 53)%Z ->
  inject_Z k <= x -> x < 2 ^ (j + 1) -> x + 2 ^ (j - 53) < inject_Z k + 1 ->
  Qfloor (Js.double x) = k.
Proof.
  intros Hk Hl Hj Hu.
  assert (Hk0 : 0 <= inject_Z k) by (rewrite <- (Zle_Qle 0); lia).
  pose proof (double_mono _ _ Hk0 Hl) as Hlow. rewrite (double_Z k Hk) in Hlow.
  assert (Hup : Js.double x < inject_Z k + 1).
  { destruct (Qlt_le_dec 0 x) as [Hpos|Hzero].
    - destruct (double_error x Hpos) as [_ He].
      pose proof (ilog2_lt x (j + 1) Hpos Hj) as Hi.
      pose proof (two_pow_le (Js.ilog2 x - 53) (j - 53) ltac:(lia)). lra.
    - rewrite (double_of_0 x) by lra. lra. }
  pose proof (Qfloor_le (Js.double x)) as Hfl.
  pose proof (Qlt_floor (Js.double x)) as Hfu.
  assert (H1 : inject_Z (Qfloor (Js.double x)) < inject_Z (k + 1)).
  { rewrite inject_Z_plus. change (inject_Z 1) with 1. lra. }
  assert (H2 : inject_Z k < inject_Z (Qfloor (Js.double x) + 1)) by lra.
  rewrite <- Zlt_Qlt in H1, H2. lia.
Qed.

(** The two roundings move the percentage by less than 2^-45. *)
Lemma percent_gap (d t : Z) :
  (0 < t)%Z -> (0 < d <= t)%Z ->
  inject_Z d / inject_Z t * 100 - (164 # 9007199254740992)
  <= Js.double (Js.double (inject_Z d / inject_Z t) * 100)
  /\ Js.double (Js.double (inject_Z d / inject_Z t) * 100)
     <= inject_Z d / inject_Z t * 100 + (164 # 9007199254740992).
Proof.
  intros Ht Hd.
  assert (HT : 0 < inject_Z t) by (rewrite <- (Zlt_Qlt 0); lia).
  assert (HD : 0 < inject_Z d) by (rewrite <- (Zlt_Qlt 0); lia).
  assert (HDT : inject_Z d <= inject_Z t) by (rewrite <- Zle_Qle; lia).
  set (q := inject_Z d / inject_Z t).
  assert (Hq0 : 0 < q) by (apply Qlt_shift_div_l; lra).
  assert (Hq1 : q <= 1) by (apply Qle_shift_div_r; lra).
  destruct (double_error q Hq0) as [Hql Hqu].
  assert (Hi : (Js.ilog2 q - 53 <= -53)%Z).
  { assert (Js.ilog2 q < 1)%Z by (apply ilog2_lt; [exact Hq0|]; change (2 ^ 1) with 2; lra).
    lia. }
  pose proof (two_pow_le _ _ Hi) as Hulp. change (2 ^ (-53)) with (1 # 9007199254740992) in Hulp.
  pose proof (double_mono q 1 ltac:(lra) Hq1) as Hdq1. rewrite double_1 in Hdq1.
  destruct (double_pos_bounds q Hq0) as [Hdq0 _].
  pose proof (two_pow_pos (Js.ilog2 q)) as Hpow.
  set (p := Js.double q * 100) in *.
  assert (Hp0 : 0 < p) by (unfold p; lra).
  assert (Hp100 : p <= 100) by (unfold p; lra).
  destruct (double_error p Hp0) as [Hpl Hpu].
  assert (Hj : (Js.ilog2 p - 53 <= -47)%Z).
  { assert (Js.ilog2 p < 7)%Z by (apply ilog2_lt; [exact Hp0|]; change (2 ^ 7) with 128; lra).
    lia. }
  pose proof (two_pow_le _ _ Hj) as Hulp'. change (2 ^ (-47)) with (1 # 140737488355328) in Hulp'.
  unfold p in *. split; lra.
Qed.

(** Twice the distance of the exact percentage plus a half from an
    integer [c], in units of [1 / (2 * t)]. *)
Lemma percent_scaled (d t c : Z) (x : Q) :
  (0 < t)%Z ->
  x == inject_Z d / inject_Z t * 100 + (1 # 2) - inject_Z c ->
  inject_Z (200 * d + t - 2 * (c * t)) == 2 * inject_Z t * x.
Proof.
  intros Ht Hx.
  assert (HT : 0 < inject_Z t) by (rewrite <- (Zlt_Qlt 0); lia).
  unfold Zminus. rewrite !inject_Z_plus, inject_Z_opp, !inject_Z_mult.
  change (inject_Z 200) with 200. change (inject_Z 2) with 2.
  rewrite Hx. field. lra.
Qed.

(** The report is the exact rounding or one below it. *)
Lemma percent_near (d t : Z) :
  (0 < t <= 2 ^ 44)%Z -> (0 <= d <= t)%Z ->
  (Js.Math_round (inject_Z d / inject_Z t * 100) - 1 <= percent d t
   <= Js.Math_round (inject_Z d / inject_Z t * 100))%Z
  /\ (percent d t <> Js.Math_round (inject_Z d / inject_Z t * 100) ->
      ((200 * d) mod (2 * t) = t)%Z).
Proof.
  intros Ht Hd.
  assert (HT : 0 < inject_Z t) by (rewrite <- (Zlt_Qlt 0); lia).
  assert (HT' : inject_Z t <= inject_Z (2 ^ 44)) by (rewrite <- Zle_Qle; lia).
  change (inject_Z (2 ^ 44)) with 17592186044416 in HT'.
  destruct (Z.eq_dec d 0%Z) as [->|Hd0].
  { rewrite percent_zero. unfold Js.Math_round.
    rewrite (Qfloor_comp _ (1 # 2)) by (unfold Qdiv; rewrite !Qmult_0_l; reflexivity).
    change (Qfloor (1 # 2)) with 0%Z. split; [lia|congruence]. }
  destruct (percent_gap d t ltac:(lia) ltac:(lia)) as [Hgl Hgu].
  unfold percent.
  destruct (Math_round_spec (Js.double (Js.double (inject_Z d / inject_Z t) * 100)))
    as [Hal Hau].
  destruct (Math_round_spec (inject_Z d / inject_Z t * 100)) as [Hbl Hbu].
  set (a := Js.Math_round (Js.double (Js.double (inject_Z d / inject_Z t) * 100))) in *.
  set (b := Js.Math_round (inject_Z d / inject_Z t * 100)) in *.
  set (y := Js.double (Js.double (inject_Z d / inject_Z t) * 100)) in *.
  set (z := inject_Z d / inject_Z t * 100) in *.
  assert (Hsmall : 2 * inject_Z t * (164 # 9007199254740992) < 1).
  { apply Qle_lt_trans with (2 * 17592186044416 * (164 # 9007199254740992)); [|reflexivity].
    apply Qmult_le_compat_r; [lra|discriminate]. }
  (* the scaled distance of z + 1/2 from b and from a *)
  pose proof (percent_scaled d t b (z + (1 # 2) - inject_Z b) ltac:(lia) ltac:(reflexivity)) as Hb.
  pose proof (percent_scaled d t a (z + (1 # 2) - inject_Z a) ltac:(lia) ltac:(reflexivity)) as Ha.
  assert (Hle : (a <= b)%Z).
  { destruct (Z_le_gt_dec a b) as [H|H]; [exact H|exfalso].
    assert (Hab : inject_Z b + inject_Z 1 <= inject_Z a)
      by (rewrite <- inject_Z_plus, <- Zle_Qle; lia).
    change (inject_Z 1) with 1 in Hab.
    assert (H1 : z + (1 # 2) - inject_Z a < 0) by lra.
    assert (H2 : - (164 # 9007199254740992) <= z + (1 # 2) - inject_Z a) by lra.
    assert (Hneg : (200 * d + t - 2 * (a * t) < 0)%Z).
    { rewrite Zlt_Qlt, Ha. change (inject_Z 0) with 0.
      apply Qlt_le_trans with (2 * inject_Z t * 0); [apply Qmult_lt_l; lra|].
      rewrite Qmult_0_r. apply Qle_refl. }
    assert (Hgt : (-1 < 200 * d + t - 2 * (a * t))%Z).
    { rewrite Zlt_Qlt, Ha. change (inject_Z (-1)) with (-1).
      apply Qlt_le_trans with (2 * inject_Z t * - (164 # 9007199254740992));
        [lra|apply Qmult_le_l; lra]. }
    lia. }
  assert (Htie : (a < b)%Z -> (200 * d + t - 2 * (b * t) = 0)%Z).
  { intros Hlt.
    assert (Hab : inject_Z a + inject_Z 1 <= inject_Z b)
      by (rewrite <- inject_Z_plus, <- Zle_Qle; lia).
    change (inject_Z 1) with 1 in Hab.
    assert (H1 : 0 <= z + (1 # 2) - inject_Z b) by lra.
    assert (H2 : z + (1 # 2) - inject_Z b < 164 # 9007199254740992) by lra.
    assert (Hge : (0 <= 200 * d + t - 2 * (b * t))%Z).
    { rewrite Zle_Qle, Hb. change (inject_Z 0) with 0.
      apply Qmult_le_0_compat; lra. }
    assert (Hlt1 : (200 * d + t - 2 * (b * t) < 1)%Z).
    { rewrite Zlt_Qlt, Hb. change (inject_Z 1) with 1.
      apply Qlt_trans with (2 * inject_Z t * (164 # 9007199254740992)); [|exact Hsmall].
      apply Qmult_lt_l; lra. }
    lia. }
  split.
  - split; [|exact Hle].
    destruct (Z_le_gt_dec (b - 1) a) as [H|H]; [exact H|exfalso].
    assert (Hab : inject_Z a + inject_Z 2 <= inject_Z b)
      by (rewrite <- inject_Z_plus, <- Zle_Qle; lia).
    change (inject_Z 2) with 2 in Hab. lra.
  - intros Hne. assert (Hlt : (a < b)%Z) by lia.
    specialize (Htie Hlt).
    replace (200 * d)%Z with (t + (b - 1) * (2 * t))%Z by lia.
    rewrite Z.mod_add by lia. apply Z.mod_small. lia.
Qed.

(** Below 2^44 bytes the double computation gives the exact rounding
    unless the exact percentage is halfway between two integers. *)
Lemma percent_exact (d t : Z) :
  (0 < t <= 2 ^ 44)%Z -> (0 <= d <= t)%Z ->
  ((200 * d) mod (2 * t) <> t)%Z ->
  percent d t = Js.Math_round (inject_Z d / inject_Z t * 100).
Proof.
  intros Ht Hd Htie.
  destruct (Z.eq_dec (percent d t) (Js.Math_round (inject_Z d / inject_Z t * 100)))
    as [H|H]; [exact H|].
  now apply (proj2 (percent_near d t Ht Hd)) in H.
Qed.
End DoubleFacts.

Section DownloadFacts.
Import Whisper.
Variable net : PropValue -> HttpReply.

Lemma on_chunk_fold (totalSize : option Z) (body : list string) (d0 : Z) (w : World) :
  let w' := snd (fold_left (fun st chunk => on_chunk totalSize chunk st) body (d0, w)) in
  files w' = files w
  /\ exists ps,
       io w' = io w ++ map OnProgress ps
       /\ ps = match totalSize with
              | Some t => if (0 <? t)%Z then chunk_progress t d0 body else []
              | None => []
              end.
Proof.
  revert d0 w. induction body as [|chunk rest IH]; intros d0 w.
  - cbn. split; [reflexivity|]. exists []. rewrite app_nil_r.
    split; [reflexivity|]. destruct totalSize as [t|]; [|reflexivity].
    now destruct (0 <? t)%Z.
  - cbn [fold_left].
    destruct (on_chunk totalSize chunk (d0, w)) as [d1 w1] eqn:Hstep.
    destruct (IH d1 w1) as (Hfiles & ps & Hio & Hps).
    cbv zeta. rewrite Hfiles, Hio, Hps. clear Hfiles Hio Hps.
    unfold on_chunk in Hstep. cbn [fst snd] in Hstep.
    injection Hstep as <- <-.
    destruct totalSize as [t|].
    + destruct (0 <? t)%Z eqn:Ht.
      * split; [reflexivity|]. eexists. split; [|reflexivity].
        cbn [emit io chunk_progress map]. now rewrite <- app_assoc.
      * split; [reflexivity|]. exists []. split; reflexivity.
    + split; [reflexivity|]. exists []. split; reflexivity.
Qed.

Lemma length_append (a b : string) :
  String.length (a +:+ b) = (String.length a + String.length b)%nat.
Proof.
  induction a as [|c a IH]; [reflexivity|].
  change (String c a +:+ b) with (String c (a +:+ b)). cbn [String.length].
  now rewrite IH.
Qed.

(** The running count is the size of what has arrived. *)
Lemma chunk_progress_prefixes (totalSize d0 : Z) (body : list string) :
  chunk_progress totalSize d0 body
  = map (fun i => percent (d0 + downloaded_after body i) totalSize)
      (seq 1 (length body)).
Proof.
  revert d0. induction body as [|chunk rest IH]; intros d0; [reflexivity|].
  cbn [chunk_progress length seq map].
  rewrite IH, <- (seq_shift (length rest) 1), map_map.
  f_equal.
  - unfold downloaded_after. cbn [take Js.join fold_right]. fold (Js.join []).
    cbn [take]. now rewrite string_app_nil_r.
  - apply map_ext. intros i. f_equal. unfold downloaded_after.
    cbn [take Js.join fold_right]. fold (Js.join (take i rest)).
    rewrite length_append. lia.
Qed.

Lemma chunk_progress_sorted (totalSize d0 : Z) (body : list string) :
  (0 < totalSize)%Z -> (0 <= d0)%Z ->
  Forall (Z.le (percent d0 totalSize)) (chunk_progress totalSize d0 body)
  /\ StronglySorted Z.le (chunk_progress totalSize d0 body).
Proof.
  intros Ht. revert d0. induction body as [|chunk rest IH]; intros d0 Hd0.
  - split; constructor.
  - cbn [chunk_progress].
    destruct (IH (d0 + Z.of_nat (String.length chunk))%Z ltac:(lia)) as [Hall Hsorted].
    assert (Hstep : (percent d0 totalSize
                     <= percent (d0 + Z.of_nat (String.length chunk)) totalSize)%Z)
      by (apply percent_mono; lia).
    split.
    + constructor; [exact Hstep|].
      revert Hall. apply List.Forall_impl. intros p Hp. lia.
    + constructor; assumption.
Qed.

Lemma progress_calls_map (ps : list Z) : progress_calls (map OnProgress ps) = ps.
Proof. induction ps as [|p ps IH]; [reflexivity|]. cbn. now rewrite IH. Qed.

Lemma receive_spec (content_length : option string) (body : list string)
    (dest : string) (w : World) :
  files (receive content_length body dest w) = <[dest := Js.join body]> (files w)
  /\ io (receive content_length body dest w)
     = io w ++ map OnProgress (reported content_length body).
Proof.
  unfold receive, reported.
  destruct (on_chunk_fold (Js.parseInt (or_else content_length "0")) body 0 w)
    as (Hfiles & ps & Hio & Hps).
  cbn [files io set_files]. rewrite Hfiles, Hio, Hps. split; reflexivity.
Qed.

Lemma reported_sorted (content_length : option string) (body : list string) :
  Sorted Z.le (reported content_length body).
Proof.
  unfold reported.
  destruct (Js.parseInt (or_else content_length "0")) as [t|]; [|constructor].
  destruct (0 <? t)%Z eqn:Ht; [|constructor].
  apply StronglySorted_Sorted, chunk_progress_sorted; lia.
Qed.

(** Every catalog entry is a non-empty URL. *)
Lemma catalog_urls_truthy (modelName url : string) :
  MODEL_DOWNLOAD_URLS !! modelName = Some url ->
  get_property MODEL_DOWNLOAD_URLS modelName = JsString url
  /\ prop_truthy (JsString url) = true.
Proof.
  intros Hurl. unfold get_property. rewrite Hurl. split; [reflexivity|].
  assert (Hall : map_Forall (fun _ u => prop_truthy (JsString u) = true)
                   MODEL_DOWNLOAD_URLS).
  { unfold MODEL_DOWNLOAD_URLS. repeat (apply map_Forall_insert_2; [reflexivity|]).
    apply map_Forall_empty. }
  exact (Hall _ _ Hurl).
Qed.

(** The progress reports of one [downloadModel] call: those of the one
    200 response it reads, or none. *)
Lemma downloadModel_progress (svc : WhisperService) (modelName : string) (w : World) :
  exists ps,
    progress_calls (io (fst (downloadModel net svc modelName w)))
    = progress_calls (io w) ++ ps
    /\ (ps = [] \/ exists content_length body, ps = reported content_length body).
Proof.
  unfold downloadModel, downloadFromUrl.
  generalize (get_property MODEL_DOWNLOAD_URLS modelName) as url.
  generalize (getModelPath svc modelName +:+ ".tmp") as tempPath.
  intros tempPath url.
  destruct (prop_truthy url); cbn [negb fst];
    [|exists []; rewrite app_nil_r; auto].
  destruct (net url) as [msg|statusCode location cl body|].
  - exists []. destruct (existsSync _ _); quiet_io; auto.
  - destruct (redirect_target statusCode location) as [redirectUrl|].
    + destruct (net (JsString redirectUrl)) as [msg|statusCode' location' cl' body'|].
      * exists []. quiet_io. auto.
      * destruct (statusCode' =? 200)%Z; cbn [negb fst]; [|exists []; quiet_io; auto].
        exists (reported cl' body'). split; [|eauto].
        cbn [io emit renameSync set_files].
        rewrite (proj2 (receive_spec cl' body' tempPath _)).
        quiet_io. now rewrite progress_calls_map.
      * exists []. quiet_io. auto.
    + destruct (statusCode =? 200)%Z; cbn [negb fst]; [|exists []; quiet_io; auto].
      exists (reported cl body). split; [|eauto].
      cbn [io emit renameSync set_files].
      rewrite (proj2 (receive_spec cl body tempPath _)).
      quiet_io. now rewrite progress_calls_map.
  - exists []. quiet_io. auto.
Qed.

(** The reports of a download whose final response is a 200. *)
Lemma downloadModel_reports (svc : WhisperService) (modelName url : string)
    (w : World) (location content_length : option string) (body : list string) :
  MODEL_DOWNLOAD_URLS !! modelName = Some url ->
  final_reply net url = Response 200 location content_length body ->
  progress_calls (io (fst (downloadModel net svc modelName w)))
  = progress_calls (io w) ++ reported content_length body.
Proof.
  intros Hurl Hfinal. destruct (catalog_urls_truthy _ _ Hurl) as [Hget Htruthy].
  unfold downloadModel, downloadFromUrl. rewrite Hget, Htruthy. cbn [negb].
  generalize (getModelPath svc modelName +:+ ".tmp") as tempPath. intros tempPath.
  unfold final_reply in Hfinal.
  destruct (net (JsString url)) as [msg|statusCode location0 cl0 body0|] eqn:Hfirst;
    [discriminate| |discriminate].
  destruct (redirect_target statusCode location0) as [redirectUrl|].
  - rewrite Hfinal. cbn [Z.eqb Pos.eqb negb fst].
    cbn [io emit renameSync set_files].
    rewrite (proj2 (receive_spec content_length body tempPath _)).
    quiet_io. now rewrite progress_calls_map.
  - injection Hfinal as -> -> -> ->.
    cbn [Z.eqb Pos.eqb negb fst].
    cbn [io emit renameSync set_files].
    rewrite (proj2 (receive_spec content_length body tempPath _)).
    quiet_io. now rewrite progress_calls_map.
Qed.

(** C6, amended. In a download whose final response (the first one, or
    that of the followed redirect) is a 200, the data handler adds the
    length of each chunk to the count of downloaded bytes and, when the
    [Content-Length] header parses to a positive total, calls the progress
    callback once per chunk with [Math.round((downloaded / total) * 100)]
    as doubles compute it, where [downloaded] is the size of all chunks
    received so far: the quotient is rounded to a double, its product with
    100 is rounded again, and the result goes to the nearest integer. For a
    total of at most 2^44 bytes the report is the rounding of the exact
    percentage or the integer below it, and it is the rounding of the exact
    percentage whenever that percentage is not halfway between two
    integers. With no [Content-Length] header the callback is never
    called. *)
Theorem download_progress_is_rounded_ratio (svc : WhisperService)
    (modelName url : string) (w : World)
    (location content_length : option string) (body : list string) :
  MODEL_DOWNLOAD_URLS !! modelName = Some url ->
  final_reply net url = Response 200 location content_length body ->
  (forall totalSize : Z,
      Js.parseInt (or_else content_length "0") = Some totalSize ->
      (0 < totalSize <= 2 ^ 53)%Z ->
      (downloaded_after body (length body) <= 2 ^ 53)%Z ->
      progress_calls (io (fst (downloadModel net svc modelName w)))
      = progress_calls (io w)
        ++ map (fun i =>
                  Js.Math_round
                    (Js.double
                       (Js.double (inject_Z (downloaded_after body i)
                                   / inject_Z totalSize) * 100)))
             (seq 1 (length body))
      /\ forall i : nat,
           (totalSize <= 2 ^ 44)%Z ->
           (downloaded_after body i <= totalSize)%Z ->
           (Js.Math_round
              (inject_Z (downloaded_after body i) / inject_Z totalSize * 100) - 1
            <= Js.Math_round
                 (Js.double
                    (Js.double (inject_Z (downloaded_after body i)
                                / inject_Z totalSize) * 100))
            <= Js.Math_round
                 (inject_Z (downloaded_after body i) / inject_Z totalSize * 100))%Z
           /\ (((200 * downloaded_after body i) mod (2 * totalSize))%Z <> totalSize ->
               Js.Math_round
                 (Js.double
                    (Js.double (inject_Z (downloaded_after body i)
                                / inject_Z totalSize) * 100))
               = Js.Math_round
                   (inject_Z (downloaded_after body i) / inject_Z totalSize * 100)))
  /\ (content_length = None ->
      progress_calls (io (fst (downloadModel net svc modelName w)))
      = progress_calls (io w)).
Proof.
  intros Hurl Hfinal.
  rewrite (downloadModel_reports svc modelName url w _ _ _ Hurl Hfinal).
  unfold reported. split.
  - intros totalSize -> Hpos _.
    destruct (0 <? totalSize)%Z eqn:Ht; [|lia].
    split; [now rewrite chunk_progress_prefixes|].
    intros i Hsmall Hpart.
    assert (Hd : (0 <= downloaded_after body i <= totalSize)%Z)
      by (unfold downloaded_after in *; lia).
    destruct (percent_near (downloaded_after body i) totalSize ltac:(lia) Hd)
      as [Hnear Htie].
    unfold percent in Hnear, Htie. split; [exact Hnear|].
    intros Hno.
    destruct (Z.eq_dec
                (Js.Math_round
                   (Js.double
                      (Js.double (inject_Z (downloaded_after body i)
                                  / inject_Z totalSize) * 100)))
                (Js.Math_round
                   (inject_Z (downloaded_after body i) / inject_Z totalSize * 100)))
      as [Heq|Hne]; [exact Heq|].
    now apply Htie in Hne.
  - intros ->. cbn. now rewrite app_nil_r.
Qed.

(** The first effects of a call that passes the guard. *)
Lemma downloadModel_first_effects (svc : WhisperService) (modelName : string)
    (w : World) :
  prop_truthy (get_property MODEL_DOWNLOAD_URLS modelName) = true ->
  exists more,
    io (fst (downloadModel net svc modelName w))
    = io w ++ CreateWriteStream (getModelPath svc modelName +:+ ".tmp")
        :: HttpsGet (get_property MODEL_DOWNLOAD_URLS modelName) :: more.
Proof.
  intros Htruthy. unfold downloadModel, downloadFromUrl. rewrite Htruthy.
  generalize (get_property MODEL_DOWNLOAD_URLS modelName) as url.
  generalize (getModelPath svc modelName +:+ ".tmp") as tempPath.
  intros tempPath url. cbn [negb].
  destruct (net url) as [msg|statusCode location cl body|].
  - destruct (existsSync _ _); cbn [fst io emit createWriteStream unlinkSync set_files];
      rewrite <- ?app_assoc; cbn [app]; eauto.
  - destruct (redirect_target statusCode location) as [redirectUrl|].
    + destruct (net (JsString redirectUrl)) as [msg|statusCode' location' cl' body'|].
      * cbn [fst io emit createWriteStream unlinkSync set_files].
        rewrite <- ?app_assoc; cbn [app]; eauto.
      * destruct (statusCode' =? 200)%Z; cbn [negb fst].
        -- cbn [io emit renameSync set_files].
           rewrite (proj2 (receive_spec cl' body' tempPath _)).
           cbn [fst io emit createWriteStream unlinkSync set_files].
           rewrite <- ?app_assoc; cbn [app]; eauto.
        -- cbn [fst io emit createWriteStream unlinkSync set_files].
           rewrite <- ?app_assoc; cbn [app]; eauto.
      * cbn [fst io emit createWriteStream unlinkSync set_files].
        rewrite <- ?app_assoc; cbn [app]; eauto.
    + destruct (statusCode =? 200)%Z; cbn [negb fst].
      * cbn [io emit renameSync set_files].
        rewrite (proj2 (receive_spec cl body tempPath _)).
        cbn [fst io emit createWriteStream unlinkSync set_files].
        rewrite <- ?app_assoc; cbn [app]; eauto.
      * cbn [fst io emit createWriteStream unlinkSync set_files].
        rewrite <- ?app_assoc; cbn [app]; eauto.
  - cbn [fst io emit createWriteStream unlinkSync set_files].
    rewrite <- ?app_assoc; cbn [app]; eauto.
Qed.

(** A name that the catalog object does not answer to is refused before
    anything else happens. *)
Lemma downloadModel_undefined (svc : WhisperService) (modelName : string) (w : World) :
  get_property MODEL_DOWNLOAD_URLS modelName = JsUndefined ->
  downloadModel net svc modelName w
  = (w, Some (Rejected ("Unknown model: " +:+ modelName))).
Proof. intros Hget. unfold downloadModel. now rewrite Hget. Qed.

(** A first response that is neither a followed redirect nor a 200:
    the temp file goes, the destination is as it was. *)
Lemma downloadModel_direct_failure (svc : WhisperService) (modelName url : string)
    (w : World) (statusCode : Z) (location content_length : option string)
    (body : list string) :
  MODEL_DOWNLOAD_URLS !! modelName = Some url ->
  net (JsString url) = Response statusCode location content_length body ->
  redirect_target statusCode location = None ->
  statusCode <> 200%Z ->
  snd (downloadModel net svc modelName w) = Some (Rejected (http_failure statusCode))
  /\ files (fst (downloadModel net svc modelName w))
     = delete (getModelPath svc modelName +:+ ".tmp") (files w).
Proof.
  intros Hurl Hfirst Hredirect Hstatus.
  destruct (catalog_urls_truthy _ _ Hurl) as [Hget Htruthy].
  unfold downloadModel. rewrite Hget, Htruthy, Hfirst, Hredirect. cbn [negb].
  destruct (statusCode =? 200)%Z eqn:H200; [lia|]. cbn [negb fst snd].
  split; [reflexivity|].
  cbn [files emit createWriteStream unlinkSync set_files].
  apply delete_insert_eq.
Qed.

(** A followed redirect whose target does not answer 200: the call is
    rejected with the status of the target, and the temp file that
    [downloadFromUrl] opened stays behind, empty. *)
Lemma downloadModel_redirect_failure (svc : WhisperService) (modelName url : string)
    (w : World) (statusCode statusCode' : Z) (location location' : option string)
    (content_length content_length' : option string) (body body' : list string)
    (redirectUrl : string) :
  MODEL_DOWNLOAD_URLS !! modelName = Some url ->
  net (JsString url) = Response statusCode location content_length body ->
  redirect_target statusCode location = Some redirectUrl ->
  net (JsString redirectUrl) = Response statusCode' location' content_length' body' ->
  statusCode' <> 200%Z ->
  snd (downloadModel net svc modelName w) = Some (Rejected (http_failure statusCode'))
  /\ files (fst (downloadModel net svc modelName w))
     = <[getModelPath svc modelName +:+ ".tmp" := EmptyString]> (files w).
Proof.
  intros Hurl Hfirst Hredirect Hsecond Hstatus.
  destruct (catalog_urls_truthy _ _ Hurl) as [Hget Htruthy].
  unfold downloadModel, downloadFromUrl.
  rewrite Hget, Htruthy, Hfirst, Hredirect, Hsecond. cbn [negb].
  destruct (statusCode' =? 200)%Z eqn:H200; [lia|]. cbn [negb fst snd].
  split; [reflexivity|].
  cbn [files emit createWriteStream unlinkSync set_files].
  now rewrite delete_insert_eq, insert_delete_eq.
Qed.
End DownloadFacts.

(** C6 on the scenario of a 1000-byte model arriving in two halves. *)
Lemma download_progress_two_chunks :
  Whisper.MODEL_DOWNLOAD_URLS !! "tiny" = Some Samples.tiny_url
  /\ Whisper.final_reply Samples.net_two_chunks Samples.tiny_url
     = Response 200 None (Some "1000") [Samples.bytes 500; Samples.bytes 500]
  /\ progress_calls
       (io (fst (Whisper.downloadModel Samples.net_two_chunks Samples.svc "tiny"
                   Samples.empty_world)))
     = [50; 100]%Z.
Proof.
  split; [reflexivity|]. split; [reflexivity|].
  destruct (download_progress_is_rounded_ratio Samples.net_two_chunks Samples.svc
              "tiny" Samples.tiny_url Samples.empty_world None (Some "1000")
              [Samples.bytes 500; Samples.bytes 500] eq_refl eq_refl) as [Hpos _].
  assert (Htotal : (0 < 1000 <= 2 ^ 53)%Z) by (vm_compute; split; [reflexivity|discriminate]).
  assert (Hbody : (Whisper.downloaded_after [Samples.bytes 500; Samples.bytes 500] 2
                   <= 2 ^ 53)%Z) by (vm_compute; discriminate).
  rewrite (proj1 (Hpos 1000%Z eq_refl Htotal Hbody)). vm_compute. reflexivity.
Defined.

(** C6: the reading that every report is the rounding of the exact
    percentage fails. After 29 of 200 bytes the exact percentage is 14.5,
    which rounds to 15; the double nearest to 29/200, times 100, is the
    double below 14.5, and the callback receives 14. *)
Lemma download_progress_misses_a_half :
  progress_calls
    (io (fst (Whisper.downloadModel Samples.net_29_of_200 Samples.svc "tiny"
                Samples.empty_world)))
  = [14; 100]%Z
  /\ ~ Whisper.reports_exact_percentages Samples.net_29_of_200 Samples.svc "tiny"
        Samples.empty_world.
Proof.
  split; [vm_compute; reflexivity|].
  intros Hexact.
  specialize (Hexact Samples.tiny_url None (Some "200")
                [Samples.bytes 29; Samples.bytes 171] 200%Z
                eq_refl eq_refl eq_refl eq_refl).
  vm_compute in Hexact. discriminate.
Qed.

(** C3, at the failing input. The catalog URL of [tiny] redirects (302)
    and the redirect target answers 404: [downloadModel] rejects with the
    status in the message and nothing is at the destination, but the
    temporary file that [downloadFromUrl] created is still on disk. *)
Theorem redirected_failure_leaves_temp_file :
  let r := Whisper.downloadModel Samples.net_redirect_404 Samples.svc "tiny"
             Samples.empty_world in
  snd r = Some (Rejected "Failed to download: HTTP 404")
  /\ files (fst r) !! "/models/ggml-tiny.bin" = None
  /\ files (fst r) !! "/models/ggml-tiny.bin.tmp" = Some EmptyString
  /\ io (fst r)
     = [ CreateWriteStream "/models/ggml-tiny.bin.tmp";
         HttpsGet (JsString Samples.tiny_url);
         Unlink "/models/ggml-tiny.bin.tmp";
         CreateWriteStream "/models/ggml-tiny.bin.tmp";
         HttpsGet (JsString "https://cdn.example/ggml-tiny.bin") ].
Proof. vm_compute. repeat split; reflexivity. Qed.

(** C4, at the failing input. [constructor] is no key of the catalog, yet
    [MODEL_DOWNLOAD_URLS["constructor"]] is the function every object
    inherits, which is truthy: the guard lets the call through, and whatever
    the network does, the call has created the temporary write stream and
    issued [https.get]. *)
Theorem inherited_name_passes_the_guard :
  Whisper.MODEL_DOWNLOAD_URLS !! "constructor" = None
  /\ forall (net : PropValue -> HttpReply) (svc : Whisper.WhisperService) (w : World),
       exists more,
         io (fst (Whisper.downloadModel net svc "constructor" w))
         = io w ++ CreateWriteStream (Whisper.getModelPath svc "constructor" +:+ ".tmp")
             :: HttpsGet (JsInherited "constructor") :: more.
Proof.
  split; [reflexivity|]. intros net svc w.
  apply (downloadModel_first_effects net svc "constructor" w). reflexivity.
Qed.

(** ** Transcription *)
Section TranscribeFacts.
Import Whisper.
Variable parseWhisperOutput : string -> TranscriptionResult.
Variable runs : string -> bool.

Local Abbreviation transcribe_begin := (Whisper.transcribe_begin runs).
Local Abbreviation transcribe := (Whisper.transcribe parseWhisperOutput runs).
Local Abbreviation on_event := (Whisper.on_event parseWhisperOutput).
Local Abbreviation on_close := (Whisper.on_close parseWhisperOutput).

Lemma cleanup_files (job : Job) (w : World) :
  files (cleanup job w)
  = match job_convertedFile job with
    | Some convertedFile => delete convertedFile (files w)
    | None => files w
    end.
Proof.
  unfold cleanup. destruct (job_convertedFile job) as [f|]; [|reflexivity].
  unfold existsSync. destruct (bool_decide_reflect (is_Some (files w !! f))) as [Hin|Hout].
  - reflexivity.
  - symmetry. apply delete_id. now apply eq_None_not_Some.
Qed.

Lemma cleanup_progress (job : Job) (w : World) :
  progress_calls (io (cleanup job w)) = progress_calls (io w).
Proof.
  unfold cleanup. destruct (job_convertedFile job) as [f|]; [|reflexivity].
  destruct (existsSync f w); [|reflexivity]. now quiet_io.
Qed.

(** Only the stdout handler reports progress. *)
Lemma on_event_progress (job : Job) (e : ProcEvent) (r : Running) :
  progress_calls (io (r_world (on_event job e r)))
  = progress_calls (io (r_world r)) ++ option_list (forwarded e).
Proof.
  destruct e as [data|data|path content|code|msg]; cbn [Whisper.on_event forwarded].
  - destruct (progressMatch data) as [n|]; cbn [option_list].
    + cbn [with_world r_world]. now quiet_io.
    + now rewrite app_nil_r.
  - cbn. now rewrite app_nil_r.
  - cbn. now rewrite app_nil_r.
  - cbn [option_list]. rewrite app_nil_r. unfold Whisper.on_close.
    destruct (bool_decide (code = Some 0%Z)); cbn [negb r_world];
      [|apply cleanup_progress].
    destruct (files (cleanup job (r_world r)) !! (job_outputBase job +:+ ".json")).
    { cbn [r_world]. quiet_io. apply cleanup_progress. }
    destruct (files (cleanup job (r_world r)) !! (job_outputBase job +:+ ".txt")).
    { cbn [r_world]. quiet_io. apply cleanup_progress. }
    cbn [r_world]. apply cleanup_progress.
  - cbn [option_list on_error r_world]. rewrite app_nil_r. apply cleanup_progress.
Qed.

Lemma events_progress (job : Job) (events : list ProcEvent) (r : Running) :
  progress_calls (io (r_world (fold_left (fun r e => on_event job e r) events r)))
  = progress_calls (io (r_world r)) ++ omap forwarded events.
Proof.
  revert r. induction events as [|e events IH]; intros r.
  - cbn. now rewrite app_nil_r.
  - cbn [fold_left]. rewrite IH, on_event_progress, <- app_assoc. f_equal.
    cbn [omap]. unfold forwarded at 2. destruct e; try reflexivity.
    cbn. now destruct (progressMatch data).
Qed.

Lemma convert_if_needed_inr (svc : WhisperService) (filePath : string)
    (conv : ConvReply) (w wc : World) (convertedFile : option string) :
  convert_if_needed runs svc filePath conv w = (wc, inr convertedFile) ->
  (needsConversion filePath = false /\ wc = w /\ convertedFile = None)
  \/ (needsConversion filePath = true
      /\ exists out,
          convertedFile = Some out
          /\ io wc = io w ++ [Spawn (next_pid w) (findFfmpegBinary runs w)
                                ["-i"; filePath; "-ar"; "16000"; "-ac"; "1";
                                 "-c:a"; "pcm_s16le"; "-y"; out]]
          /\ next_pid wc = Datatypes.S (next_pid w)).
Proof.
  unfold convert_if_needed.
  destruct (needsConversion filePath).
  - intros H. right. split; [reflexivity|].
    unfold convertToWav in H. destruct conv as [code output stderr|msg].
    + destruct (bool_decide (code = Some 0%Z) && existsSync _ _)%bool;
        [|discriminate].
      injection H as <- <-. eexists. split; [reflexivity|].
      destruct output; cbn; auto.
    + discriminate.
  - intros H. injection H as <- <-. left. auto.
Qed.

Lemma convert_if_needed_progress (svc : WhisperService) (filePath : string)
    (conv : ConvReply) (w : World) :
  progress_calls (io (fst (convert_if_needed runs svc filePath conv w)))
  = progress_calls (io w).
Proof.
  unfold convert_if_needed. destruct (needsConversion filePath); [|reflexivity].
  unfold convertToWav. destruct conv as [code output stderr|msg].
  - destruct (bool_decide (code = Some 0%Z) && existsSync _ _)%bool;
      destruct output; cbn [fst spawn snd io set_files];
      rewrite progress_calls_app; cbn; now rewrite app_nil_r.
  - cbn [fst spawn snd io]. rewrite progress_calls_app; cbn; now rewrite app_nil_r.
Qed.

(** A call that spawned the recognition process, taken apart. *)
Lemma transcribe_begin_inr (svc svc1 : WhisperService) (filePath : string)
    (options : TranscriptionOptions) (conv : ConvReply) (w w1 : World) (job : Job) :
  transcribe_begin svc filePath options conv w = (svc1, w1, inr job) ->
  exists wc,
    convert_if_needed runs svc filePath conv w = (wc, inr (job_convertedFile job))
    /\ spawn_recognition svc filePath
         (getModelPath svc (or_else (opt_model options) "tiny"))
         options (job_convertedFile job) wc
       = (svc1, w1, job).
Proof.
  unfold Whisper.transcribe_begin.
  destruct (existsSync (getModelPath svc (or_else (opt_model options) "tiny")) w);
    cbn [negb]; [|discriminate].
  destruct (existsSync filePath w); cbn [negb]; [|discriminate].
  destruct (convert_if_needed runs svc filePath conv w) as [wc [msg|cf]];
    [discriminate|].
  unfold spawn_recognition, spawn. intros H. injection H as <- <- <-.
  exists wc. split; reflexivity.
Qed.

Lemma transcribe_begin_progress (svc : WhisperService) (filePath : string)
    (options : TranscriptionOptions) (conv : ConvReply) (w : World) :
  progress_calls (io (snd (fst (transcribe_begin svc filePath options conv w))))
  = progress_calls (io w).
Proof.
  unfold Whisper.transcribe_begin.
  destruct (existsSync (getModelPath svc (or_else (opt_model options) "tiny")) w);
    cbn [negb]; [|reflexivity].
  destruct (existsSync filePath w); cbn [negb]; [|reflexivity].
  pose proof (convert_if_needed_progress svc filePath conv w) as Hconv.
  destruct (convert_if_needed runs svc filePath conv w) as [wc [msg|cf]];
    cbn [fst snd] in *; [exact Hconv|].
  unfold spawn_recognition, spawn. cbn [fst snd io].
  rewrite progress_calls_app, Hconv. cbn. now rewrite app_nil_r.
Qed.

(** The progress reports of a whole call. *)
Lemma transcribe_progress (svc : WhisperService) (filePath : string)
    (options : TranscriptionOptions) (conv : ConvReply)
    (events : list ProcEvent) (w : World) :
  progress_calls (io (r_world (transcribe svc filePath options conv events w)))
  = progress_calls (io w)
    ++ match snd (transcribe_begin svc filePath options conv w) with
       | inr _ => omap forwarded events
       | inl _ => []
       end.
Proof.
  unfold Whisper.transcribe.
  pose proof (transcribe_begin_progress svc filePath options conv w) as Hbegin.
  destruct (transcribe_begin svc filePath options conv w) as [[svc1 w1] [msg|job]];
    cbn [fst snd r_world] in *.
  - now rewrite app_nil_r.
  - rewrite events_progress. cbn [r_world]. now rewrite Hbegin.
Qed.

(** Output of the process leaves files, registry and promise alone. *)
Lemma outputs_keep (job : Job) (outputs : list ProcEvent) (r : Running) :
  forallb is_output outputs = true ->
  let r' := fold_left (fun r e => on_event job e r) outputs r in
  files (r_world r') = files (r_world r)
  /\ r_promise r' = r_promise r
  /\ r_svc r' = r_svc r.
Proof.
  revert r. induction outputs as [|e outputs IH]; intros r Hall; [cbn; auto|].
  cbn [forallb] in Hall. apply andb_prop in Hall as [He Hall].
  cbn [fold_left]. cbv zeta.
  destruct (IH (on_event job e r) Hall) as (Hf & Hp & Hs).
  rewrite Hf, Hp, Hs.
  destruct e as [data|data| | |]; try discriminate; cbn [Whisper.on_event].
  - destruct (progressMatch data); auto.
  - auto.
Qed.

(** After the close or the error handler the converted file is gone. *)
Lemma settling_event_cleans (job : Job) (e : ProcEvent) (r : Running) (out : string) :
  settles e = true ->
  job_convertedFile job = Some out ->
  files (r_world (on_event job e r)) !! out = None.
Proof.
  intros He Hout.
  assert (Hclean : files (cleanup job (r_world r)) !! out = None)
    by (rewrite cleanup_files, Hout; apply lookup_delete_eq).
  destruct e as [| | |code|msg]; try discriminate; cbn [Whisper.on_event].
  - unfold Whisper.on_close.
    destruct (bool_decide (code = Some 0%Z)); cbn [negb r_world]; [|exact Hclean].
    destruct (files (cleanup job (r_world r)) !! (job_outputBase job +:+ ".json")).
    { cbn [r_world unlinkSync emit set_files files].
      apply lookup_delete_None. now right. }
    destruct (files (cleanup job (r_world r)) !! (job_outputBase job +:+ ".txt")).
    { cbn [r_world unlinkSync emit set_files files].
      apply lookup_delete_None. now right. }
    exact Hclean.
  - cbn [on_error r_world]. exact Hclean.
Qed.

Lemma fold_left_snoc {A B : Type} (f : A -> B -> A) (l : list B) (x : B) (a : A) :
  fold_left f (l ++ [x]) a = f (fold_left f l a) x.
Proof. now rewrite fold_left_app. Qed.

(** What a call that reaches the recognition process has done. *)
Lemma transcribe_begin_trace (svc svc1 : WhisperService) (filePath : string)
    (options : TranscriptionOptions) (conv : ConvReply) (w w1 : World) (job : Job) :
  transcribe_begin svc filePath options conv w = (svc1, w1, inr job) ->
  (job_convertedFile job = None <-> needsConversion filePath = false)
  /\ io w1
     = io w
       ++ match job_convertedFile job with
          | Some out =>
              [Spawn (next_pid w) (findFfmpegBinary runs w)
                 ["-i"; filePath; "-ar"; "16000"; "-ac"; "1";
                  "-c:a"; "pcm_s16le"; "-y"; out]]
          | None => []
          end
       ++ [Spawn (job_pid job) (binaryPath svc)
             (recognition_args svc
                (getModelPath svc (or_else (opt_model options) "tiny"))
                (default filePath (job_convertedFile job))
                (job_outputBase job) options)]
  /\ activeTranscriptions svc1 = <[filePath := job_pid job]> (activeTranscriptions svc)
  /\ (next_pid w <= job_pid job)%nat
  /\ job_language job = opt_language options
  /\ job_filePath job = filePath.
Proof.
  intros Hbegin. destruct (transcribe_begin_inr _ _ _ _ _ _ _ _ Hbegin) as (wc & Hconv & Hspawn).
  unfold spawn_recognition, spawn in Hspawn. injection Hspawn as <- <- Hjob.
  apply convert_if_needed_inr in Hconv.
  destruct Hconv as [(Hneeds & -> & Hcf)|(Hneeds & out & Hcf & Hio & Hpid)].
  - rewrite Hcf in *. subst job. cbn [job_convertedFile job_pid job_outputBase
      job_language job_filePath default io app activeTranscriptions set_active].
    repeat split; auto.
  - rewrite Hcf in *. subst job. cbn [job_convertedFile job_pid job_outputBase
      job_language job_filePath default io app activeTranscriptions set_active].
    rewrite Hio, Hpid, Hneeds. rewrite <- app_assoc.
    repeat split; auto; try discriminate.
Qed.

(** The registry plays no part in the synchronous part of [transcribe]. *)
Lemma transcribe_begin_registry (svc : WhisperService) (m : gmap string nat)
    (filePath : string) (options : TranscriptionOptions) (conv : ConvReply) (w : World) :
  snd (fst (transcribe_begin (set_active m svc) filePath options conv w))
  = snd (fst (transcribe_begin svc filePath options conv w))
  /\ snd (transcribe_begin (set_active m svc) filePath options conv w)
     = snd (transcribe_begin svc filePath options conv w).
Proof.
  unfold Whisper.transcribe_begin.
  change (getModelPath (set_active m svc)) with (getModelPath svc).
  destruct (existsSync (getModelPath svc (or_else (opt_model options) "tiny")) w);
    cbn [negb]; [|split; reflexivity].
  destruct (existsSync filePath w); cbn [negb]; [|split; reflexivity].
  change (convert_if_needed runs (set_active m svc)) with (convert_if_needed runs svc).
  destruct (convert_if_needed runs svc filePath conv w) as [wc [msg|cf]];
    split; reflexivity.
Qed.

(** C2, amended. A second [transcribe] of a file path that has an active
    job is not refused. The registry plays no part in what the call does:
    it leaves the world and settles as the same call would with no job
    registered for the path. Whenever that call gets to the recognition
    process, so does the second one, with the same process, and it puts
    the new handle in the registry in place of the old one, leaving the
    other entries as they were. The process of the first job is not
    killed. *)
Theorem second_transcription_supersedes (svc : WhisperService)
    (filePath : string) (options : TranscriptionOptions) (conv : ConvReply)
    (w : World) (pid : nat) :
  activeTranscriptions svc !! filePath = Some pid ->
  snd (fst (transcribe_begin svc filePath options conv w))
  = snd (fst (transcribe_begin
                (set_active (delete filePath (activeTranscriptions svc)) svc)
                filePath options conv w))
  /\ snd (transcribe_begin svc filePath options conv w)
     = snd (transcribe_begin
              (set_active (delete filePath (activeTranscriptions svc)) svc)
              filePath options conv w)
  /\ forall (svc0 : WhisperService) (w1 : World) (job : Job),
       transcribe_begin
         (set_active (delete filePath (activeTranscriptions svc)) svc)
         filePath options conv w = (svc0, w1, inr job) ->
       exists svc1,
         transcribe_begin svc filePath options conv w = (svc1, w1, inr job)
         /\ activeTranscriptions svc1 !! filePath = Some (job_pid job)
         /\ (forall other, other <> filePath ->
               activeTranscriptions svc1 !! other = activeTranscriptions svc !! other)
         /\ (next_pid w <= job_pid job)%nat
         /\ (forall p, In (Kill p) (io w1) -> In (Kill p) (io w)).
Proof.
  intros Hbusy.
  destruct (transcribe_begin_registry svc
              (delete filePath (activeTranscriptions svc)) filePath options conv w)
    as [Hw Hout].
  split; [now rewrite Hw|]. split; [now rewrite Hout|].
  intros svc0 w1 job Hidle. rewrite Hidle in Hw, Hout. cbn [fst snd] in Hw, Hout.
  destruct (transcribe_begin svc filePath options conv w) as [[svc1 w1'] out] eqn:Hbegin.
  cbn [fst snd] in Hw, Hout. subst w1' out.
  exists svc1. split; [reflexivity|].
  destruct (transcribe_begin_trace _ _ _ _ _ _ _ _ Hbegin)
    as (_ & Hio & Hreg & Hpid & _ & _).
  rewrite Hreg. split; [apply lookup_insert_eq|].
  split; [intros other Hne; now apply lookup_insert_ne|].
  split; [exact Hpid|].
  intros p Hin. rewrite Hio in Hin.
  apply in_app_or in Hin as [Hin|Hin]; [exact Hin|].
  apply in_app_or in Hin as [Hin|Hin].
  - destruct (job_convertedFile job); cbn in Hin; [|contradiction].
    destruct Hin as [Hin|[]]. discriminate.
  - destruct Hin as [Hin|[]]. discriminate.
Qed.


(** C9. When the recognition process, having printed what it printed,
    exits with code 0 and neither the [.json] nor the [.txt] output file
    exists, [transcribe] resolves, with the placeholder text, no segment,
    the requested language or [unknown], and duration 0. *)
Theorem exit_zero_without_output_resolves_degraded (svc svc1 : WhisperService)
    (filePath : string) (options : TranscriptionOptions) (conv : ConvReply)
    (outputs : list ProcEvent) (w w1 : World) (job : Job) :
  transcribe_begin svc filePath options conv w = (svc1, w1, inr job) ->
  forallb is_output outputs = true ->
  files w1 !! (job_outputBase job +:+ ".json") = None ->
  files w1 !! (job_outputBase job +:+ ".txt") = None ->
  r_promise (transcribe svc filePath options conv (outputs ++ [Close (Some 0%Z)]) w)
  = Some (Resolved
      {| text := "Transcription completed but no output file found. Check if the audio format is supported.";
         segments := [];
         language := or_else (opt_language options) "unknown";
         duration := 0 |}).
Proof.
  intros Hbegin Houtputs Hjson Htxt.
  destruct (transcribe_begin_trace _ _ _ _ _ _ _ _ Hbegin)
    as (_ & _ & _ & _ & Hlang & _).
  unfold Whisper.transcribe. rewrite Hbegin, fold_left_snoc.
  destruct (outputs_keep job outputs
              {| r_svc := svc1; r_world := w1; r_stderr := EmptyString;
                 r_promise := None |} Houtputs) as (Hfiles & Hpromise & _).
  cbn [r_world r_promise] in Hfiles, Hpromise.
  cbn [Whisper.on_event]. unfold Whisper.on_close.
  rewrite bool_decide_true by reflexivity. cbn [negb].
  assert (Hgone : forall path, files w1 !! path = None ->
            files (cleanup job (r_world
              (fold_left (fun r e => on_event job e r) outputs
                 {| r_svc := svc1; r_world := w1; r_stderr := EmptyString;
                    r_promise := None |}))) !! path = None).
  { intros path Hpath. rewrite cleanup_files, Hfiles.
    destruct (job_convertedFile job); [|exact Hpath].
    apply lookup_delete_None. now right. }
  rewrite (Hgone _ Hjson), (Hgone _ Htxt). cbn [r_promise].
  rewrite Hpromise, Hlang. reflexivity.
Qed.
End TranscribeFacts.

(** C2: the reading that a busy file path is refused fails. With a first
    transcription of [/media/talk.mp3] running as process 0, a second call
    spawns process 1 and takes the registry entry. *)
Lemma second_transcription_is_not_refused :
  ~ Whisper.refuses_second_job Samples.nothing_runs Samples.busy_svc "/media/talk.mp3"
      Samples.no_options Samples.converted Samples.busy_studio.
Proof.
  unfold Whisper.refuses_second_job. intros Hrefuses.
  destruct Hrefuses as [msg Hmsg]; [vm_compute; eauto|].
  apply (f_equal snd) in Hmsg. vm_compute in Hmsg. discriminate.
Qed.

(** C2 on a second call for [/media/talk.mp3] while process 0 runs. *)
Lemma second_transcription_witness :
  Whisper.activeTranscriptions Samples.busy_svc !! "/media/talk.mp3" = Some 0%nat
  /\ exists svc1 w1 job,
       Whisper.transcribe_begin Samples.nothing_runs Samples.busy_svc
         "/media/talk.mp3" Samples.no_options Samples.converted Samples.busy_studio
       = (svc1, w1, inr job)
       /\ Whisper.job_pid job = 1%nat
       /\ Whisper.activeTranscriptions svc1 !! "/media/talk.mp3" = Some 1%nat.
Proof.
  pose (idle := Whisper.set_active
                  (delete "/media/talk.mp3"
                     (Whisper.activeTranscriptions Samples.busy_svc))
                  Samples.busy_svc).
  pose (b := Whisper.transcribe_begin Samples.nothing_runs idle
               "/media/talk.mp3" Samples.no_options Samples.converted
               Samples.busy_studio).
  pose (job := {| Whisper.job_filePath := "/media/talk.mp3";
                  Whisper.job_convertedFile := None;
                  Whisper.job_outputBase := "/tmp/whisper-1700000000500";
                  Whisper.job_language := None;
                  Whisper.job_pid := 1 |}).
  assert (Hb : Whisper.transcribe_begin Samples.nothing_runs idle
                 "/media/talk.mp3" Samples.no_options Samples.converted Samples.busy_studio
               = (fst (fst b), snd (fst b), inr job))
    by (vm_compute; reflexivity).
  destruct (second_transcription_supersedes Samples.nothing_runs Samples.busy_svc
              "/media/talk.mp3" Samples.no_options Samples.converted
              Samples.busy_studio 0%nat eq_refl)
    as (_ & _ & Hsecond).
  destruct (Hsecond (fst (fst b)) (snd (fst b)) job Hb) as (svc1 & Hbegin & Hreg & _).
  split; [reflexivity|].
  exists svc1, (snd (fst b)), job. split; [exact Hbegin|]. split; [reflexivity|exact Hreg].
Defined.


(** C9 on an [.mp3] file whose recognition writes nothing. *)
Lemma exit_zero_without_output_witness :
  Whisper.r_promise
    (Whisper.transcribe Samples.raw_output Samples.nothing_runs Samples.svc
       "/media/talk.mp3" Samples.no_options Samples.converted
       ([Whisper.Stdout "progress = 100%"] ++ [Whisper.Close (Some 0%Z)]) Samples.studio)
  = Some (Resolved
      {| Whisper.text := "Transcription completed but no output file found. Check if the audio format is supported.";
         Whisper.segments := [];
         Whisper.language := "unknown";
         Whisper.duration := 0 |}).
Proof.
  pose (b := Whisper.transcribe_begin Samples.nothing_runs Samples.svc
               "/media/talk.mp3" Samples.no_options Samples.converted Samples.studio).
  pose (job := {| Whisper.job_filePath := "/media/talk.mp3";
                  Whisper.job_convertedFile := None;
                  Whisper.job_outputBase := "/tmp/whisper-1700000000000";
                  Whisper.job_language := None;
                  Whisper.job_pid := 0 |}).
  assert (Hb : Whisper.transcribe_begin Samples.nothing_runs Samples.svc
                 "/media/talk.mp3" Samples.no_options Samples.converted Samples.studio
               = (fst (fst b), snd (fst b), inr job))
    by (vm_compute; reflexivity).
  apply (exit_zero_without_output_resolves_degraded Samples.raw_output
           Samples.nothing_runs Samples.svc (fst (fst b)) "/media/talk.mp3"
           Samples.no_options Samples.converted [Whisper.Stdout "progress = 100%"]
           Samples.studio (snd (fst b)) job Hb);
    vm_compute; reflexivity.
Defined.

(** C5, amended. The percents one [downloadModel] call hands to the
    progress callback are non-decreasing. Transcription progress is not
    ordered by the program: the percents [transcribe] hands to the callback
    are exactly the matches of [progress = N%] in the stdout chunks of the
    recognition process, in order of arrival, none dropped. *)
Theorem progress_order_by_operation :
  (forall (net : PropValue -> HttpReply) (svc : Whisper.WhisperService)
          (modelName : string) (w : World),
      exists ps,
        progress_calls (io (fst (Whisper.downloadModel net svc modelName w)))
        = progress_calls (io w) ++ ps
        /\ Sorted Z.le ps)
  /\ (forall (parseWhisperOutput : string -> Whisper.TranscriptionResult)
             (runs : string -> bool) (svc : Whisper.WhisperService) (filePath : string)
             (options : Whisper.TranscriptionOptions) (conv : Whisper.ConvReply)
             (events : list Whisper.ProcEvent) (w : World),
        progress_calls
          (io (Whisper.r_world
                 (Whisper.transcribe parseWhisperOutput runs svc filePath options conv
                    events w)))
        = progress_calls (io w)
          ++ match snd (Whisper.transcribe_begin runs svc filePath options conv w) with
             | inr _ => omap Whisper.forwarded events
             | inl _ => []
             end).
Proof.
  split.
  - intros net svc modelName w.
    destruct (downloadModel_progress net svc modelName w)
      as (ps & Hps & [->|(cl & body & ->)]); eexists; (split; [exact Hps|]).
    + constructor.
    + apply reported_sorted.
  - intros. apply transcribe_progress.
Qed.

(** C5: the reading that every delivered sequence is non-decreasing fails
    for transcription. The recognition process prints 50 and then 10; both
    reach the callback, in that order. *)
Lemma transcription_progress_can_fall :
  ~ Sorted Z.le
      (progress_calls
         (io (Whisper.r_world
                (Whisper.transcribe Samples.raw_output Samples.nothing_runs Samples.svc
                   "/media/talk.mp3" Samples.no_options Samples.converted
                   Samples.falling_progress Samples.studio)))).
Proof.
  assert (Hcalls : progress_calls
            (io (Whisper.r_world
                   (Whisper.transcribe Samples.raw_output Samples.nothing_runs Samples.svc
                      "/media/talk.mp3" Samples.no_options Samples.converted
                      Samples.falling_progress Samples.studio)))
          = [50; 10]%Z) by (vm_compute; reflexivity).
  rewrite Hcalls. intros Hsorted.
  inversion Hsorted as [|? ? _ Hhd]; subst.
  inversion Hhd as [|? ? Hle]; subst. lia.
Qed.

(** ** The server facades *)
Section FacadeFacts.
Import Facade.
Variable probe : string -> option string.

Lemma spawned_app (a b : list ServerIO) :
  spawned (a ++ b) = spawned a ++ spawned b.
Proof.
  induction a as [|e a IH]; [reflexivity|].
  destruct e; cbn [app spawned]; now rewrite ?IH.
Qed.

(** C1, amended. For both facades, [startServer] reuses the backing
    process only when the handle is set and the ready flag is true; then
    it returns [true] and spawns nothing. A call made while a start is in
    flight (handle set, flag not yet true) spawns one more process and
    puts its handle in place of the old one, whose process is not killed:
    two calls in flight leave two processes. *)
Theorem startServer_spawns_unless_ready (svc : Service) (i : Install) (h : Host) :
  (in_flight h ->
   snd (startServer probe svc i h) = Pending (next h)
   /\ spawned (log (fst (startServer probe svc i h))) = spawned (log h) ++ [next h]
   /\ serverProcess (server (fst (startServer probe svc i h))) = Some (next h)
   /\ in_flight (fst (startServer probe svc i h))
   /\ (forall p, In (KillServer p) (log (fst (startServer probe svc i h))) ->
                 In (KillServer p) (log h)))
  /\ (is_Some (serverProcess (server h)) -> isServerReady (server h) = true ->
      startServer probe svc i h = (h, AlreadyRunning)).
Proof.
  split.
  - intros [Hhandle Hready]. unfold startServer.
    rewrite Hready, andb_false_r. cbn [fst snd log server serverProcess isServerReady].
    split; [reflexivity|]. split; [now rewrite spawned_app|].
    split; [reflexivity|]. split; [split; [eauto|reflexivity]|].
    intros p Hin. apply in_app_or in Hin as [Hin|[Hin|[]]]; [exact Hin|discriminate].
  - intros Hhandle Hready. unfold startServer.
    now rewrite Hready, bool_decide_true by exact Hhandle.
Qed.
End FacadeFacts.

(** C1: the reading that a second call reuses a start in flight fails for
    both facades. Two calls in a row on a fresh service object spawn two
    processes. *)
Lemma second_start_spawns_again :
  ~ Facade.second_call_reuses Samples.system_python Facade.TTS Samples.install
  /\ ~ Facade.second_call_reuses Samples.system_python Facade.VideoAnalyzer Samples.install.
Proof.
  assert (Hflight : forall svc,
            Facade.in_flight
              (fst (Facade.startServer Samples.system_python svc Samples.install
                      Facade.fresh)))
    by (intros svc; split; [eexists|]; reflexivity).
  split; intros Hone; specialize (Hone (Hflight _));
    vm_compute in Hone; discriminate.
Qed.

(** C1 on two calls in a row on a fresh [TTSService]. *)
Lemma startServer_in_flight_witness :
  Facade.in_flight
    (fst (Facade.startServer Samples.system_python Facade.TTS Samples.install
            Facade.fresh))
  /\ Facade.spawned
       (Facade.log
          (fst (Facade.startServer Samples.system_python Facade.TTS Samples.install
                  (fst (Facade.startServer Samples.system_python Facade.TTS
                          Samples.install Facade.fresh)))))
     = [0; 1]%nat.
Proof.
  pose (h1 := fst (Facade.startServer Samples.system_python Facade.TTS Samples.install
                     Facade.fresh)).
  assert (Hflight : Facade.in_flight h1) by (split; [eexists|]; reflexivity).
  split; [exact Hflight|].
  destruct (startServer_spawns_unless_ready Samples.system_python Facade.TTS
              Samples.install h1) as [Hspawn _].
  destruct (Hspawn Hflight) as (_ & Hspawned & _).
  unfold h1 in Hspawned. rewrite Hspawned. reflexivity.
Defined.

(** ** More on transcription: rejections, the registry, cancellation *)
Section TranscribeLifecycle.
Import Whisper.
Variable parseWhisperOutput : string -> TranscriptionResult.
Variable runs : string -> bool.

Local Abbreviation transcribe_begin := (Whisper.transcribe_begin runs).
Local Abbreviation transcribe := (Whisper.transcribe parseWhisperOutput runs).
Local Abbreviation on_event := (Whisper.on_event parseWhisperOutput).

(** The closure variable [stderr] collects every stderr chunk. *)
Lemma events_stderr (job : Job) (events : list ProcEvent) (r : Running) :
  r_stderr (fold_left (fun r e => on_event job e r) events r)
  = r_stderr r +:+ stderr_of events.
Proof.
  revert r. induction events as [|e events IH]; intros r.
  - cbn. now rewrite string_app_nil_r.
  - cbn [fold_left]. rewrite IH.
    destruct e as [data|data|path content|code|msg]; cbn [Whisper.on_event stderr_of].
    + now destruct (progressMatch data).
    + cbn [r_stderr]. now rewrite string_app_assoc.
    + reflexivity.
    + unfold Whisper.on_close.
      destruct (bool_decide (code = Some 0%Z)); cbn [negb]; [|reflexivity].
      destruct (files _ !! _); [reflexivity|].
      destruct (files _ !! _); reflexivity.
    + reflexivity.
Qed.

(** Until the close or the error handler runs, registry and promise are
    as [transcribe] left them. *)
Lemma unsettled_keep (job : Job) (events : list ProcEvent) (r : Running) :
  existsb settles events = false ->
  r_promise (fold_left (fun r e => on_event job e r) events r) = r_promise r
  /\ r_svc (fold_left (fun r e => on_event job e r) events r) = r_svc r
  /\ io (r_world (fold_left (fun r e => on_event job e r) events r))
     = io (r_world r) ++ map OnProgress (omap forwarded events).
Proof.
  revert r. induction events as [|e events IH]; intros r Hquiet.
  - cbn. now rewrite app_nil_r.
  - cbn [existsb] in Hquiet. apply orb_false_elim in Hquiet as [He Hquiet].
    cbn [fold_left]. destruct (IH (on_event job e r) Hquiet) as (Hp & Hs & Hio).
    rewrite Hp, Hs, Hio.
    destruct e as [data|data|path content| |]; try discriminate;
      cbn [Whisper.on_event omap forwarded].
    + destruct (progressMatch data) as [n|] eqn:E; cbn; rewrite E; cbn;
        rewrite <- ?app_assoc; auto.
    + cbn. auto.
    + cbn. auto.
Qed.

(** The close and the error handler unregister the file path, whoever
    holds the entry. *)
Lemma settling_event_unregisters (job : Job) (e : ProcEvent) (r : Running) :
  settles e = true ->
  activeTranscriptions (r_svc (on_event job e r))
  = delete (job_filePath job) (activeTranscriptions (r_svc r)).
Proof.
  intros He. destruct e as [| | |code|msg]; try discriminate; cbn [Whisper.on_event].
  - unfold Whisper.on_close.
    destruct (bool_decide (code = Some 0%Z)); cbn [negb]; [|reflexivity].
    destruct (files _ !! _); [reflexivity|].
    destruct (files _ !! _); reflexivity.
  - reflexivity.
Qed.

Lemma events_registry (job : Job) (events : list ProcEvent) (r : Running) :
  activeTranscriptions (r_svc (fold_left (fun r e => on_event job e r) events r))
  = activeTranscriptions (r_svc r)
  \/ activeTranscriptions (r_svc (fold_left (fun r e => on_event job e r) events r))
     = delete (job_filePath job) (activeTranscriptions (r_svc r)).
Proof.
  revert r. induction events as [|e events IH]; intros r; [now left|].
  cbn [fold_left]. destruct (settles e) eqn:He.
  - right. destruct (IH (on_event job e r)) as [H|H]; rewrite H;
      rewrite (settling_event_unregisters job e r He); [reflexivity|].
    apply delete_delete_eq.
  - destruct (IH (on_event job e r)) as [H|H]; rewrite H;
      [left|right]; destruct e as [data| | | |]; try discriminate;
      cbn [Whisper.on_event]; try reflexivity;
      destruct (progressMatch data); reflexivity.
Qed.

Lemma convert_if_needed_inl (svc : WhisperService) (filePath : string)
    (conv : ConvReply) (w wc : World) (msg : string) :
  convert_if_needed runs svc filePath conv w = (wc, inl msg) ->
  needsConversion filePath = true
  /\ (exists m, msg = "Failed to convert audio file: " +:+ m)
  /\ io wc = io w ++ [Spawn (next_pid w) (findFfmpegBinary runs w)
                        ["-i"; filePath; "-ar"; "16000"; "-ac"; "1";
                         "-c:a"; "pcm_s16le"; "-y";
                         path_join (tempDir svc)
                           ("whisper-converted-" +:+ pretty (now w) +:+ ".wav")]].
Proof.
  unfold convert_if_needed.
  destruct (needsConversion filePath); [|discriminate].
  intros H. split; [reflexivity|].
  unfold convertToWav in H. destruct conv as [code output stderr|m].
  - destruct (bool_decide (code = Some 0%Z) && existsSync _ _)%bool;
      [discriminate|].
    injection H as <- <-. split; [eauto|]. destruct output; reflexivity.
  - injection H as <- <-. split; [eauto|]. reflexivity.
Qed.

(** X1. A [transcribe] call that throws before the recognition process
    is spawned is rejected with the thrown message and leaves the service
    as it was. It threw because the model file is missing, or the input
    file is missing (in both cases nothing was done), or the conversion
    failed (and then the one thing done is the spawn of [ffmpeg]). *)
Theorem rejected_transcription_never_starts (svc : WhisperService)
    (filePath : string) (options : TranscriptionOptions) (conv : ConvReply)
    (events : list ProcEvent) (w : World) (msg : string) :
  snd (transcribe_begin svc filePath options conv w) = inl msg ->
  r_promise (transcribe svc filePath options conv events w) = Some (Rejected msg)
  /\ r_svc (transcribe svc filePath options conv events w) = svc
  /\ ((existsSync (getModelPath svc (or_else (opt_model options) "tiny")) w = false
       /\ msg = "Model " +:+ or_else (opt_model options) "tiny"
                +:+ " is not downloaded. Please download it first."
       /\ r_world (transcribe svc filePath options conv events w) = w)
      \/ (existsSync filePath w = false
          /\ msg = "File not found: " +:+ filePath
          /\ r_world (transcribe svc filePath options conv events w) = w)
      \/ (needsConversion filePath = true
          /\ (exists m, msg = "Failed to convert audio file: " +:+ m)
          /\ io (r_world (transcribe svc filePath options conv events w))
             = io w ++ [Spawn (next_pid w) (findFfmpegBinary runs w)
                          ["-i"; filePath; "-ar"; "16000"; "-ac"; "1";
                           "-c:a"; "pcm_s16le"; "-y";
                           path_join (tempDir svc)
                             ("whisper-converted-" +:+ pretty (now w) +:+ ".wav")]])).
Proof.
  unfold Whisper.transcribe, Whisper.transcribe_begin.
  destruct (existsSync (getModelPath svc (or_else (opt_model options) "tiny")) w);
    cbn [negb].
  2:{ cbn [snd]. intros [= <-]. cbn [r_promise r_svc r_world].
      split; [reflexivity|]. split; [reflexivity|]. left. auto. }
  destruct (existsSync filePath w); cbn [negb].
  2:{ cbn [snd]. intros [= <-]. cbn [r_promise r_svc r_world].
      split; [reflexivity|]. split; [reflexivity|]. right. left. auto. }
  destruct (convert_if_needed runs svc filePath conv w) as [wc [m|cf]] eqn:Hconv.
  - cbn [snd]. intros [= <-]. cbn [r_promise r_svc r_world].
    apply convert_if_needed_inl in Hconv. destruct Hconv as (Hneeds & Hmsg & Hio).
    split; [reflexivity|]. split; [reflexivity|]. right. right. auto.
  - unfold spawn_recognition, spawn. cbn [snd]. discriminate.
Qed.

(** X2. When the recognition process ends with an exit code other than 0
    (or on a signal), the call is rejected with [Transcription failed: ]
    followed by everything the process wrote on stderr, in order, or by
    [Unknown error] when it wrote nothing there. When the process could
    not be started, the message is that of the error event. *)
Theorem failed_recognition_reports_stderr (svc svc1 : WhisperService)
    (filePath : string) (options : TranscriptionOptions) (conv : ConvReply)
    (events : list ProcEvent) (w w1 : World) (job : Job) :
  transcribe_begin svc filePath options conv w = (svc1, w1, inr job) ->
  existsb settles events = false ->
  (forall code, code <> Some 0%Z ->
     r_promise (transcribe svc filePath options conv (events ++ [Close code]) w)
     = Some (Rejected ("Transcription failed: " +:+
               (if String.eqb (stderr_of events) EmptyString then "Unknown error"
                else stderr_of events))))
  /\ (forall err,
        r_promise (transcribe svc filePath options conv (events ++ [Error err]) w)
        = Some (Rejected ("Failed to start transcription: " +:+ err))).
Proof.
  intros Hbegin Hquiet. unfold Whisper.transcribe. rewrite Hbegin.
  set (r0 := {| r_svc := svc1; r_world := w1; r_stderr := EmptyString;
                r_promise := None |}).
  destruct (unsettled_keep job events r0 Hquiet) as (Hp & _ & _).
  pose proof (events_stderr job events r0) as Herr.
  cbn [r0 r_promise r_stderr] in Hp, Herr.
  split.
  - intros code Hcode. rewrite fold_left_snoc. cbn [Whisper.on_event].
    unfold Whisper.on_close. rewrite bool_decide_false by exact Hcode.
    cbn [negb r_promise]. rewrite Hp, Herr. reflexivity.
  - intros err. rewrite fold_left_snoc. cbn [Whisper.on_event on_error r_promise].
    rewrite Hp. reflexivity.
Qed.

(** X3. The first close or error event decides the outcome: whatever
    the process does afterwards (a close after an error, say) leaves the
    promise as that event settled it. *)
Theorem first_settling_event_decides (svc : WhisperService)
    (filePath : string) (options : TranscriptionOptions) (conv : ConvReply)
    (events later : list ProcEvent) (e : ProcEvent) (w : World) :
  settles e = true ->
  r_promise (transcribe svc filePath options conv (events ++ [e] ++ later) w)
  = r_promise (transcribe svc filePath options conv (events ++ [e]) w)
  /\ is_Some (r_promise (transcribe svc filePath options conv (events ++ [e]) w)).
Proof.
  intros He. unfold Whisper.transcribe.
  destruct (transcribe_begin svc filePath options conv w) as [[svc1 w1] [msg|job]].
  - cbn. eauto.
  - rewrite app_assoc, fold_left_app.
    set (r := fold_left _ (events ++ [e]) _).
    assert (Hsettled : is_Some (r_promise r)).
    { unfold r. rewrite fold_left_snoc.
      generalize (fold_left (fun r e => on_event job e r) events
                    {| r_svc := svc1; r_world := w1; r_stderr := EmptyString;
                       r_promise := None |}) as r1.
      intros r1. destruct e as [| | |code|err]; try discriminate;
        cbn [Whisper.on_event].
      - unfold Whisper.on_close.
        destruct (bool_decide (code = Some 0%Z)); cbn [negb].
        2:{ cbn [r_promise]. destruct (r_promise r1); cbn; eauto. }
        destruct (files _ !! _).
        { cbn [r_promise]. destruct (r_promise r1); cbn; eauto. }
        destruct (files _ !! _);
          cbn [r_promise]; destruct (r_promise r1); cbn; eauto.
      - cbn [on_error r_promise]. destruct (r_promise r1); cbn; eauto. }
    split; [|exact Hsettled].
    clearbody r. revert r Hsettled.
    induction later as [|e' later IH]; intros r Hsettled; [reflexivity|].
    cbn [fold_left]. rewrite IH.
    + destruct Hsettled as [o Ho].
      destruct e' as [data| | |code|err]; cbn [Whisper.on_event]; try reflexivity.
      * now destruct (progressMatch data).
      * unfold Whisper.on_close.
        destruct (bool_decide (code = Some 0%Z)); cbn [negb].
        2:{ cbn [r_promise]. now rewrite Ho. }
        destruct (files _ !! _); [cbn [r_promise]; now rewrite Ho|].
        destruct (files _ !! _); cbn [r_promise]; now rewrite Ho.
      * cbn [on_error r_promise]. now rewrite Ho.
    + destruct Hsettled as [o Ho].
      destruct e' as [data| | |code|err]; cbn [Whisper.on_event]; eauto.
      * destruct (progressMatch data); cbn; eauto.
      * unfold Whisper.on_close.
        destruct (bool_decide (code = Some 0%Z)); cbn [negb].
        2:{ cbn [r_promise]. rewrite Ho. cbn. eauto. }
        destruct (files _ !! _); [cbn [r_promise]; rewrite Ho; cbn; eauto|].
        destruct (files _ !! _); cbn [r_promise]; rewrite Ho; cbn; eauto.
      * cbn [on_error r_promise]. rewrite Ho. cbn. eauto.
Qed.

(** X4. Once the close or the error handler of a call has run, its file
    path is no longer registered, the other entries of the registry are
    what they were before the call, and [cancelTranscription] for the
    path returns [false] and does nothing. *)
Theorem settled_transcription_is_unregistered (svc svc1 : WhisperService)
    (filePath : string) (options : TranscriptionOptions) (conv : ConvReply)
    (events : list ProcEvent) (e : ProcEvent) (w w1 : World) (job : Job) :
  transcribe_begin svc filePath options conv w = (svc1, w1, inr job) ->
  settles e = true ->
  activeTranscriptions (r_svc (transcribe svc filePath options conv (events ++ [e]) w))
  = delete filePath (activeTranscriptions svc)
  /\ cancelTranscription
       (r_svc (transcribe svc filePath options conv (events ++ [e]) w)) filePath
       (r_world (transcribe svc filePath options conv (events ++ [e]) w))
     = (r_svc (transcribe svc filePath options conv (events ++ [e]) w),
        r_world (transcribe svc filePath options conv (events ++ [e]) w), false).
Proof.
  intros Hbegin He.
  destruct (transcribe_begin_trace runs _ _ _ _ _ _ _ _ Hbegin)
    as (_ & _ & Hreg & _ & _ & Hpath).
  assert (Hgone : activeTranscriptions
            (r_svc (transcribe svc filePath options conv (events ++ [e]) w))
          = delete filePath (activeTranscriptions svc)).
  { unfold Whisper.transcribe. rewrite Hbegin, fold_left_snoc.
    rewrite (settling_event_unregisters job e _ He), Hpath.
    destruct (events_registry job events
                {| r_svc := svc1; r_world := w1; r_stderr := EmptyString;
                   r_promise := None |}) as [H|H]; rewrite H; cbn [r_svc];
      rewrite Hreg, ?Hpath, ?delete_delete_eq; apply delete_insert_eq. }
  split; [exact Hgone|].
  unfold cancelTranscription. rewrite Hgone, lookup_delete_eq. reflexivity.
Qed.

(** X5. While a call waits for its recognition process and no later call
    has taken its registry entry, [cancelTranscription] for its file path
    returns [true], sends the kill to the process this call spawned,
    removes the entry and leaves the files alone; a second cancel returns
    [false] and does nothing. The promise is still pending after the
    cancel: only the close event of the killed process settles it. *)
Theorem cancel_kills_the_running_process (svc svc1 : WhisperService)
    (filePath : string) (options : TranscriptionOptions) (conv : ConvReply)
    (events : list ProcEvent) (w w1 : World) (job : Job) :
  transcribe_begin svc filePath options conv w = (svc1, w1, inr job) ->
  existsb settles events = false ->
  r_promise (transcribe svc filePath options conv events w) = None
  /\ cancelTranscription
       (r_svc (transcribe svc filePath options conv events w)) filePath
       (r_world (transcribe svc filePath options conv events w))
     = (set_active (delete filePath (activeTranscriptions svc)) svc1,
        emit (Kill (job_pid job))
          (r_world (transcribe svc filePath options conv events w)),
        true)
  /\ cancelTranscription
       (set_active (delete filePath (activeTranscriptions svc)) svc1) filePath
       (emit (Kill (job_pid job))
          (r_world (transcribe svc filePath options conv events w)))
     = (set_active (delete filePath (activeTranscriptions svc)) svc1,
        emit (Kill (job_pid job))
          (r_world (transcribe svc filePath options conv events w)),
        false).
Proof.
  intros Hbegin Hquiet.
  destruct (transcribe_begin_trace runs _ _ _ _ _ _ _ _ Hbegin)
    as (_ & _ & Hreg & _ & _ & _).
  unfold Whisper.transcribe. rewrite Hbegin.
  destruct (unsettled_keep job events
              {| r_svc := svc1; r_world := w1; r_stderr := EmptyString;
                 r_promise := None |} Hquiet) as (Hp & Hs & _).
  rewrite Hp, Hs. cbn [r_promise r_svc].
  split; [reflexivity|].
  unfold cancelTranscription.
  rewrite Hreg, lookup_insert_eq, delete_insert_eq.
  split; [reflexivity|].
  cbn [set_active activeTranscriptions]. now rewrite lookup_delete_eq.
Qed.

(** A [.wav] path is neither a [.json] nor a [.txt] path. *)
Lemma wav_is_no_output (a b : string) :
  a +:+ ".wav" <> b +:+ ".json" /\ a +:+ ".wav" <> b +:+ ".txt".
Proof.
  assert (Hv : String.get (3 + String.length a) (a +:+ ".wav") = Some "v"%char)
    by (now rewrite <- String.append_correct2).
  split; intros H; pose proof (f_equal String.length H) as Hlen;
    rewrite !length_append in Hlen; cbn [String.length] in Hlen; rewrite H in Hv.
  - replace (3 + String.length a)%nat with (4 + String.length b)%nat in Hv by lia.
    rewrite <- String.append_correct2 in Hv. discriminate.
  - replace (3 + String.length a)%nat with (3 + String.length b)%nat in Hv by lia.
    rewrite <- String.append_correct2 in Hv. discriminate.
Qed.

(** The converted file of a call is not one of its output files. *)
Lemma converted_is_no_output (svc svc1 : WhisperService) (filePath : string)
    (options : TranscriptionOptions) (conv : ConvReply) (w w1 : World) (job : Job)
    (out : string) :
  transcribe_begin svc filePath options conv w = (svc1, w1, inr job) ->
  job_convertedFile job = Some out ->
  out <> job_outputBase job +:+ ".json" /\ out <> job_outputBase job +:+ ".txt".
Proof.
  intros Hbegin Hout.
  destruct (transcribe_begin_inr runs _ _ _ _ _ _ _ _ Hbegin) as (wc & Hconv & _).
  rewrite Hout in Hconv. unfold convert_if_needed in Hconv.
  destruct (needsConversion filePath); [|discriminate].
  unfold convertToWav in Hconv.
  assert (Hshape : out = path_join (tempDir svc)
            ("whisper-converted-" +:+ pretty (now w) +:+ ".wav")).
  { destruct conv as [code output stderr|m]; [|discriminate].
    destruct (bool_decide (code = Some 0%Z) && existsSync _ _)%bool; [|discriminate].
    now injection Hconv as _ <-. }
  rewrite Hshape. unfold path_join.
  rewrite <- !string_app_assoc. apply wav_is_no_output.
Qed.

(** X6. When the recognition process exits with code 0, the call reads
    the [.json] output file when there is one, resolves with what
    [parseWhisperOutput] makes of it and deletes the file; failing that it
    reads the [.txt] output file, resolves with its trimmed text, no
    segment, the requested language or [auto] and duration 0, and deletes
    that file. *)
Theorem exit_zero_consumes_the_output_file (svc svc1 : WhisperService)
    (filePath : string) (options : TranscriptionOptions) (conv : ConvReply)
    (events : list ProcEvent) (w w1 : World) (job : Job) :
  transcribe_begin svc filePath options conv w = (svc1, w1, inr job) ->
  existsb settles events = false ->
  (forall content,
     files (r_world (transcribe svc filePath options conv events w))
       !! (job_outputBase job +:+ ".json") = Some content ->
     r_promise (transcribe svc filePath options conv (events ++ [Close (Some 0%Z)]) w)
     = Some (Resolved (parseWhisperOutput content))
     /\ files (r_world (transcribe svc filePath options conv
                          (events ++ [Close (Some 0%Z)]) w))
          !! (job_outputBase job +:+ ".json") = None)
  /\ (forall content,
        files (r_world (transcribe svc filePath options conv events w))
          !! (job_outputBase job +:+ ".json") = None ->
        files (r_world (transcribe svc filePath options conv events w))
          !! (job_outputBase job +:+ ".txt") = Some content ->
        r_promise (transcribe svc filePath options conv (events ++ [Close (Some 0%Z)]) w)
        = Some (Resolved {| text := Js.trim content; segments := [];
                            language := or_else (opt_language options) "auto";
                            duration := 0 |})
        /\ files (r_world (transcribe svc filePath options conv
                             (events ++ [Close (Some 0%Z)]) w))
             !! (job_outputBase job +:+ ".txt") = None).
Proof.
  intros Hbegin Hquiet.
  destruct (transcribe_begin_trace runs _ _ _ _ _ _ _ _ Hbegin)
    as (_ & _ & _ & _ & Hlang & _).
  pose proof (fun out => converted_is_no_output _ _ _ _ _ _ _ _ out Hbegin) as Hother.
  unfold Whisper.transcribe. rewrite Hbegin, fold_left_snoc.
  set (r0 := {| r_svc := svc1; r_world := w1; r_stderr := EmptyString;
                r_promise := None |}).
  destruct (unsettled_keep job events r0 Hquiet) as (Hp & _ & _).
  cbn [r0 r_promise] in Hp. fold r0.
  set (r := fold_left (fun r e => on_event job e r) events r0) in *.
  assert (Hkept : forall path,
            (forall out, job_convertedFile job = Some out -> out <> path) ->
            files (cleanup job (r_world r)) !! path = files (r_world r) !! path).
  { intros path Hpath. rewrite (cleanup_files job).
    destruct (job_convertedFile job) as [out|]; [|reflexivity].
    apply lookup_delete_ne. now apply Hpath. }
  assert (Hjson : files (cleanup job (r_world r)) !! (job_outputBase job +:+ ".json")
                  = files (r_world r) !! (job_outputBase job +:+ ".json"))
    by (apply Hkept; intros out Hout; apply (Hother out Hout)).
  assert (Htxt : files (cleanup job (r_world r)) !! (job_outputBase job +:+ ".txt")
                 = files (r_world r) !! (job_outputBase job +:+ ".txt"))
    by (apply Hkept; intros out Hout; apply (Hother out Hout)).
  cbn [Whisper.on_event]. unfold Whisper.on_close.
  rewrite bool_decide_true by reflexivity. cbn [negb].
  rewrite Hjson, Htxt.
  split.
  - intros content Hc. rewrite Hc. cbn [r_promise r_world]. rewrite Hp.
    split; [reflexivity|].
    cbn [unlinkSync emit set_files files]. apply lookup_delete_eq.
  - intros content Hnone Hc. rewrite Hnone, Hc. cbn [r_promise r_world].
    rewrite Hp, Hlang. split; [reflexivity|].
    cbn [unlinkSync emit set_files files]. apply lookup_delete_eq.
Qed.

(** X7. The close and the error handler of a call remove the registry
    entry of its file path also when a later call for the same path has
    taken the entry: from then on [cancelTranscription] for the path
    returns [false] and does nothing, whatever the later call's process
    does. *)
Theorem close_of_superseded_call_unregisters_the_later_one
    (svc svc1 svc2 : WhisperService) (filePath : string)
    (options options' : TranscriptionOptions) (conv conv' : ConvReply)
    (w w1 w' w2 : World) (job job' : Job) (e : ProcEvent) (r : Running) :
  transcribe_begin svc filePath options conv w = (svc1, w1, inr job) ->
  transcribe_begin svc1 filePath options' conv' w' = (svc2, w2, inr job') ->
  r_svc r = svc2 ->
  settles e = true ->
  activeTranscriptions (r_svc r) !! filePath = Some (job_pid job')
  /\ cancelTranscription (r_svc (on_event job e r)) filePath (r_world (on_event job e r))
     = (r_svc (on_event job e r), r_world (on_event job e r), false).
Proof.
  intros Hfirst Hsecond Hr He.
  destruct (transcribe_begin_trace runs _ _ _ _ _ _ _ _ Hfirst)
    as (_ & _ & _ & _ & _ & Hpath).
  destruct (transcribe_begin_trace runs _ _ _ _ _ _ _ _ Hsecond)
    as (_ & _ & Hreg & _ & _ & _).
  rewrite Hr, Hreg. split; [apply lookup_insert_eq|].
  unfold cancelTranscription.
  rewrite (settling_event_unregisters job e r He), Hpath, lookup_delete_eq.
  reflexivity.
Qed.

(** X8. The recognition process is given at least one thread and, on a
    machine with cores, at most as many threads as cores; the count is
    the last argument of the command line, after [-t]. *)
Theorem recognition_thread_count (svc : WhisperService)
    (modelPath audioPath outputBase : string) (options : TranscriptionOptions) :
  (1 <= threads svc)%Z
  /\ (threads svc <= Z.max 1 (cpuCores svc))%Z
  /\ exists front,
       recognition_args svc modelPath audioPath outputBase options
       = front ++ ["-t"; pretty (threads svc)].
Proof.
  unfold threads. split; [lia|]. split.
  - assert (3 * cpuCores svc / 4 <= cpuCores svc \/ cpuCores svc < 0)%Z as [H|H].
    { destruct (Z_lt_le_dec (cpuCores svc) 0) as [Hneg|Hpos]; [now right|left].
      apply Z.div_le_upper_bound; lia. }
    + lia.
    + assert (3 * cpuCores svc / 4 < 0)%Z by (apply Z.div_lt_upper_bound; lia). lia.
  - unfold recognition_args. rewrite app_assoc. eauto.
Qed.
End TranscribeLifecycle.

(** X1 on a machine without the [tiny] model. *)
Lemma rejected_transcription_witness :
  Whisper.r_promise
    (Whisper.transcribe Samples.raw_output Samples.nothing_runs Samples.svc
       "/media/talk.mp3" Samples.no_options Samples.converted [] Samples.empty_world)
  = Some (Rejected "Model tiny is not downloaded. Please download it first.").
Proof.
  exact (proj1 (rejected_transcription_never_starts Samples.raw_output
                  Samples.nothing_runs Samples.svc "/media/talk.mp3" Samples.no_options
                  Samples.converted [] Samples.empty_world
                  "Model tiny is not downloaded. Please download it first." eq_refl)).
Defined.

(** X2 on a process that complains twice and exits with code 1. *)
Lemma failed_recognition_witness :
  Whisper.r_promise
    (Whisper.transcribe Samples.raw_output Samples.nothing_runs Samples.svc
       "/media/talk.mp3" Samples.no_options Samples.converted
       ([Whisper.Stderr "bad "; Whisper.Stdout "progress = 5%"; Whisper.Stderr "model"]
        ++ [Whisper.Close (Some 1%Z)]) Samples.studio)
  = Some (Rejected "Transcription failed: bad model").
Proof.
  assert (Hb : Whisper.transcribe_begin Samples.nothing_runs Samples.svc
                 "/media/talk.mp3" Samples.no_options Samples.converted Samples.studio
               = (fst (fst Samples.first_call), snd (fst Samples.first_call),
                  inr Samples.mp3_job))
    by (vm_compute; reflexivity).
  destruct (failed_recognition_reports_stderr Samples.raw_output Samples.nothing_runs
              Samples.svc _ "/media/talk.mp3" Samples.no_options Samples.converted
              [Whisper.Stderr "bad "; Whisper.Stdout "progress = 5%"; Whisper.Stderr "model"]
              Samples.studio _ Samples.mp3_job Hb eq_refl) as [Hclose _].
  apply (Hclose (Some 1%Z)). discriminate.
Defined.

(** X3 on a process that fails to start and then closes. *)
Lemma first_settling_event_witness :
  Whisper.r_promise
    (Whisper.transcribe Samples.raw_output Samples.nothing_runs Samples.svc
       "/media/talk.mp3" Samples.no_options Samples.converted
       ([] ++ [Whisper.Error "spawn whisper-cli ENOENT"] ++ [Whisper.Close None])
       Samples.studio)
  = Whisper.r_promise
      (Whisper.transcribe Samples.raw_output Samples.nothing_runs Samples.svc
         "/media/talk.mp3" Samples.no_options Samples.converted
         ([] ++ [Whisper.Error "spawn whisper-cli ENOENT"]) Samples.studio).
Proof.
  exact (proj1 (first_settling_event_decides Samples.raw_output Samples.nothing_runs
                  Samples.svc "/media/talk.mp3" Samples.no_options Samples.converted
                  [] [Whisper.Close None] (Whisper.Error "spawn whisper-cli ENOENT")
                  Samples.studio eq_refl)).
Defined.

(** X4 on a process that exits at once. *)
Lemma settled_transcription_witness :
  Whisper.activeTranscriptions
    (Whisper.r_svc
       (Whisper.transcribe Samples.raw_output Samples.nothing_runs Samples.svc
          "/media/talk.mp3" Samples.no_options Samples.converted
          ([] ++ [Whisper.Close (Some 0%Z)]) Samples.studio))
  = delete "/media/talk.mp3" (Whisper.activeTranscriptions Samples.svc).
Proof.
  assert (Hb : Whisper.transcribe_begin Samples.nothing_runs Samples.svc
                 "/media/talk.mp3" Samples.no_options Samples.converted Samples.studio
               = (fst (fst Samples.first_call), snd (fst Samples.first_call),
                  inr Samples.mp3_job))
    by (vm_compute; reflexivity).
  exact (proj1 (settled_transcription_is_unregistered Samples.raw_output
                  Samples.nothing_runs Samples.svc _ "/media/talk.mp3" Samples.no_options
                  Samples.converted [] (Whisper.Close (Some 0%Z)) Samples.studio _
                  Samples.mp3_job Hb eq_refl)).
Defined.

(** X5 on a process that has reported half of its work. *)
Lemma cancel_running_witness :
  Whisper.r_promise
    (Whisper.transcribe Samples.raw_output Samples.nothing_runs Samples.svc
       "/media/talk.mp3" Samples.no_options Samples.converted
       [Whisper.Stdout "progress = 50%"] Samples.studio)
  = None.
Proof.
  assert (Hb : Whisper.transcribe_begin Samples.nothing_runs Samples.svc
                 "/media/talk.mp3" Samples.no_options Samples.converted Samples.studio
               = (fst (fst Samples.first_call), snd (fst Samples.first_call),
                  inr Samples.mp3_job))
    by (vm_compute; reflexivity).
  exact (proj1 (cancel_kills_the_running_process Samples.raw_output
                  Samples.nothing_runs Samples.svc _ "/media/talk.mp3" Samples.no_options
                  Samples.converted [Whisper.Stdout "progress = 50%"] Samples.studio _
                  Samples.mp3_job Hb eq_refl)).
Defined.

(** X6 on a process that leaves a [.txt] file only. *)
Lemma exit_zero_txt_witness :
  Whisper.r_promise
    (Whisper.transcribe Samples.raw_output Samples.nothing_runs Samples.svc
       "/media/talk.mp3" Samples.no_options Samples.converted
       ([Whisper.Writes "/tmp/whisper-1700000000000.txt" " hello "]
        ++ [Whisper.Close (Some 0%Z)]) Samples.studio)
  = Some (Resolved {| Whisper.text := "hello"; Whisper.segments := [];
                      Whisper.language := "auto"; Whisper.duration := 0 |}).
Proof.
  assert (Hb : Whisper.transcribe_begin Samples.nothing_runs Samples.svc
                 "/media/talk.mp3" Samples.no_options Samples.converted Samples.studio
               = (fst (fst Samples.first_call), snd (fst Samples.first_call),
                  inr Samples.mp3_job))
    by (vm_compute; reflexivity).
  destruct (exit_zero_consumes_the_output_file Samples.raw_output Samples.nothing_runs
              Samples.svc _ "/media/talk.mp3" Samples.no_options Samples.converted
              [Whisper.Writes "/tmp/whisper-1700000000000.txt" " hello "]
              Samples.studio _ Samples.mp3_job Hb eq_refl) as [_ Htxt].
  apply (Htxt " hello "); vm_compute; reflexivity.
Defined.

(** X7 on two calls for [/media/talk.mp3]: the first one's process
    exits while the second one's runs. *)
Lemma close_of_superseded_call_witness :
  Whisper.activeTranscriptions (Whisper.r_svc Samples.second_running)
    !! "/media/talk.mp3" = Some 1%nat
  /\ Whisper.cancelTranscription
       (Whisper.r_svc (Whisper.on_event Samples.raw_output Samples.mp3_job
                         (Whisper.Close (Some 0%Z)) Samples.second_running))
       "/media/talk.mp3"
       (Whisper.r_world (Whisper.on_event Samples.raw_output Samples.mp3_job
                           (Whisper.Close (Some 0%Z)) Samples.second_running))
     = (Whisper.r_svc (Whisper.on_event Samples.raw_output Samples.mp3_job
                         (Whisper.Close (Some 0%Z)) Samples.second_running),
        Whisper.r_world (Whisper.on_event Samples.raw_output Samples.mp3_job
                           (Whisper.Close (Some 0%Z)) Samples.second_running),
        false).
Proof.
  assert (Hfirst : Whisper.transcribe_begin Samples.nothing_runs Samples.svc
                     "/media/talk.mp3" Samples.no_options Samples.converted Samples.studio
                   = (Samples.busy_svc, snd (fst Samples.first_call),
                      inr Samples.mp3_job))
    by (vm_compute; reflexivity).
  assert (Hsecond : Whisper.transcribe_begin Samples.nothing_runs Samples.busy_svc
                      "/media/talk.mp3" Samples.no_options Samples.converted
                      Samples.busy_studio
                    = (fst (fst Samples.second_call), snd (fst Samples.second_call),
                       inr Samples.second_job))
    by (vm_compute; reflexivity).
  exact (close_of_superseded_call_unregisters_the_later_one Samples.raw_output
           Samples.nothing_runs Samples.svc Samples.busy_svc _ "/media/talk.mp3"
           Samples.no_options Samples.no_options Samples.converted Samples.converted
           Samples.studio _ Samples.busy_studio _ Samples.mp3_job Samples.second_job
           (Whisper.Close (Some 0%Z)) Samples.second_running Hfirst Hsecond
           eq_refl eq_refl).
Defined.

(** ** More on the server facades: readiness, stop, timer *)
Section FacadeLifecycle.
Import Facade.
Variable probe : string -> option string.

Local Abbreviation startServer := (Facade.startServer probe).
Local Abbreviation locatePython := (Facade.locatePython probe).

Lemma startServer_pending (svc : Service) (i : Install) (h h1 : Host) (pid : nat) :
  startServer svc i h = (h1, Pending pid) ->
  pid = next h
  /\ server h1 = {| serverProcess := Some pid; isServerReady := isServerReady (server h) |}
  /\ log h1 = log h ++ [SpawnServer pid (locatePython (pythonPaths svc i))
                          (pythonScriptPath i)]
  /\ next h1 = Datatypes.S pid.
Proof.
  unfold Facade.startServer.
  destruct (bool_decide (is_Some (serverProcess (server h))) && isServerReady (server h))%bool;
    [discriminate|].
  intros [= <- <-]. cbn. auto.
Qed.

(** Output chunks: the handle stays, the flag is raised by a chunk that
    carries the ready message, and each such chunk calls [resolve]. *)
Lemma chunks_run (svc : Service) (events : list ServerEvent) (c : StartCall) (h : Host) :
  forallb is_chunk events = true ->
  call_pid (fst (run_call svc events (c, h))) = call_pid c
  /\ server (snd (run_call svc events (c, h)))
     = {| serverProcess := serverProcess (server h);
          isServerReady := (isServerReady (server h) || existsb announces events)%bool |}
  /\ log (snd (run_call svc events (c, h)))
     = log h ++ repeat (StartSettled (call_pid c) (Resolved true))
                  (length (List.filter announces events))
  /\ next (snd (run_call svc events (c, h))) = next h.
Proof.
  unfold run_call. revert c h.
  induction events as [|e events IH]; intros c h Hall.
  - cbn. rewrite orb_false_r, app_nil_r. now destruct h as [[]].
  - cbn [forallb] in Hall. apply andb_prop in Hall as [He Hall].
    cbn [fold_left existsb List.filter].
    destruct e as [output|output| | |]; try discriminate;
      cbn [on_server_event announces]; unfold on_stdout, on_stderr;
      cbn [fst snd]; destruct (Js.includes output "Running on");
      match goal with
      | |- context [fold_left _ events (?c1, ?h1)] =>
          destruct (IH c1 h1 Hall) as (Hpid & Hserver & Hlog & Hnext);
          rewrite Hpid, Hserver, Hlog, Hnext
      end;
      destruct svc; cbn [call_pid mark_ready set_server server log next
                         serverProcess isServerReady orb length repeat];
      rewrite <- ?app_assoc, ?orb_true_r; auto.
Qed.

(** X9. Once a chunk of the output of the process carries [Running on],
    the service is ready with the handle of that process, every such chunk
    has called [resolve(true)] and nothing else was done; the timer of the
    call then does nothing, and a further [startServer] returns [true]
    without spawning. *)
Theorem announced_server_is_reused (svc : Service) (i : Install) (h h1 : Host)
    (pid : nat) (events : list ServerEvent) :
  startServer svc i h = (h1, Pending pid) ->
  forallb is_chunk events = true ->
  existsb announces events = true ->
  server (snd (run_call svc events (new_call pid, h1)))
  = {| serverProcess := Some pid; isServerReady := true |}
  /\ log (snd (run_call svc events (new_call pid, h1)))
     = log h1 ++ repeat (StartSettled pid (Resolved true))
                   (length (List.filter announces events))
  /\ run_call svc (events ++ [TimerFires]) (new_call pid, h1)
     = run_call svc events (new_call pid, h1)
  /\ startServer svc i (snd (run_call svc events (new_call pid, h1)))
     = (snd (run_call svc events (new_call pid, h1)), AlreadyRunning).
Proof.
  intros Hstart Hchunks Hready.
  destruct (startServer_pending _ _ _ _ _ Hstart) as (_ & Hserver & _ & _).
  destruct (chunks_run svc events (new_call pid) h1 Hchunks)
    as (_ & Hs & Hlog & _).
  rewrite Hready, orb_true_r, Hserver in Hs. cbn [serverProcess] in Hs.
  split; [exact Hs|]. split; [exact Hlog|]. split.
  - unfold run_call. rewrite fold_left_app. cbn [fold_left on_server_event].
    unfold on_timeout. fold (run_call svc events (new_call pid, h1)).
    now rewrite Hs.
  - unfold Facade.startServer. rewrite Hs. cbn [serverProcess isServerReady].
    rewrite bool_decide_true by eauto. reflexivity.
Qed.

(** X10. A start whose process prints no chunk carrying [Running on]
    (the message split over two chunks included) is ended by the timer of
    the call: the process is killed, the call is rejected with the timeout
    message, and the service is back to stopped. *)
Theorem silent_start_times_out (svc : Service) (i : Install) (h h1 : Host)
    (pid : nat) (events : list ServerEvent) :
  startServer svc i h = (h1, Pending pid) ->
  isServerReady (server h) = false ->
  forallb is_chunk events = true ->
  existsb announces events = false ->
  server (snd (run_call svc (events ++ [TimerFires]) (new_call pid, h1)))
  = {| serverProcess := None; isServerReady := false |}
  /\ log (snd (run_call svc (events ++ [TimerFires]) (new_call pid, h1)))
     = log h1 ++ [KillServer pid; StartSettled pid (Rejected (timeout_message svc))].
Proof.
  intros Hstart Hflag Hchunks Hsilent.
  destruct (startServer_pending _ _ _ _ _ Hstart) as (_ & Hserver & _ & _).
  destruct (chunks_run svc events (new_call pid) h1 Hchunks)
    as (Hpid & Hs & Hlog & _).
  rewrite Hsilent, orb_false_r, Hserver in Hs.
  cbn [serverProcess isServerReady] in Hs. rewrite Hflag in Hs.
  cbn [filter] in Hlog.
  assert (Hnone : List.filter announces events = []).
  { clear -Hsilent. induction events as [|e events IH]; [reflexivity|].
    cbn [existsb] in Hsilent. apply orb_false_elim in Hsilent as [He Hrest].
    cbn [List.filter]. rewrite He. auto. }
  rewrite Hnone in Hlog. cbn [length repeat] in Hlog. rewrite app_nil_r in Hlog.
  unfold run_call in *. rewrite fold_left_app. cbn [fold_left on_server_event].
  unfold on_timeout, stopServer. rewrite Hs. cbn [isServerReady serverProcess].
  cbn [snd set_server server log fst]. rewrite Hlog, Hpid, <- app_assoc.
  split; reflexivity.
Qed.

(** X11. [stopServer] kills the process whose handle is stored, if any,
    and clears the handle; a second [stopServer] does nothing; and the
    next [startServer] spawns a process. *)
Theorem stopServer_then_start_spawns (svc : Service) (i : Install) (h : Host) :
  serverProcess (server (stopServer h)) = None
  /\ log (stopServer h)
     = log h ++ match serverProcess (server h) with
                | Some pid => [KillServer pid]
                | None => []
                end
  /\ stopServer (stopServer h) = stopServer h
  /\ snd (startServer svc i (stopServer h)) = Pending (next h)
  /\ spawned (log (fst (startServer svc i (stopServer h))))
     = spawned (log h) ++ [next h].
Proof.
  unfold stopServer, Facade.startServer.
  destruct (serverProcess (server h)) as [pid|] eqn:Hpid.
  - cbn [server serverProcess isServerReady log next].
    rewrite bool_decide_false by (intros [x Hx]; discriminate).
    cbn [andb fst snd log]. rewrite !spawned_app. cbn. rewrite app_nil_r. auto.
  - rewrite ?Hpid, app_nil_r.
    rewrite bool_decide_false by (intros [x Hx]; discriminate).
    cbn [andb fst snd log]. rewrite spawned_app. auto.
Qed.

(** X12. The timer of a call stops whatever process the service object
    holds at that moment: when a later [startServer] has spawned again
    while the first start was in flight, the timer of the first call kills
    the process of the later call, not its own, and rejects the first
    call. *)
Theorem timer_of_first_call_kills_the_later_process (svc : Service) (i : Install)
    (h h1 h2 : Host) (pid pid' : nat) (c : StartCall) :
  startServer svc i h = (h1, Pending pid) ->
  startServer svc i h1 = (h2, Pending pid') ->
  call_pid c = pid ->
  pid' <> pid
  /\ log (snd (on_timeout svc (c, h2)))
     = log h2 ++ [KillServer pid'; StartSettled pid (Rejected (timeout_message svc))]
  /\ serverProcess (server (snd (on_timeout svc (c, h2)))) = None.
Proof.
  intros Hfirst Hsecond Hc.
  destruct (startServer_pending _ _ _ _ _ Hfirst) as (Hpid & Hserver & _ & Hnext).
  destruct (startServer_pending _ _ _ _ _ Hsecond) as (Hpid' & Hserver' & _ & _).
  assert (Hflag : isServerReady (server h1) = false).
  { revert Hsecond. unfold Facade.startServer. rewrite Hserver.
    cbn [serverProcess isServerReady]. rewrite bool_decide_true by eauto.
    cbn [andb]. destruct (isServerReady (server h)); [discriminate|reflexivity]. }
  split; [lia|].
  unfold on_timeout, stopServer. cbn [snd fst]. rewrite Hserver'.
  cbn [isServerReady serverProcess]. rewrite Hflag. cbn [snd fst set_server server log serverProcess].
  rewrite Hc, <- app_assoc. split; reflexivity.
Qed.

(** X13. When the process exits after the service became ready, the
    promise of the call stays resolved with [true] (the [reject] of the
    close handler comes second), the service is back to stopped, and the
    next [startServer] spawns a new process. *)
Theorem exit_after_ready_stops_the_service (svc : Service) (i : Install) (h h1 : Host)
    (pid : nat) (events : list ServerEvent) (code : option Z) :
  startServer svc i h = (h1, Pending pid) ->
  call_outcome pid (log h) = None ->
  forallb is_chunk events = true ->
  existsb announces events = true ->
  call_outcome pid (log (snd (run_call svc (events ++ [ServerClose code])
                                (new_call pid, h1))))
  = Some (Resolved true)
  /\ server (snd (run_call svc (events ++ [ServerClose code]) (new_call pid, h1)))
     = {| serverProcess := None; isServerReady := false |}
  /\ snd (startServer svc i
            (snd (run_call svc (events ++ [ServerClose code]) (new_call pid, h1))))
     = Pending (Datatypes.S pid).
Proof.
  intros Hstart Hfresh Hchunks Hready.
  destruct (startServer_pending _ _ _ _ _ Hstart) as (_ & _ & Hlog1 & Hnext1).
  destruct (chunks_run svc events (new_call pid) h1 Hchunks)
    as (_ & _ & Hlog & Hnext).
  assert (Hsome : exists n, length (List.filter announces events) = Datatypes.S n).
  { clear -Hready. induction events as [|e events IH]; [discriminate|].
    cbn [existsb] in Hready. cbn [List.filter].
    destruct (announces e); [cbn; eauto|]. now apply IH. }
  destruct Hsome as [n Hn]. rewrite Hn in Hlog. cbn [repeat new_call call_pid] in Hlog.
  unfold run_call in *. rewrite fold_left_app. cbn [fold_left on_server_event].
  unfold on_close. cbn [snd set_server server log next].
  split; [|split; [reflexivity|]].
  - rewrite Hlog, Hlog1, <- !app_assoc.
    assert (Happ : forall a b, call_outcome pid a = None ->
              call_outcome pid (a ++ b) = call_outcome pid b).
    { intros a b. induction a as [|x a IH]; [reflexivity|].
      destruct x as [| |c o]; cbn [call_outcome app]; auto.
      destruct (Nat.eqb c pid); [discriminate|auto]. }
    rewrite (Happ _ _ Hfresh). cbn [app call_outcome]. now rewrite Nat.eqb_refl.
  - unfold Facade.startServer. cbn [server serverProcess isServerReady next snd].
    rewrite bool_decide_false by (intros [x Hx]; discriminate).
    cbn [andb snd set_server next]. now rewrite Hnext, Hnext1.
Qed.

(** X14. The Python that [startServer] spawns is the first candidate
    that exists and answers [--version] with a text containing
    [Python 3]; when no candidate does, it is [python3]. *)
Theorem locatePython_first_usable (candidates : list string) :
  (Forall (fun p => usable probe p = false) candidates
   /\ locatePython candidates = "python3")
  \/ exists before p after,
       candidates = before ++ p :: after
       /\ Forall (fun p => usable probe p = false) before
       /\ usable probe p = true
       /\ locatePython candidates = p.
Proof.
  induction candidates as [|p rest IH].
  - left. split; [constructor|reflexivity].
  - cbn [Facade.locatePython]. destruct (usable probe p) eqn:Hp.
    + right. exists [], p, rest. split; [reflexivity|]. split; [constructor|].
      split; [exact Hp|]. unfold usable in Hp.
      destruct (probe p) as [result|]; [|discriminate]. now rewrite Hp.
    + assert (Hskip : match probe p with
                      | Some result =>
                          if Js.includes result "Python 3" then p else locatePython rest
                      | None => locatePython rest
                      end = locatePython rest).
      { unfold usable in Hp. destruct (probe p) as [result|]; [|reflexivity].
        now rewrite Hp. }
      rewrite Hskip.
      destruct IH as [[Hall Hdefault]|(before & q & after & Hsplit & Hbefore & Hq & Hfound)].
      * left. split; [now constructor|exact Hdefault].
      * right. exists (p :: before), q, after.
        split; [now rewrite Hsplit|]. split; [now constructor|]. split; [exact Hq|exact Hfound].
Qed.
End FacadeLifecycle.

(** X9 on a TTS server that announces itself in its second chunk. *)
Lemma announced_server_witness :
  Facade.server (snd (Facade.run_call Facade.TTS Samples.flask_ready
                        (Facade.new_call 0, Samples.started)))
  = {| Facade.serverProcess := Some 0%nat; Facade.isServerReady := true |}.
Proof.
  exact (proj1 (announced_server_is_reused Samples.system_python Facade.TTS
                  Samples.install Facade.fresh Samples.started 0 Samples.flask_ready
                  eq_refl eq_refl eq_refl)).
Defined.

(** X10 on a TTS server whose ready message arrives cut in two. *)
Lemma silent_start_witness :
  Facade.server (snd (Facade.run_call Facade.TTS
                        (Samples.flask_ready_cut ++ [Facade.TimerFires])
                        (Facade.new_call 0, Samples.started)))
  = {| Facade.serverProcess := None; Facade.isServerReady := false |}.
Proof.
  exact (proj1 (silent_start_times_out Samples.system_python Facade.TTS
                  Samples.install Facade.fresh Samples.started 0
                  Samples.flask_ready_cut eq_refl eq_refl eq_refl eq_refl)).
Defined.

(** X12 on two starts of the TTS server in a row. *)
Lemma timer_of_first_call_witness :
  Facade.log (snd (Facade.on_timeout Facade.TTS (Facade.new_call 0, Samples.started_twice)))
  = Facade.log Samples.started_twice
    ++ [Facade.KillServer 1;
        Facade.StartSettled 0 (Rejected "TTS server startup timeout")].
Proof.
  exact (proj1 (proj2 (timer_of_first_call_kills_the_later_process
                         Samples.system_python Facade.TTS Samples.install Facade.fresh
                         Samples.started Samples.started_twice 0 1 (Facade.new_call 0)
                         eq_refl eq_refl eq_refl))).
Defined.

(** X13 on a TTS server that exits with code 1 after it was ready. *)
Lemma exit_after_ready_witness :
  Facade.call_outcome 0
    (Facade.log (snd (Facade.run_call Facade.TTS
                        (Samples.flask_ready ++ [Facade.ServerClose (Some 1%Z)])
                        (Facade.new_call 0, Samples.started))))
  = Some (Resolved true).
Proof.
  exact (proj1 (exit_after_ready_stops_the_service Samples.system_python Facade.TTS
                  Samples.install Facade.fresh Samples.started 0 Samples.flask_ready
                  (Some 1%Z) eq_refl eq_refl eq_refl eq_refl)).
Defined.

(** ** More on downloads: the installed file, failures, bounds *)
Section DownloadOutcomes.
Import Whisper.
Variable net : PropValue -> HttpReply.

Lemma temp_path_differs (path : string) : path <> path +:+ ".tmp".
Proof.
  intros H. apply (f_equal String.length) in H. rewrite length_append in H.
  cbn [String.length] in H. lia.
Qed.

(** A download whose final response is a 200. *)
Lemma download_200_outcome (svc : WhisperService)
    (modelName url : string) (w : World)
    (location content_length : option string) (body : list string) :
  MODEL_DOWNLOAD_URLS !! modelName = Some url ->
  final_reply net url = Response 200 location content_length body ->
  snd (downloadModel net svc modelName w) = Some (Resolved true)
  /\ files (fst (downloadModel net svc modelName w))
     = <[getModelPath svc modelName := Js.join body]>
         (delete (getModelPath svc modelName +:+ ".tmp") (files w)).
Proof.
  intros Hurl Hfinal. destruct (catalog_urls_truthy _ _ Hurl) as [Hget Htruthy].
  unfold downloadModel, downloadFromUrl. rewrite Hget, Htruthy. cbn [negb].
  generalize (getModelPath svc modelName +:+ ".tmp") as tempPath.
  generalize (getModelPath svc modelName) as modelPath.
  intros modelPath tempPath.
  unfold final_reply in Hfinal.
  destruct (net (JsString url)) as [msg|statusCode location0 cl0 body0|] eqn:Hfirst;
    [discriminate| |discriminate].
  destruct (redirect_target statusCode location0) as [redirectUrl|].
  - rewrite Hfinal. cbn [Z.eqb Pos.eqb negb fst snd]. split; [reflexivity|].
    unfold renameSync. cbn [files emit set_files].
    rewrite (proj1 (receive_spec content_length body tempPath _)), lookup_insert_eq.
    cbn [files emit createWriteStream unlinkSync set_files].
    now rewrite delete_insert_eq, delete_insert_eq, delete_insert_eq, delete_delete_eq.
  - injection Hfinal as -> -> -> ->.
    cbn [Z.eqb Pos.eqb negb fst snd]. split; [reflexivity|].
    unfold renameSync. cbn [files emit set_files].
    rewrite (proj1 (receive_spec content_length body tempPath _)), lookup_insert_eq.
    cbn [files emit createWriteStream unlinkSync set_files].
    now rewrite delete_insert_eq, delete_insert_eq.
Qed.

(** X15. A download whose final response (the first one, or that of the
    followed redirect) is a 200 resolves with [true]; afterwards the model
    file holds the body, chunk after chunk, the temporary file is gone and
    every other file is as it was. *)
Theorem successful_download_installs_the_model (svc : WhisperService)
    (modelName url : string) (w : World)
    (location content_length : option string) (body : list string) :
  MODEL_DOWNLOAD_URLS !! modelName = Some url ->
  final_reply net url = Response 200 location content_length body ->
  snd (downloadModel net svc modelName w) = Some (Resolved true)
  /\ files (fst (downloadModel net svc modelName w)) !! getModelPath svc modelName
     = Some (Js.join body)
  /\ files (fst (downloadModel net svc modelName w))
       !! (getModelPath svc modelName +:+ ".tmp") = None
  /\ forall other,
       other <> getModelPath svc modelName ->
       other <> getModelPath svc modelName +:+ ".tmp" ->
       files (fst (downloadModel net svc modelName w)) !! other = files w !! other.
Proof.
  intros Hurl Hfinal.
  destruct (download_200_outcome svc modelName url w _ _ _ Hurl Hfinal)
    as [Hsettled Hfiles].
  split; [exact Hsettled|]. rewrite Hfiles.
  split; [apply lookup_insert_eq|]. split.
  - rewrite lookup_insert_ne by apply temp_path_differs. apply lookup_delete_eq.
  - intros other Hmodel Htemp.
    rewrite lookup_insert_ne by congruence. apply lookup_delete_ne. congruence.
Qed.

(** X16. When the first request fails, on the network or with a status
    that is neither a followed redirect nor 200, the call is rejected with
    the error of the network or with the status in the message, the
    temporary file is removed, and the model file, installed or not, is
    as it was. *)
Theorem failed_first_request_removes_the_temp_file (svc : WhisperService)
    (modelName url : string) (w : World) :
  MODEL_DOWNLOAD_URLS !! modelName = Some url ->
  match net (JsString url) with
  | NetworkError _ => True
  | Response statusCode location _ _ =>
      redirect_target statusCode location = None /\ statusCode <> 200%Z
  | NoReply => False
  end ->
  snd (downloadModel net svc modelName w)
  = Some (Rejected match net (JsString url) with
                   | Response statusCode _ _ _ => http_failure statusCode
                   | NetworkError msg => msg
                   | NoReply => EmptyString
                   end)
  /\ files (fst (downloadModel net svc modelName w))
     = delete (getModelPath svc modelName +:+ ".tmp") (files w)
  /\ files (fst (downloadModel net svc modelName w)) !! getModelPath svc modelName
     = files w !! getModelPath svc modelName.
Proof.
  intros Hurl Hfails. destruct (catalog_urls_truthy _ _ Hurl) as [Hget Htruthy].
  assert (Hfiles : snd (downloadModel net svc modelName w)
            = Some (Rejected match net (JsString url) with
                             | Response statusCode _ _ _ => http_failure statusCode
                             | NetworkError msg => msg
                             | NoReply => EmptyString
                             end)
            /\ files (fst (downloadModel net svc modelName w))
               = delete (getModelPath svc modelName +:+ ".tmp") (files w)).
  { unfold downloadModel. rewrite Hget, Htruthy. cbn [negb].
    destruct (net (JsString url)) as [msg|statusCode location cl body|];
      [| |contradiction].
    - unfold existsSync. cbn [files emit createWriteStream set_files].
      rewrite bool_decide_true by (rewrite lookup_insert_eq; eauto).
      cbn [fst snd files emit unlinkSync createWriteStream set_files].
      split; [reflexivity|apply delete_insert_eq].
    - destruct Hfails as [Hredirect Hstatus]. rewrite Hredirect.
      destruct (statusCode =? 200)%Z eqn:H200; [lia|].
      cbn [negb fst snd files emit unlinkSync createWriteStream set_files].
      split; [reflexivity|apply delete_insert_eq]. }
  destruct Hfiles as [Hsettled Hfiles]. split; [exact Hsettled|].
  split; [exact Hfiles|]. rewrite Hfiles.
  apply lookup_delete_ne. intros H. symmetry in H. now apply temp_path_differs in H.
Qed.

Lemma join_cons_length (chunk : string) (rest : list string) :
  String.length (Js.join (chunk :: rest))
  = (String.length chunk + String.length (Js.join rest))%nat.
Proof. unfold Js.join. cbn [fold_right]. apply length_append. Qed.

Lemma chunk_progress_bounds (t d0 : Z) (body : list string) :
  (0 < t)%Z -> (0 <= d0)%Z ->
  (d0 + Z.of_nat (String.length (Js.join body)) <= t)%Z ->
  length (chunk_progress t d0 body) = length body
  /\ Forall (fun p => 0 <= p <= 100)%Z (chunk_progress t d0 body)
  /\ (body <> [] ->
      last (chunk_progress t d0 body)
      = Some (percent (d0 + Z.of_nat (String.length (Js.join body))) t)).
Proof.
  intros Ht. revert d0. induction body as [|chunk rest IH]; intros d0 Hd0 Hfits.
  - split; [reflexivity|]. split; [constructor|]. intros H. now destruct H.
  - rewrite join_cons_length, Nat2Z.inj_add in Hfits. cbn [chunk_progress].
    destruct (IH (d0 + Z.of_nat (String.length chunk))%Z) as (Hlen & Hall & Hlast);
      [lia|lia|].
    split; [cbn [length]; now rewrite Hlen|]. split.
    + constructor; [apply percent_bounds; lia|exact Hall].
    + intros _. rewrite join_cons_length, Nat2Z.inj_add.
      destruct rest as [|chunk' rest'].
      * cbn [chunk_progress last Js.join fold_right String.length Z.of_nat].
        do 2 f_equal. lia.
      * rewrite last_cons, Hlast by discriminate. do 2 f_equal. lia.
Qed.

(** X17. In a download whose final response is a 200 with a positive
    [Content-Length] that the body does not exceed, there is one progress
    report per chunk, every report lies between 0 and 100, and when the
    body has the announced size the last report is 100. *)
Theorem download_progress_within_bounds (svc : WhisperService)
    (modelName url : string) (w : World)
    (location content_length : option string) (body : list string) (totalSize : Z) :
  MODEL_DOWNLOAD_URLS !! modelName = Some url ->
  final_reply net url = Response 200 location content_length body ->
  Js.parseInt (or_else content_length "0") = Some totalSize ->
  (0 < totalSize)%Z ->
  (Z.of_nat (String.length (Js.join body)) <= totalSize)%Z ->
  exists ps,
    progress_calls (io (fst (downloadModel net svc modelName w)))
    = progress_calls (io w) ++ ps
    /\ length ps = length body
    /\ Forall (fun p => 0 <= p <= 100)%Z ps
    /\ (body <> [] -> Z.of_nat (String.length (Js.join body)) = totalSize ->
        last ps = Some 100%Z).
Proof.
  intros Hurl Hfinal Htotal Hpos Hfits.
  exists (reported content_length body).
  split; [apply (downloadModel_reports net svc modelName url w _ _ _ Hurl Hfinal)|].
  unfold reported. rewrite Htotal.
  destruct (0 <? totalSize)%Z eqn:Ht; [|lia].
  destruct (chunk_progress_bounds totalSize 0 body Hpos) as (Hlen & Hall & Hlast);
    [lia|lia|].
  split; [exact Hlen|]. split; [exact Hall|].
  intros Hbody Hfull. rewrite (Hlast Hbody). cbn [Z.add]. rewrite Hfull.
  f_equal. now apply percent_full.
Qed.

(** X18. [deleteModel] of a model of the catalog answers whether the
    model file existed; after it the file does not exist, every other file
    is as it was, and a second [deleteModel] answers [false] and does
    nothing. *)
Theorem deleteModel_removes_only_the_model (svc : WhisperService)
    (modelName url : string) (w : World) :
  MODEL_DOWNLOAD_URLS !! modelName = Some url ->
  snd (deleteModel svc modelName w) = existsSync (getModelPath svc modelName) w
  /\ files (fst (deleteModel svc modelName w))
     = delete (getModelPath svc modelName) (files w)
  /\ deleteModel svc modelName (fst (deleteModel svc modelName w))
     = (fst (deleteModel svc modelName w), false).
Proof.
  intros _. unfold deleteModel.
  destruct (existsSync (getModelPath svc modelName) w) eqn:Hexists; cbn [fst snd].
  - split; [reflexivity|]. split; [reflexivity|].
    unfold existsSync. cbn [files unlinkSync emit set_files].
    rewrite bool_decide_false; [reflexivity|].
    rewrite lookup_delete_eq. intros [x Hx]. discriminate.
  - split; [reflexivity|]. rewrite Hexists. split; [|reflexivity].
    symmetry. apply delete_id. unfold existsSync in Hexists.
    apply bool_decide_eq_false in Hexists. now apply eq_None_not_Some.
Qed.

(** X19. A model that was downloaded can be transcribed with and
    deleted: after a download whose final response is a 200, [transcribe]
    with that model does not stop at the model check, and [deleteModel]
    answers [true]. *)
Theorem downloaded_model_is_installed (svc : WhisperService)
    (modelName url : string) (w : World)
    (location content_length : option string) (body : list string) :
  MODEL_DOWNLOAD_URLS !! modelName = Some url ->
  final_reply net url = Response 200 location content_length body ->
  existsSync (getModelPath svc modelName) (fst (downloadModel net svc modelName w)) = true
  /\ snd (deleteModel svc modelName (fst (downloadModel net svc modelName w))) = true
  /\ forall runs filePath language conv,
       snd (transcribe_begin runs svc filePath
              {| opt_model := Some modelName; opt_language := language |} conv
              (fst (downloadModel net svc modelName w)))
       <> inl ("Model " +:+ modelName +:+ " is not downloaded. Please download it first.").
Proof.
  intros Hurl Hfinal.
  destruct (download_200_outcome svc modelName url w _ _ _ Hurl Hfinal) as [_ Hfiles].
  assert (Hexists : existsSync (getModelPath svc modelName)
                      (fst (downloadModel net svc modelName w)) = true).
  { unfold existsSync. rewrite Hfiles, lookup_insert_eq.
    apply bool_decide_eq_true. eauto. }
  split; [exact Hexists|]. split.
  - unfold deleteModel. now rewrite Hexists.
  - intros runs filePath language conv.
    assert (Hname : or_else (Some modelName) "tiny" = modelName).
    { unfold or_else. destruct (String.eqb modelName EmptyString) eqn:Hempty; [|reflexivity].
      apply String.eqb_eq in Hempty. subst modelName. discriminate. }
    unfold transcribe_begin. cbn [opt_model]. rewrite Hname, Hexists. cbn [negb].
    destruct (existsSync filePath _); cbn [negb].
    + destruct (convert_if_needed runs svc filePath conv _) as [wc [msg|cf]] eqn:Hconv.
      * cbn [snd]. apply convert_if_needed_inl in Hconv.
        destruct Hconv as (_ & [m ->] & _). intros H. injection H as H. discriminate.
      * unfold spawn_recognition, spawn. cbn [snd]. discriminate.
    + cbn [snd]. intros H. injection H as H. discriminate.
Qed.
End DownloadOutcomes.

(** X15 on a 1000-byte model arriving in two halves. *)
Lemma successful_download_witness :
  snd (Whisper.downloadModel Samples.net_two_chunks Samples.svc "tiny" Samples.empty_world)
  = Some (Resolved true).
Proof.
  exact (proj1 (successful_download_installs_the_model Samples.net_two_chunks
                  Samples.svc "tiny" Samples.tiny_url Samples.empty_world None
                  (Some "1000") [Samples.bytes 500; Samples.bytes 500]
                  eq_refl eq_refl)).
Defined.

(** X16 on a server that answers 404. *)
Lemma failed_first_request_witness :
  snd (Whisper.downloadModel Samples.net_404 Samples.svc "tiny" Samples.studio)
  = Some (Rejected "Failed to download: HTTP 404")
  /\ files (fst (Whisper.downloadModel Samples.net_404 Samples.svc "tiny" Samples.studio))
       !! "/models/ggml-tiny.bin"
     = Some "ggml".
Proof.
  destruct (failed_first_request_removes_the_temp_file Samples.net_404 Samples.svc
              "tiny" Samples.tiny_url Samples.studio eq_refl)
    as (Hsettled & _ & Hmodel).
  - split; [reflexivity|discriminate].
  - split; [exact Hsettled|]. exact (eq_trans Hmodel eq_refl).
Defined.

(** X17 on a 1000-byte model arriving in two halves. *)
Lemma download_progress_bounds_witness :
  exists ps,
    progress_calls
      (io (fst (Whisper.downloadModel Samples.net_two_chunks Samples.svc "tiny"
                  Samples.empty_world)))
    = progress_calls (io Samples.empty_world) ++ ps
    /\ length ps = 2%nat
    /\ Forall (fun p => 0 <= p <= 100)%Z ps.
Proof.
  destruct (download_progress_within_bounds Samples.net_two_chunks Samples.svc "tiny"
              Samples.tiny_url Samples.empty_world None (Some "1000")
              [Samples.bytes 500; Samples.bytes 500] 1000%Z
              eq_refl eq_refl eq_refl eq_refl)
    as (ps & Hps & Hlen & Hall & _).
  - vm_compute. discriminate.
  - exists ps. auto.
Defined.

(** X18 on the [tiny] model of the studio. *)
Lemma deleteModel_witness :
  Whisper.MODEL_DOWNLOAD_URLS !! "tiny" = Some Samples.tiny_url
  /\ snd (Whisper.deleteModel Samples.svc "tiny" Samples.studio) = true
  /\ files (fst (Whisper.deleteModel Samples.svc "tiny" Samples.studio))
       !! "/models/ggml-tiny.bin" = None
  /\ files (fst (Whisper.deleteModel Samples.svc "tiny" Samples.studio))
       !! "/media/talk.mp3" = Some "mp3".
Proof.
  split; [reflexivity|].
  destruct (deleteModel_removes_only_the_model Samples.svc "tiny" Samples.tiny_url
              Samples.studio eq_refl) as (Hanswer & Hfiles & _).
  rewrite Hanswer, Hfiles. repeat split; vm_compute; reflexivity.
Defined.

(** X19 on a 1000-byte model arriving in two halves. *)
Lemma downloaded_model_witness :
  existsSync "/models/ggml-tiny.bin"
    (fst (Whisper.downloadModel Samples.net_two_chunks Samples.svc "tiny"
            Samples.empty_world))
  = true.
Proof.
  exact (proj1 (downloaded_model_is_installed Samples.net_two_chunks Samples.svc
                  "tiny" Samples.tiny_url Samples.empty_world None (Some "1000")
                  [Samples.bytes 500; Samples.bytes 500] eq_refl eq_refl)).
Defined.

(** ** The hardware recommendation and the model catalog *)

(** Comparisons of numbers, as propositions. *)
Ltac js_compare :=
  unfold Js.lt, Js.le in *;
  repeat match goal with
         | |- context [Qle_bool ?a ?b] => destruct (Qle_bool a b) eqn:?
         end;
  repeat match goal with
         | H : Qle_bool _ _ = true |- _ => apply Qle_bool_iff in H
         | H : Qle_bool ?a ?b = false |- _ =>
             let Hle := fresh in
             assert (b < a)%Q
               by (apply Qnot_le_lt; intros Hle; apply Qle_bool_iff in Hle; congruence);
             clear H
         end;
  cbn [negb] in *.

Lemma recommended_model_listed (totalMemoryGB : Q) (hasMetalSupport hasCudaSupport : bool) :
  is_Some (Whisper.MODEL_DOWNLOAD_URLS
             !! Hardware.recommendedModel
                  (Hardware.getModelRecommendation totalMemoryGB hasMetalSupport
                     hasCudaSupport))
  /\ (exists m, Whisper.name m
                = Hardware.recommendedModel
                    (Hardware.getModelRecommendation totalMemoryGB hasMetalSupport
                       hasCudaSupport)
                /\ In m Whisper.WHISPER_MODELS)
  /\ (Hardware.canRunLargeModels
        (Hardware.getModelRecommendation totalMemoryGB hasMetalSupport hasCudaSupport)
      = true
      <-> In (Hardware.recommendedModel
                (Hardware.getModelRecommendation totalMemoryGB hasMetalSupport
                   hasCudaSupport))
             ["medium"; "large-v3"]).
Proof.
  unfold Hardware.getModelRecommendation.
  generalize (if (hasMetalSupport || hasCudaSupport)%bool
              then (totalMemoryGB * (12 # 10))%Q else totalMemoryGB) as effectiveMemory.
  intros effectiveMemory.
  destruct (Js.lt effectiveMemory 4); [|destruct (Js.lt effectiveMemory 8);
    [|destruct (Js.lt effectiveMemory 16); [|destruct (Js.lt effectiveMemory 32)]]];
    cbn [Hardware.recommendedModel Hardware.canRunLargeModels];
    (split; [vm_compute; eauto|]);
    (split; [apply List.in_map_iff; cbn; tauto|]);
    cbn; split; intros H; try discriminate; try reflexivity;
    try tauto; try (repeat destruct H as [H|H]; try discriminate; contradiction).
Qed.

(** X20. Whatever the machine, the model [getModelRecommendation] names
    is in the download catalog and in the model table, and
    [canRunLargeModels] is set exactly when it names [medium] or
    [large-v3]. *)
Theorem recommended_model_is_in_the_catalog (totalMemoryGB : Q)
    (hasMetalSupport hasCudaSupport : bool) :
  is_Some (Whisper.MODEL_DOWNLOAD_URLS
             !! Hardware.recommendedModel
                  (Hardware.getModelRecommendation totalMemoryGB hasMetalSupport
                     hasCudaSupport))
  /\ In (Hardware.recommendedModel
           (Hardware.getModelRecommendation totalMemoryGB hasMetalSupport hasCudaSupport))
        (map Whisper.name Whisper.WHISPER_MODELS)
  /\ (Hardware.canRunLargeModels
        (Hardware.getModelRecommendation totalMemoryGB hasMetalSupport hasCudaSupport)
      = true
      <-> In (Hardware.recommendedModel
                (Hardware.getModelRecommendation totalMemoryGB hasMetalSupport
                   hasCudaSupport))
             ["medium"; "large-v3"]).
Proof.
  destruct (recommended_model_listed totalMemoryGB hasMetalSupport hasCudaSupport)
    as (Hurl & (m & Hname & Hm) & Hlarge).
  split; [exact Hurl|]. split; [|exact Hlarge].
  rewrite <- Hname. now apply in_map.
Qed.

Lemma accelerated_recommendation (m : Q) (metal cuda : bool) :
  Hardware.getModelRecommendation m metal cuda
  = Hardware.getModelRecommendation
      (if (metal || cuda)%bool then m * (12 # 10) else m)%Q false false.
Proof. unfold Hardware.getModelRecommendation. now destruct (metal || cuda)%bool. Qed.

Lemma rank_by_memory (e1 e2 : Q) :
  (e1 <= e2)%Q ->
  (Hardware.rank (Hardware.recommendedModel (Hardware.getModelRecommendation e1 false false))
   <= Hardware.rank
        (Hardware.recommendedModel (Hardware.getModelRecommendation e2 false false)))%nat.
Proof.
  intros Hle. unfold Hardware.getModelRecommendation. cbn [orb].
  js_compare; cbn [Hardware.recommendedModel]; first [lra | vm_compute; lia].
Qed.

(** X21. More memory never moves the recommendation down the ladder
    [tiny], [base], [small], [medium], [large-v3], and neither does Metal
    or CUDA support on a machine with memory. *)
Theorem recommendation_grows_with_memory (m1 m2 : Q) (metal cuda : bool) :
  (0 <= m1)%Q ->
  (m1 <= m2)%Q ->
  (Hardware.rank (Hardware.recommendedModel (Hardware.getModelRecommendation m1 metal cuda))
   <= Hardware.rank
        (Hardware.recommendedModel (Hardware.getModelRecommendation m2 metal cuda)))%nat
  /\ (Hardware.rank
        (Hardware.recommendedModel (Hardware.getModelRecommendation m1 false false))
      <= Hardware.rank
           (Hardware.recommendedModel (Hardware.getModelRecommendation m1 metal cuda)))%nat.
Proof.
  intros Hpos Hle.
  rewrite (accelerated_recommendation m1 metal cuda),
    (accelerated_recommendation m2 metal cuda).
  split; apply rank_by_memory; destruct (metal || cuda)%bool; lra.
Qed.

(** X22. Without Metal or CUDA support and with at least 2.5 GB of
    memory, the model the hardware detector recommends is one that
    [getAvailableModels] of the transcription service flags as
    recommended (it needs at most 40% of the memory). *)
Theorem hardware_recommendation_is_flagged (totalMemoryGB : Q)
    (svc : Whisper.WhisperService) (w : World) :
  (5 # 2 <= totalMemoryGB)%Q ->
  Whisper.isModelRecommended
    (Hardware.recommendedModel (Hardware.getModelRecommendation totalMemoryGB false false))
    totalMemoryGB
  = true
  /\ exists info,
       In info (Whisper.getAvailableModels svc totalMemoryGB w)
       /\ Whisper.name (Whisper.model info)
          = Hardware.recommendedModel
              (Hardware.getModelRecommendation totalMemoryGB false false)
       /\ Whisper.recommended info = true.
Proof.
  intros Hmem.
  assert (Hflag : Whisper.isModelRecommended
            (Hardware.recommendedModel
               (Hardware.getModelRecommendation totalMemoryGB false false))
            totalMemoryGB = true).
  { unfold Hardware.getModelRecommendation. cbn [orb].
    destruct (Js.lt totalMemoryGB 4) eqn:H4; [|destruct (Js.lt totalMemoryGB 8) eqn:H8;
      [|destruct (Js.lt totalMemoryGB 16) eqn:H16;
        [|destruct (Js.lt totalMemoryGB 32) eqn:H32]]];
      cbn [Hardware.recommendedModel]; unfold Whisper.isModelRecommended;
      cbn [List.find Whisper.WHISPER_MODELS Whisper.name String.eqb Ascii.eqb
           Bool.eqb Whisper.ramRequired];
      unfold Js.lt, Js.le in *;
      repeat match goal with
             | H : negb (Qle_bool ?a ?b) = false |- _ =>
                 apply negb_false_iff, Qle_bool_iff in H
             | H : negb (Qle_bool ?a ?b) = true |- _ => clear H
             end;
      apply Qle_bool_iff; lra. }
  split; [exact Hflag|].
  unfold Whisper.getAvailableModels.
  destruct (proj1 (proj2 (recommended_model_listed totalMemoryGB false false)))
    as (m & Hname & Hm).
  eexists. split; [apply in_map; exact Hm|]. cbn [Whisper.model Whisper.recommended].
  split; [exact Hname|]. now rewrite Hname.
Qed.

(** X23. The low-memory warning is issued exactly below 8 GB. It says
    that only [tiny] and [base] can be used: without Metal or CUDA support
    the recommendation is then one of the two, but with such support and
    at least 20/3 GB the recommendation is [small]. *)
Theorem low_memory_warning_and_recommendation (totalMemoryGB availableMemoryGB : Q)
    (platform arch : string) (metal cuda : bool) :
  (In Hardware.low_memory_warning
      (Hardware.generateWarnings totalMemoryGB availableMemoryGB platform arch)
   <-> (totalMemoryGB < 8)%Q)
  /\ ((totalMemoryGB < 8)%Q ->
      In (Hardware.recommendedModel
            (Hardware.getModelRecommendation totalMemoryGB false false))
         ["tiny"; "base"])
  /\ ((20 # 3 <= totalMemoryGB)%Q -> (totalMemoryGB < 8)%Q ->
      (metal || cuda)%bool = true ->
      Hardware.recommendedModel (Hardware.getModelRecommendation totalMemoryGB metal cuda)
      = "small").
Proof.
  split; [|split].
  - unfold Hardware.generateWarnings.
    destruct (Js.lt totalMemoryGB 8) eqn:H8; unfold Js.lt in H8.
    + split; [intros _|intros _; now left].
      apply negb_true_iff in H8. apply Qnot_le_lt. intros Hle.
      apply Qle_bool_iff in Hle. congruence.
    + apply negb_false_iff, Qle_bool_iff in H8. split; [|lra].
      intros Hin. exfalso. cbn [app] in Hin.
      apply in_app_or in Hin as [Hin|Hin];
        [destruct (Js.lt availableMemoryGB 2)|destruct (_ && _)%bool];
        cbn in Hin; intuition discriminate.
  - intros Hlow. unfold Hardware.getModelRecommendation. cbn [orb].
    js_compare; cbn; try lra; tauto.
  - intros Hfrom Hlow Haccel. unfold Hardware.getModelRecommendation.
    rewrite Haccel. js_compare; cbn; try lra; reflexivity.
Qed.

(** X21 on 3 GB against 10 GB, with Metal. *)
Lemma recommendation_grows_witness :
  (Hardware.rank
     (Hardware.recommendedModel (Hardware.getModelRecommendation 3 true false))
   <= Hardware.rank
        (Hardware.recommendedModel (Hardware.getModelRecommendation 10 true false)))%nat.
Proof.
  apply (recommendation_grows_with_memory 3 10 true false);
    unfold Qle; simpl; lia.
Defined.

(** X22 on a machine with 8 GB. *)
Lemma hardware_recommendation_witness :
  Whisper.isModelRecommended
    (Hardware.recommendedModel (Hardware.getModelRecommendation 8 false false)) 8
  = true.
Proof.
  apply (hardware_recommendation_is_flagged 8 Samples.svc Samples.empty_world).
  unfold Qle. simpl. lia.
Defined.

(** ** The scores of [analyzeVideo] *)
Section AnalyzerFacts.
Import Analyzer.

Lemma Math_round_bounds (a b : Z) (q : Q) :
  (inject_Z a <= q)%Q -> (q <= inject_Z b)%Q ->
  (a <= Js.Math_round q <= b)%Z.
Proof.
  intros Ha Hb. unfold Js.Math_round.
  pose proof (Qfloor_le (q + (1 # 2))) as Hfloor.
  pose proof (Qlt_floor (q + (1 # 2))) as Hceil.
  split.
  - assert (Hlt : (inject_Z a < inject_Z (Qfloor (q + (1 # 2)) + 1))%Q).
    { rewrite inject_Z_plus in *. change (inject_Z 1) with 1%Q in *. lra. }
    rewrite <- Zlt_Qlt in Hlt. lia.
  - assert (Hlt : (inject_Z (Qfloor (q + (1 # 2))) < inject_Z (b + 1))%Q).
    { rewrite inject_Z_plus. change (inject_Z 1) with 1%Q. lra. }
    rewrite <- Zlt_Qlt in Hlt. lia.
Qed.

Lemma rounded_in_range (a b : Z) (q : Q) :
  (inject_Z a <= q)%Q -> (q <= inject_Z b)%Q ->
  (inject_Z a <= inject_Z (Js.Math_round q) <= inject_Z b)%Q.
Proof.
  intros Ha Hb. destruct (Math_round_bounds a b q Ha Hb).
  split; now rewrite <- Zle_Qle.
Qed.

Lemma clamp_bounds (q : Q) :
  (0 <= Js.Math_max 0 (Js.Math_min 100 q) <= 100)%Q.
Proof.
  unfold Js.Math_max, Js.Math_min.
  destruct (Qle_bool 100 q) eqn:H100.
  - change (Qle_bool 0 100) with true. cbv iota. lra.
  - assert (Hq : (q < 100)%Q).
    { apply Qnot_le_lt. intros Hle. apply Qle_bool_iff in Hle. congruence. }
    destruct (Qle_bool 0 q) eqn:H0.
    + apply Qle_bool_iff in H0. lra.
    + lra.
Qed.

Lemma analyzeVideo_resolved (s : Facade.Server) (videoPath : string) (reply : Reply)
    (w : World) (r : TikTokScoreResult) :
  snd (analyzeVideo s videoPath reply w) = Resolved r ->
  Facade.isServerReady s = true
  /\ existsSync videoPath w = true
  /\ exists r0 error, reply = Answered true (Some r0) error /\ r = rescore r0.
Proof.
  unfold analyzeVideo.
  destruct (Facade.isServerReady s); cbn [negb]; [|discriminate].
  destruct (existsSync videoPath w); cbn [negb]; [|discriminate].
  destruct reply as [msg|success result error]; [discriminate|].
  destruct success; [|discriminate]. destruct result as [r0|]; [|discriminate].
  cbn [snd]. intros [= <-]. eauto 6.
Qed.

(** X24. [analyzeVideo] sends its request exactly when the server is
    ready and the video file exists, and reports progress 100 exactly when
    it resolves; a service that is not ready rejects before looking at the
    file. *)
Theorem analyzeVideo_requests_only_when_ready (s : Facade.Server) (videoPath : string)
    (reply : Reply) (w : World) :
  (In (Post "/analyze" videoPath 120000) (fst (analyzeVideo s videoPath reply w))
   <-> Facade.isServerReady s = true /\ existsSync videoPath w = true)
  /\ (In (Progress 100) (fst (analyzeVideo s videoPath reply w))
      <-> exists r, snd (analyzeVideo s videoPath reply w) = Resolved r)
  /\ (Facade.isServerReady s = false ->
      analyzeVideo s videoPath reply w
      = ([], Rejected "Video Analyzer server not running. Start the server first."))
  /\ (Facade.isServerReady s = true -> existsSync videoPath w = false ->
      analyzeVideo s videoPath reply w
      = ([], Rejected ("Video file not found: " +:+ videoPath))).
Proof.
  unfold analyzeVideo.
  destruct (Facade.isServerReady s); cbn [negb].
  2:{ cbn. repeat split; try tauto; try discriminate; intros H;
        try (destruct H as [? H]; discriminate); destruct H; discriminate. }
  destruct (existsSync videoPath w); cbn [negb].
  2:{ cbn. repeat split; try tauto; try discriminate; intros H;
        try (destruct H as [? H]; discriminate); destruct H; discriminate. }
  split; [|split; [|split; discriminate]].
  - split; [auto|]. intros _.
    destruct reply as [msg|[] [r0|] error]; cbn; auto.
  - destruct reply as [msg|[] [r0|] error]; cbn; split;
      try (intros [H|[H|[]]]; discriminate); try (intros [H|[]]; discriminate);
      try (intros [r H]; discriminate); eauto.
Qed.

(** X25. Whatever the server computed, a resolved [analyzeVideo] has a
    content score between 0 and 100, an audio score of 30 for a video
    that has no audio or is silent, and the overall score of the server
    untouched; the four category scores do not depend on the category
    scores the server sent. *)
Theorem analyzeVideo_rescores (s : Facade.Server) (videoPath : string) (reply : Reply)
    (w : World) (r : TikTokScoreResult) :
  snd (analyzeVideo s videoPath reply w) = Resolved r ->
  (0 <= content_overall (content r) <= 100)%Q
  /\ ((has_audio (audio r) = false \/ is_silent (audio r) = true) ->
      audio_overall (audio r) = 30%Q)
  /\ exists r0 error,
       reply = Answered true (Some r0) error
       /\ overallScore r = overallScore r0
       /\ forall t h a c,
            analyzeVideo s videoPath
              (Answered true (Some (with_overalls t h a c r0)) error) w
            = analyzeVideo s videoPath reply w.
Proof.
  intros Hresolved.
  destruct (analyzeVideo_resolved _ _ _ _ _ Hresolved) as (_ & _ & r0 & error & -> & ->).
  split; [apply clamp_bounds|]. split.
  - cbn [rescore audio has_audio is_silent audio_overall].
    intros [Hnone|Hsilent].
    + now rewrite Hnone.
    + rewrite Hsilent. now rewrite orb_true_r.
  - exists r0, error. split; [reflexivity|]. split; [reflexivity|].
    intros t h a c. unfold analyzeVideo.
    destruct (Facade.isServerReady s); [|reflexivity].
    destruct (existsSync videoPath w); reflexivity.
Qed.

Lemma Math_round_of_integer (k : Z) (q : Q) :
  (q == inject_Z k)%Q -> Js.Math_round q = k.
Proof.
  intros Hq. unfold Js.Math_round.
  rewrite (Qfloor_comp _ (inject_Z k + (1 # 2))) by now rewrite Hq.
  unfold Qfloor, Qplus, inject_Z. cbn [Qnum Qden].
  change (Z.pos (1 * 2)) with 2%Z.
  rewrite Z.mul_1_l, Z.div_add_l by lia. change (1 / 2)%Z with 0%Z. lia.
Qed.

Lemma Math_round_of_half (k : Z) (q : Q) :
  (q == inject_Z k + (1 # 2))%Q -> Js.Math_round q = (k + 1)%Z.
Proof.
  intros Hq. unfold Js.Math_round.
  rewrite (Qfloor_comp _ (inject_Z (k + 1))).
  - apply Qfloor_Z.
  - rewrite Hq, inject_Z_plus. change (inject_Z 1) with 1%Q. lra.
Qed.

Lemma floor_minutes (n : Z) (q : Q) :
  (0 <= q)%Q -> (q < 60)%Q ->
  Qfloor ((inject_Z (60 * n) + q) / 60) = n.
Proof.
  intros Hq0 Hq60.
  pose proof (Qfloor_le ((inject_Z (60 * n) + q) / 60)) as Hle.
  pose proof (Qlt_floor ((inject_Z (60 * n) + q) / 60)) as Hlt.
  assert (Heq : ((inject_Z (60 * n) + q) / 60 == inject_Z n + q / 60)%Q).
  { rewrite inject_Z_mult. change (inject_Z 60) with 60%Q. field. }
  assert (Hfrac : (0 <= q / 60)%Q) by (apply Qle_shift_div_l; lra).
  assert (Hfrac' : (q / 60 < 1)%Q) by (apply Qlt_shift_div_r; lra).
  rewrite inject_Z_plus in Hlt. change (inject_Z 1) with 1%Q in Hlt.
  revert Hle Hlt Heq Hfrac Hfrac'.
  generalize ((inject_Z (60 * n) + q) / 60)%Q as x. generalize (q / 60)%Q as y.
  intros y x Hle Hlt Heq Hfrac Hfrac'.
  assert (H1 : (inject_Z (Qfloor x) < inject_Z (n + 1))%Q).
  { rewrite inject_Z_plus. change (inject_Z 1) with 1%Q. lra. }
  assert (H2 : (inject_Z n < inject_Z (Qfloor x + 1))%Q).
  { rewrite inject_Z_plus. change (inject_Z 1) with 1%Q. lra. }
  rewrite <- Zlt_Qlt in H1, H2. lia.
Qed.

Lemma remainder_of_nonneg (a : Q) :
  (0 <= a)%Q ->
  Js.remainder a 60 = (a - 60 * inject_Z (Qfloor (a / 60)))%Q.
Proof.
  intros Ha. unfold Js.remainder, Js.Math_trunc.
  assert (Hpos : Qle_bool 0 (a / 60) = true)
    by (apply Qle_bool_iff, Qle_shift_div_l; [reflexivity|lra]).
  now rewrite Hpos.
Qed.

(** X27. [formatDuration] of a whole number of seconds below 2^53
    shows the minutes and the seconds left, the seconds on two digits.
    Half a second before a full minute it shows 60 seconds in the old
    minute (for less than 2^46 minutes, where the half second is still
    a double). *)
Theorem formatDuration_of_seconds (n : Z) :
  (0 <= n < 2 ^ 53)%Z ->
  formatDuration (inject_Z n)
  = pretty (n / 60)%Z +:+ ":" +:+ Js.padStart2 (pretty (n mod 60)%Z)
  /\ ((n < 2 ^ 46)%Z ->
      formatDuration (inject_Z (60 * n) + (119 # 2))
      = pretty n +:+ ":60").
Proof.
  intros Hn. unfold formatDuration. split.
  - pose proof (Z.mod_pos_bound n 60 ltac:(lia)) as Hmod.
    pose proof (Z.div_mod n 60 ltac:(lia)) as Hdiv.
    assert (Hsplit : (inject_Z n
                      == inject_Z (60 * (n / 60)) + inject_Z (n mod 60))%Q).
    { rewrite <- inject_Z_plus. now rewrite <- Z.div_mod by lia. }
    assert (Hr0 : (0 <= inject_Z (n mod 60))%Q) by (rewrite <- (Zle_Qle 0); lia).
    assert (Hr59 : (inject_Z (n mod 60) <= 59)%Q) by (rewrite <- (Zle_Qle _ 59); lia).
    assert (Hmins : Qfloor (inject_Z n / 60) = (n / 60)%Z).
    { rewrite (Qfloor_comp _ ((inject_Z (60 * (n / 60)) + inject_Z (n mod 60)) / 60))
        by now rewrite <- Hsplit.
      apply floor_minutes; lra. }
    assert (Hmins' : Qfloor (Js.double (inject_Z n / 60)) = (n / 60)%Z).
    { assert (Hx : (60 * (inject_Z n / 60) == inject_Z n)%Q) by field.
      assert (Hn53 : (inject_Z n <= 9007199254740991)%Q)
        by (rewrite <- (Zle_Qle _ 9007199254740991); lia).
      rewrite inject_Z_mult in Hsplit. change (inject_Z 60) with 60%Q in Hsplit.
      revert Hx. generalize (inject_Z n / 60)%Q as x. intros x Hx.
      apply (floor_double (n / 60) 47 x); [lia|lra| |].
      - change (2 ^ (47 + 1))%Q with 281474976710656%Q. lra.
      - change (2 ^ (47 - 53))%Q with (1 # 64)%Q. lra. }
    rewrite remainder_of_nonneg by (rewrite <- (Zle_Qle 0); lia).
    rewrite Hmins, Hmins', (Math_round_of_integer (n mod 60)); [reflexivity|].
    rewrite Hsplit at 1. rewrite inject_Z_mult. change (inject_Z 60) with 60%Q. ring.
  - intros Hn46.
    assert (Hnq : (0 <= inject_Z (60 * n))%Q) by (rewrite <- (Zle_Qle 0); lia).
    assert (Hmins' : Qfloor (Js.double ((inject_Z (60 * n) + (119 # 2)) / 60)) = n).
    { assert (Hx : (60 * ((inject_Z (60 * n) + (119 # 2)) / 60)
                    == 60 * inject_Z n + (119 # 2))%Q)
        by (rewrite inject_Z_mult; change (inject_Z 60) with 60%Q; field).
      assert (Hn0 : (0 <= inject_Z n)%Q) by (rewrite <- (Zle_Qle 0); lia).
      assert (Hn46' : (inject_Z n <= 70368744177663)%Q)
        by (rewrite <- (Zle_Qle _ 70368744177663); lia).
      revert Hx. generalize ((inject_Z (60 * n) + (119 # 2)) / 60)%Q as x. intros x Hx.
      apply (floor_double n 46 x); [lia|lra| |].
      - change (2 ^ (46 + 1))%Q with 140737488355328%Q. lra.
      - change (2 ^ (46 - 53))%Q with (1 # 128)%Q. lra. }
    rewrite remainder_of_nonneg by lra.
    rewrite Hmins', (floor_minutes n (119 # 2)) by lra.
    rewrite (Math_round_of_half 59); [reflexivity|].
    rewrite inject_Z_mult. change (inject_Z 60) with 60%Q.
    change (inject_Z 59) with 59%Q. ring.
Qed.

(** X26. When the server's measurements lie between 0 and 100, so do
    the technical and the audio score of a resolved [analyzeVideo]; the
    hook score lies between 0 and 110, the face bonus being added after
    the average and not capped. *)
Theorem analyzeVideo_score_ranges (s : Facade.Server) (videoPath : string)
    (reply : Reply) (w : World) (r : TikTokScoreResult) :
  snd (analyzeVideo s videoPath reply w) = Resolved r ->
  Forall (fun q => 0 <= q <= 100)%Q
    [resolution (technical r); aspect_ratio (technical r); lighting (technical r);
     blur (technical r); fps (technical r);
     first_3_seconds (hook r); movement (hook r);
     levels (audio r); clarity (audio r)] ->
  (0 <= technical_overall (technical r) <= 100)%Q
  /\ (0 <= audio_overall (audio r) <= 100)%Q
  /\ (0 <= hook_overall (hook r) <= 110)%Q
  /\ (face_detected (hook r) = true ->
      (first_3_seconds (hook r) == 100)%Q -> (movement (hook r) == 100)%Q ->
      hook_overall (hook r) = 110%Q).
Proof.
  intros Hresolved Hrange.
  destruct (analyzeVideo_resolved _ _ _ _ _ Hresolved) as (_ & _ & r0 & error & -> & ->).
  cbn [rescore technical hook audio resolution aspect_ratio lighting blur fps
       first_3_seconds movement levels clarity] in Hrange.
  repeat match goal with
         | H : Forall _ (_ :: _) |- _ => apply Forall_cons_1 in H as [? H]
         end.
  cbn [rescore technical hook audio technical_overall audio_overall hook_overall
       face_detected first_3_seconds movement].
  assert (Hhalf : forall a b : Q,
            (0 <= a <= 100)%Q -> (0 <= b <= 100)%Q -> (0 <= (a + b) / 2 <= 100)%Q).
  { intros a b Ha Hb. split.
    - apply Qle_shift_div_l; lra.
    - apply Qle_shift_div_r; lra. }
  split; [|split; [|split]].
  - apply (rounded_in_range 0 100).
    + apply Qle_shift_div_l; [reflexivity|]. change (inject_Z 0) with 0%Q. lra.
    + apply Qle_shift_div_r; [reflexivity|]. change (inject_Z 100) with 100%Q. lra.
  - destruct (negb (has_audio (audio r0)) || is_silent (audio r0))%bool; [lra|].
    apply (rounded_in_range 0 100); now apply Hhalf.
  - pose proof (Hhalf _ _ H4 H5) as Havg.
    destruct (face_detected (hook r0)).
    + apply (rounded_in_range 0 110);
        [change (inject_Z 0) with 0%Q|change (inject_Z 110) with 110%Q]; lra.
    + apply (rounded_in_range 0 110);
        [change (inject_Z 0) with 0%Q|change (inject_Z 110) with 110%Q]; lra.
  - intros -> Hfirst Hm. f_equal. unfold Js.Math_round.
    rewrite (Qfloor_comp _ (221 # 2)); [reflexivity|]. rewrite Hfirst, Hm. reflexivity.
Qed.
End AnalyzerFacts.

(** ** The model catalog and the hashtags of [OllamaService] *)
Section OllamaCatalog.
Import Ollama.

Lemma occurs_app (c : ascii) (a b : string) :
  Js.occurs c (a +:+ b) = (Js.occurs c a || Js.occurs c b)%bool.
Proof.
  induction a as [|x a IH]; [reflexivity|].
  change (String x a +:+ b) with (String x (a +:+ b)). cbn [Js.occurs].
  now rewrite IH, orb_assoc.
Qed.

Lemma occurs_rev (c : ascii) (s : string) : Js.occurs c (Js.rev s) = Js.occurs c s.
Proof.
  induction s as [|x s IH]; [reflexivity|].
  cbn [Js.rev Js.occurs]. rewrite occurs_app, IH. cbn [Js.occurs].
  now rewrite orb_false_r, orb_comm.
Qed.

Lemma occurs_skipWhiteSpace (c : ascii) (s : string) :
  Js.occurs c (Js.skipWhiteSpace s) = true -> Js.occurs c s = true.
Proof.
  induction s as [|x s IH]; [discriminate|]. cbn [Js.skipWhiteSpace].
  destruct (Js.isWhiteSpace x); [|auto].
  intros H. cbn [Js.occurs]. rewrite (IH H). apply orb_true_r.
Qed.

Lemma occurs_trim (c : ascii) (s : string) :
  Js.occurs c (Js.trim s) = true -> Js.occurs c s = true.
Proof.
  unfold Js.trim. rewrite occurs_rev. intros H.
  apply occurs_skipWhiteSpace in H. rewrite occurs_rev in H.
  now apply occurs_skipWhiteSpace.
Qed.

Lemma occurs_span_until (p : ascii -> bool) (c : ascii) (s : string) :
  Js.occurs c (fst (Js.span_until p s)) = true ->
  p c = false /\ Js.occurs c s = true.
Proof.
  induction s as [|x s IH]; [discriminate|]. cbn [Js.span_until].
  destruct (p x) eqn:Hx; [discriminate|].
  destruct (Js.span_until p s) as [a b]. cbn [fst Js.occurs] in *.
  intros H. apply orb_true_iff in H as [H|H].
  - apply Ascii.eqb_eq in H. subst x. rewrite Ascii.eqb_refl. auto.
  - destruct (IH H) as [Hp Hs]. rewrite Hs, orb_true_r. auto.
Qed.

Lemma split_LF_pieces (s piece : string) :
  In piece (Js.split_LF s) -> Js.occurs Js.LF piece = false.
Proof.
  revert piece. induction s as [|x s IH]; intros piece.
  - intros [<-|[]]. reflexivity.
  - cbn [Js.split_LF]. destruct (Ascii.eqb x Js.LF) eqn:Hx.
    + intros [<-|Hin]; [reflexivity|now apply IH].
    + destruct (Js.split_LF s) as [|q qs].
      * intros [<-|[]]. cbn [Js.occurs]. now rewrite Ascii.eqb_sym, Hx.
      * intros [<-|Hin].
        -- cbn [Js.occurs]. rewrite Ascii.eqb_sym, Hx. apply IH. now left.
        -- apply IH. now right.
Qed.

Lemma In_take {A : Type} (n : nat) (l : list A) (x : A) : In x (take n l) -> In x l.
Proof.
  revert l. induction n as [|n IH]; intros [|y l]; cbn; try tauto.
  intros [->|H]; auto.
Qed.

(** X28. The hashtags [suggestHashtags] resolves with are at most 15,
    each starts with [#] and contains neither a space nor a line feed. *)
Theorem suggested_hashtags_are_tags (generated : Transport (option string))
    (tags : list string) :
  suggestHashtags generated = Resolved tags ->
  (length tags <= 15)%nat
  /\ Forall (fun tag => Js.startsWith tag "#" = true
                        /\ Js.occurs " "%char tag = false
                        /\ Js.occurs Js.LF tag = false) tags.
Proof.
  unfold suggestHashtags.
  destruct generated as [msg|[response|]]; try discriminate.
  intros [= <-]. unfold parse_hashtags. split.
  - rewrite length_take. lia.
  - apply List.Forall_forall. intros tag Hin.
    apply In_take, List.in_map_iff in Hin. destruct Hin as (line & <- & Hin).
    apply List.filter_In in Hin as [Hin Hhash].
    apply List.in_map_iff in Hin. destruct Hin as (piece & <- & Hpiece).
    unfold Js.split_first. split; [|split].
    + unfold Js.startsWith in *. destruct (Js.trim piece) as [|c rest]; [discriminate|].
      cbn [String.prefix] in Hhash. destruct (ascii_dec "#" c) as [<-|]; [|discriminate].
      cbn [Js.span_until]. change (Ascii.eqb " " "#") with false. cbv iota.
      destruct (Js.span_until (Ascii.eqb " ") rest). cbn [fst String.prefix].
      destruct (ascii_dec "#" "#") as [_|Hne]; [now destruct s|now destruct Hne].
    + destruct (Js.occurs " " _) eqn:Hocc; [|reflexivity].
      apply occurs_span_until in Hocc as [Hfalse _].
      now rewrite Ascii.eqb_refl in Hfalse.
    + destruct (Js.occurs Js.LF _) eqn:Hocc; [|reflexivity].
      apply occurs_span_until in Hocc as [_ Hocc]. apply occurs_trim in Hocc.
      now rewrite (split_LF_pieces _ _ Hpiece) in Hocc.
Qed.

(** X29. [getAvailableModels] always answers with the whole catalog, in
    its order. A model is flagged as downloaded exactly when Ollama lists
    its id, so none is when the listing fails; it is flagged as
    recommended exactly when it needs at most half of the memory,
    whatever the catalog says, and the flags of the catalog are the
    computed ones only from 12 GB to less than 20 GB. *)
Theorem catalog_flags_are_computed (availableRam : Q)
    (tags : Transport (option (list string))) :
  map entry (getAvailableModels availableRam tags) = RECOMMENDED_MODELS
  /\ Forall (fun info =>
               (info_downloaded info = true <-> id (entry info) ∈ listModels tags)
               /\ (info_recommended info = true
                   <-> (ramRequired (entry info) <= availableRam * (1 # 2))%Q))
       (getAvailableModels availableRam tags)
  /\ (forall msg,
        Forall (fun info => info_downloaded info = false)
          (getAvailableModels availableRam (RequestFailed msg)))
  /\ (map info_recommended (getRecommendedModels availableRam)
      = map recommended RECOMMENDED_MODELS
      <-> (12 <= availableRam)%Q /\ (availableRam < 20)%Q).
Proof.
  split; [reflexivity|]. split; [|split].
  - unfold getAvailableModels. apply List.Forall_forall. intros info Hin.
    apply List.in_map_iff in Hin. destruct Hin as (m & <- & _).
    cbn [info_downloaded info_recommended entry]. split.
    + apply bool_decide_eq_true.
    + unfold Js.le. apply Qle_bool_iff.
  - intros msg. unfold getAvailableModels. apply List.Forall_forall. intros info Hin.
    apply List.in_map_iff in Hin. destruct Hin as (m & <- & _).
    cbn [info_downloaded listModels]. apply bool_decide_eq_false. apply not_elem_of_nil.
  - unfold getRecommendedModels, RECOMMENDED_MODELS.
    cbn [map info_recommended recommended ramRequired].
    split.
    + intros H. injection H as H4 H6 H10 _ _.
      unfold Js.le in *. apply Qle_bool_iff in H6.
      assert (Hlt : (availableRam * (1 # 2) < 10)%Q).
      { apply Qnot_le_lt. intros Hle. apply Qle_bool_iff in Hle. congruence. }
      lra.
    + intros [H12 H20]. unfold Js.le.
      assert (H4 : Qle_bool 4 (availableRam * (1 # 2)) = true)
        by (apply Qle_bool_iff; lra).
      assert (H6 : Qle_bool 6 (availableRam * (1 # 2)) = true)
        by (apply Qle_bool_iff; lra).
      assert (H10 : Qle_bool 10 (availableRam * (1 # 2)) = false).
      { destruct (Qle_bool 10 _) eqn:H; [|reflexivity]. apply Qle_bool_iff in H. lra. }
      assert (H12' : Qle_bool 12 (availableRam * (1 # 2)) = false).
      { destruct (Qle_bool 12 _) eqn:H; [|reflexivity]. apply Qle_bool_iff in H. lra. }
      now rewrite H4, H6, H10, H12'.
Qed.
End OllamaCatalog.

(** ** The listing of downloaded models *)
Section ModelListing.
Import Whisper.
Variable net : PropValue -> HttpReply.

Lemma prefix_app (a b c : string) :
  String.prefix (a +:+ b) (a +:+ c) = String.prefix b c.
Proof.
  induction a as [|x a IH]; [reflexivity|].
  change (String x a +:+ b) with (String x (a +:+ b)).
  change (String x a +:+ c) with (String x (a +:+ c)).
  cbn [String.prefix]. now destruct (ascii_dec x x).
Qed.

Lemma prefix_nil (s : string) : String.prefix EmptyString s = true.
Proof. now destruct s. Qed.

Lemma drop_app (a b : string) (n : nat) :
  Js.drop (String.length a + n) (a +:+ b) = Js.drop n b.
Proof. induction a as [|x a IH]; [reflexivity|exact IH]. Qed.

Lemma rev_app (a b : string) : Js.rev (a +:+ b) = Js.rev b +:+ Js.rev a.
Proof.
  induction a as [|x a IH]; [now rewrite string_app_nil_r|].
  change (String x a +:+ b) with (String x (a +:+ b)). cbn [Js.rev].
  now rewrite IH, string_app_assoc.
Qed.

Lemma split_first_absent (c : ascii) (s : string) :
  Js.occurs c s = false -> Js.split_first c s = s.
Proof.
  unfold Js.split_first. induction s as [|x s IH]; [reflexivity|].
  cbn [Js.occurs Js.span_until]. intros H. apply orb_false_elim in H as [Hx Hs].
  rewrite Hx. specialize (IH Hs). destruct (Js.span_until (Ascii.eqb c) s).
  cbn [fst] in *. now rewrite IH.
Qed.

Lemma prefix_self (p s : string) : String.prefix p (p +:+ s) = true.
Proof.
  rewrite <- (string_app_nil_r p) at 1. rewrite prefix_app. apply prefix_nil.
Qed.

Lemma remove_first_leading (p s : string) : Js.remove_first p (p +:+ s) = s.
Proof.
  assert (Hunfold : forall t, Js.remove_first p t
            = if String.prefix p t then Js.drop (String.length p) t
              else match t with
                   | EmptyString => EmptyString
                   | String c t' => String c (Js.remove_first p t')
                   end) by (now intros [|c t]).
  rewrite Hunfold, prefix_self.
  rewrite <- (Nat.add_0_r (String.length p)). apply drop_app.
Qed.

(** A file right below [dir] shows in the listing of [dir] under its name. *)
Lemma readdirSync_lists (dir file content : string) (w : World) :
  file <> EmptyString ->
  Js.occurs "/"%char file = false ->
  files w !! path_join dir file = Some content ->
  In file (readdirSync dir w).
Proof.
  intros Hname Hflat Hfile. unfold readdirSync.
  apply list_elem_of_In, elem_of_remove_dups, list_elem_of_omap.
  exists (path_join dir file). split.
  - apply list_elem_of_In, List.in_map_iff. exists (path_join dir file, content).
    split; [reflexivity|]. apply list_elem_of_In, elem_of_map_to_list. exact Hfile.
  - unfold entry_below, path_join.
    rewrite prefix_app. change ("/" +:+ file) with (String "/"%char file).
    cbn [String.prefix]. destruct (ascii_dec "/" "/") as [_|Hne]; [|now destruct Hne].
    rewrite prefix_nil, drop_app. cbn [Js.drop].
    rewrite (split_first_absent _ _ Hflat).
    destruct (String.eqb file EmptyString) eqn:Hempty; [|reflexivity].
    apply String.eqb_eq in Hempty. contradiction.
Qed.

(** The file name of a catalog model goes through the filter and the two
    replacements of [getDownloadedModels]. *)
Lemma catalog_file_name (modelName url : string) :
  MODEL_DOWNLOAD_URLS !! modelName = Some url ->
  Js.occurs "/"%char ("ggml-" +:+ modelName +:+ ".bin") = false
  /\ Js.remove_first ".bin" (modelName +:+ ".bin") = modelName.
Proof.
  intros Hurl.
  assert (Hall : map_Forall
            (fun m _ => Js.occurs "/"%char ("ggml-" +:+ m +:+ ".bin") = false
                        /\ Js.remove_first ".bin" (m +:+ ".bin") = m)
            MODEL_DOWNLOAD_URLS).
  { unfold MODEL_DOWNLOAD_URLS.
    repeat (apply map_Forall_insert_2; [split; reflexivity|]).
    apply map_Forall_empty. }
  exact (Hall _ _ Hurl).
Qed.

(** X30. After a download whose final response is a 200, the model
    is among the models [getDownloadedModels] lists, and
    [getAvailableModels] flags it as downloaded. *)
Theorem downloaded_model_is_listed (svc : WhisperService) (modelName url : string)
    (w : World) (location content_length : option string) (body : list string)
    (totalMemoryGB : Q) :
  MODEL_DOWNLOAD_URLS !! modelName = Some url ->
  final_reply net url = Response 200 location content_length body ->
  In modelName (getDownloadedModels svc (fst (downloadModel net svc modelName w)))
  /\ forall info,
       In info (getAvailableModels svc totalMemoryGB (fst (downloadModel net svc modelName w))) ->
       name (model info) = modelName ->
       downloaded info = true.
Proof.
  intros Hurl Hfinal.
  destruct (download_200_outcome net svc modelName url w _ _ _ Hurl Hfinal)
    as [_ Hfiles].
  destruct (catalog_file_name _ _ Hurl) as [Hflat Hreplace].
  assert (Hlisted : In modelName
            (getDownloadedModels svc (fst (downloadModel net svc modelName w)))).
  { assert (Hentry : In ("ggml-" +:+ modelName +:+ ".bin")
              (readdirSync (modelsDir svc) (fst (downloadModel net svc modelName w)))).
    { apply (readdirSync_lists _ _ (Js.join body)); [discriminate|exact Hflat|].
      rewrite Hfiles. apply lookup_insert_eq. }
    unfold getDownloadedModels, existsSync_dir.
    rewrite bool_decide_false by (intros Hnone; now rewrite Hnone in Hentry).
    cbn [negb]. apply List.in_map_iff.
    exists ("ggml-" +:+ modelName +:+ ".bin"). split.
    - rewrite remove_first_leading. exact Hreplace.
    - apply List.filter_In. split; [exact Hentry|].
      + apply andb_true_intro. split; [apply prefix_self|].
        unfold Js.endsWith. rewrite <- string_app_assoc, rev_app. apply prefix_self. }
  split; [exact Hlisted|].
  intros info Hin Hname. unfold getAvailableModels in Hin.
  apply List.in_map_iff in Hin. destruct Hin as (m & <- & _).
  cbn [model downloaded] in *. rewrite Hname.
  apply bool_decide_eq_true, list_elem_of_In. exact Hlisted.
Qed.
End ModelListing.

(** X25 on the sample video. *)
Lemma analyzeVideo_rescores_witness :
  (0 <= Analyzer.content_overall
          (Analyzer.content (Analyzer.rescore Samples.clip_scores)) <= 100)%Q.
Proof.
  exact (proj1 (analyzeVideo_rescores Samples.ready_server "/media/clip.mp4"
                  Samples.clip_reply Samples.desk
                  (Analyzer.rescore Samples.clip_scores) eq_refl)).
Defined.

(** X26 on the sample video, whose hook score is 110. *)
Lemma analyzeVideo_score_ranges_witness :
  Analyzer.hook_overall (Analyzer.hook (Analyzer.rescore Samples.clip_scores)) = 110%Q.
Proof.
  destruct (analyzeVideo_score_ranges Samples.ready_server "/media/clip.mp4"
              Samples.clip_reply Samples.desk
              (Analyzer.rescore Samples.clip_scores) eq_refl)
    as (_ & _ & _ & Hhook).
  - repeat constructor; unfold Qle; simpl; lia.
  - apply Hhook; reflexivity.
Defined.

(** X27 on two minutes and five seconds. *)
Lemma formatDuration_witness : Analyzer.formatDuration (inject_Z 125) = "2:05".
Proof.
  assert (H : (0 <= 125 < 2 ^ 53)%Z) by (vm_compute; split; [discriminate|reflexivity]).
  exact (proj1 (formatDuration_of_seconds 125 H)).
Defined.

(** X28 on four lines, three of them tags. *)
Lemma suggested_hashtags_witness :
  Ollama.suggestHashtags (Ollama.Answered (Some Samples.hashtag_text))
  = Resolved ["#fit"; "#gym"; "#run"]
  /\ (length ["#fit"; "#gym"; "#run"] <= 15)%nat.
Proof.
  split; [reflexivity|].
  exact (proj1 (suggested_hashtags_are_tags
                  (Ollama.Answered (Some Samples.hashtag_text))
                  ["#fit"; "#gym"; "#run"] eq_refl)).
Defined.

(** X30 on a 1000-byte model arriving in two halves. *)
Lemma downloaded_model_listed_witness :
  In "tiny"
    (Whisper.getDownloadedModels Samples.svc
       (fst (Whisper.downloadModel Samples.net_two_chunks Samples.svc "tiny"
               Samples.empty_world))).
Proof.
  exact (proj1 (downloaded_model_is_listed Samples.net_two_chunks Samples.svc "tiny"
                  Samples.tiny_url Samples.empty_world None (Some "1000")
                  [Samples.bytes 500; Samples.bytes 500] 8 eq_refl eq_refl)).
Defined.
